(* ===== verification/_CoqProject ===== *)
-Q . S2P
Prelude.v
Config.v
Provider.v
GameApi.v
Board.v
UseGame.v
Session.v
App.v
Footer.v
Format.v
View.v
Screen.v
Animated.v
Spec.v
Refinement.v
Liveness.v
