(* ===== verification/Prelude.v ===== *)
(** * LuckyNMiner: a verification development of the session engine

  The program ([src/src]) is a React pick-a-tile wagering game.  Its core is
  two components: the board provider [api/gameApi.ts] ([fetchBoard] builds a
  random 3x3 board with 1..4 mines and a reward of 11..15 per safe cell) and
  the session engine, the hook [hooks/useGame.ts], which keeps the bankroll,
  the bet, the board, the round status and the statistics, and exposes the
  operations the UI calls ([initializeGame], [flipCell], [initiateCashOut],
  [confirmCashOut], [cancelCashOut], [startNewRound], [setBetAmount],
  [resetGame]).  The engine calls the provider once per round start, across
  one [await]; everything else is synchronous state update.

  ** Files (in dependency order)
  - [Prelude] (this file): the [luck_scope] notation [x <- c ;; k] of the
    random-draw monad [Rand] (a state-and-failure monad over the supply of
    [Math.random()] draws), the JS [Set] model [js_set_add], the tactics
    [z_cases], [inv_some] and [bool_hyps], the hint database [luck], and the generic
    lemmas on lists, 2-D arrays and counting the components share.
  - [Config]: [utils/constants.ts] ([Module GAME_CONFIG]) and the records and
    enumerations of [types/game.ts], with their [EqDecision] instances.
  - [Provider]: the interface between the two components, the class
    [BoardProvider] (a board source and the law that its boards satisfy
    [game_wf]: 3x3, mines in [[MIN_MINES, MAX_MINES]] and below 9, reward in
    [[11, 15]]).
  - [GameApi] ([Module GameApi]): [fetchBoard], [generateRandomBoard],
    [generateRandomPositions] (its [while] loop is [positions_loop], a
    Fixpoint on the draw supply), [generateRandomWinAmount].  Theorems: the
    loop's invariant (duplicate-free, in range, exactly [count] positions),
    its termination when the draws cover enough distinct cells, the board's
    shape and mine count ([generateRandomBoard_wf]), the provider contract
    [fetchBoard_wf] and termination of [fetchBoard].
  - [Board] ([Module Board]): [createGameBoard], [revealAllCells], the
    reveal map of [flipCell] ([reveal_at]) and the JS read [board[r][c]]
    ([board_get], [None] for [undefined]).  Theorems: none of them changes
    the win/loss layout or an id, reveals are monotone, lookups after a
    reveal, and [cell_id] is injective (the digits [pretty] writes contain
    no dash, so [cell-r-c] parses back).
  - [UseGame] ([Module UseGame]): the hook state [HookState] (the three
    [useState]s) and one Definition per exported function, its updater
    written with the object spread as a full record; [initializeGame] is
    split at its [await] into [initializeGame_start] and
    [initializeGame_settle]; [flipCell] returns [inl TypeError] where the
    code throws.  Theorems: each operation on each branch (bet clamp range
    and idempotence, reveal of a winning cell, of a mine, of a revealed cell,
    off the board, cash-out accounting, round start, provider failure, the
    unaffordable start) and the spec's three scenarios.
  - [Session] ([Module Session]): the event system [sys_step] on [Sys] (hook
    state, pending [fetchBoard] requests, pending [startNewRound] timers) in
    which any call, settlement or timer may come next; [reachable] over any
    [BoardProvider], and [reachable_sf] under the spec's single-flight rule.
    Theorems: the invariant [game_inv] of every interleaving (proved against
    the provider interface and instantiated by [gameApi_provider]), the
    non-negative balance under single flight, and concrete runs showing what
    the code allows without it: a negative balance from two starts, a board
    applied after a reset, a cash-out that refunds a lost bet.
  - [App] ([Module App]): the components as the user drives them.  [Ui] is
    the session [Sys] with [CashOutModal]'s own state ([Stage] and the
    pending timers of [handleConfirm]); [ui_step] fires one click, only when
    the component renders and enables it ([showStartButton],
    [showResetButton], [header_canCashOut], [cell_clickable] on the cells
    [GameBoard] renders), one timer callback or one board arrival, and
    [wiring] names the hook function [App.tsx] passes to each.  Whether the
    modal's overlay intercepts background clicks is the parameter [blocks]
    (its CSS module is not in the repository).  Theorems: the refinement
    [ui_refines_session] into [Session.reachable]; the App invariant
    [ui_inv] (single flight, balance non-negative, bet fixed at
    [DEFAULT_BET], modal stage and timers in step) for either overlay; the
    stronger [ui_inv_blocking] for a blocking overlay (every round starts
    from [STARTING_BALANCE], confirmation only on a [PLAYING] round); Play
    Again is never enabled, so [startNewRound] is never called; RESTART
    during the modal's celebration leaves [handleConfirm]'s timer pending,
    and it cashes out the fresh session ([restart_during_celebration_pays]);
    concrete runs of a cash-out then RESTART, and of that RESTART.
  - [Footer] ([Module GameFooter]): [GameFooter.tsx]'s [gameProgress],
    [nextPrizeInfo] (its JS number arithmetic as IEEE binary64 through the
    Standard Library's [SpecFloat]: [js_div], [js_sub], [js_ceil],
    [js_min]) and [tierAchievements].  Theorems: the progress counts and
    their bounds, the progress of a fresh round, and, from an invariant of
    every reachable session (the round's coins are at most 15 per winning
    cell revealed, so at most 135), that no coin tier is ever lit and that
    a [PLAYING] round always shows the first tier with the remaining cells
    as the wins needed.  The last step evaluates the float code over the
    whole bounded domain (coins 0..135, reward 10..15, remaining 1..9) with
    [vm_compute], a table of 816 entries.
  - [Format] ([Module JsFormat]): the ECMA-262 algorithms of
    [Number::toString] (the shortest digits, 1 to 17, whose decimal reads
    back as the double, written plainly or in exponent notation),
    [Number.prototype.toFixed] and [Math.round] on binary64 values, computed
    on the exact rational [m * 2^e] of the double.  These built-ins are not
    code of the repository; their helpers are modelled from ECMA-262.
    Lemmas: the search for the shortest digits always succeeds within 17
    digits ([shortest_total]: the unit [10^(n-17)] is below [x / 2^53], the
    doubles around [x] at least [x / 2^54] away); [(c / 100).toFixed(2)] is
    the dollars and cents of [c], and [n.toString()] and
    [Math.round(n).toString()] the digits of [n], for every [c] and [n] from
    0 to 999, each a table of 1000 entries
    evaluated by [vm_compute]; the reachable balances are at most 135
    coins, so the tables cover them with room to spare.
  - [View] ([Module GameView]): what [GameBoard], [GameCell],
    [GameControls] and [GameHeader] render from their props ([gameBoard],
    [gameCell], [gameControls], [gameHeader], and [app_view] on the hook
    state): CSS classes, back-face content, [disabled], [aria-label], the
    animation delay as the style string [Number::toString] prints, the React key and [position] of
    each cell, button texts.  Theorems: the grid and the board are in
    bijection, each drawn cell reading back through its [position] the cell
    it draws ([gameBoard_roundtrip]); in every reachable state the keys are
    the ids [cell-r-c] of the positions and pairwise distinct
    ([app_cell_keys], from the injectivity of [cell_id] in [Board]); the
    BALANCE pill shows the round's coins, not the session balance; in every
    reachable state the footer of a round in play prints 'NEXT: $75' and
    the exact number of winning cells left ([footer_prints_next_tier]).  The
    texts are the strings of the source: the footer's tier amounts by
    [toFixed(2)], its next-prize label and value ([prizeInfo_text]), and
    the emoji as the bytes the files hold, which are double-encoded in
    [GameCell], [GameFooter] and [GameHeader] ([backText_not_emoji]).
  - [Screen] ([Module Screen]): [CashOutModal.tsx]'s render
    ([cashOutModal]: nothing while closed, else the stage with its dollar
    amount, coins and buttons) and [App]'s whole page [app_screen].
    Theorems: the clicks the screen offers (enabled buttons not covered by
    the modal's overlay, and the modal's own) are exactly the clicks
    [ui_step] takes ([screen_clicks_enabled]); in every reachable state the
    modal prints the round's coins as dollars and cents
    ([modal_shows_dollars]).
  - [Animated] ([Module AnimatedNumber]): [AnimatedNumber.tsx] as a step
    relation over its state, its effect and the queue of requested
    animation frames, driven by new values and browser frames on a clock
    (React 18 batching and [Object.is] bail-out; [Math.pow] a parameter).
    Theorems: every frame that moves the display leaves one more loop
    running, because the cleanup cancels only the first frame of a loop
    ([frame_leaks_loop]); a frame after every loop's [duration] ends the
    animation exactly at the target ([frame_settles]); the header's two
    numbers, shown at their value, print with the [decimals] [GameHeader]
    passes them the round's coins as dollars and cents and as an integer
    ([header_prints_balance]).
  - [Spec] ([Module SessionSpec]): the spec's session machine (§3, §4.2),
    modelled from [spec.md], not from code: [SState], the transition table
    [spec_step] ([None] where the spec rejects an event) and §8's ledger.
  - [Refinement] ([Module Refinement]): the abstraction [abs] of a hook
    state into an [SState] and [spec_event], the spec operation each App
    event performs.  Theorems: each hook operation under the spec's guard
    performs its row of the table; with a blocking overlay every App step is
    a spec step or a stutter ([app_refines_spec]), so every App state is
    spec-reachable; and the App keeps §8's bankroll ledger between RESTARTs
    ([app_bankroll_ledger]).
  - [Liveness] ([Module Liveness]): for a provider that produces some board
    and a blocking overlay, from every reachable App state at most three
    events that can happen ([sent_event]: boards of the provider, never a
    rejection, which [fetchBoard] never sends) lead to a state where START
    GAME is accepted ([app_can_always_start]): a measure [ui_rank] that
    every reachable state of positive rank can lower ([ui_progress]), the
    hidden mine of a [PLAYING] round coming from the invariant
    [playing_clean]: in every reachable App state the revealed cells of a
    round in play are winning ([app_revealed_cells_win]).
  - [GameApi] also proves the board loops equal to a declarative reference,
    [mine_layout] ([place_mines_layout]).

  ** Modelling choices
  - Numbers are [Z]: every value the engine computes is an integer far below
    2^53, where JS doubles are exact.  Where the components divide or
    multiply by fractions ([GameFooter], [GameHeader]'s dollars,
    [GameCell]'s delay, [AnimatedNumber]) the numbers are binary64
    through [SpecFloat].
  - [Math.random()] returns [d / 2^53] with [0 <= d < 2^53]; a [Rand]
    computation consumes draws left to right and returns [None] only when the
    supply runs out.  [Math.floor(Math.random() * k)] is [(d * k) / 2^53],
    the exact product (for [k] below 2^53 the rounded product stays below
    [k] as well).  No fuel is needed: the only loop consumes one draw per
    iteration, and [fetchBoard_total] gives the supplies on which it ends.
    The one fuel of the development, [Format.dig10_go], is the bit count
    of the number whose decimal digits it counts: each step divides by 10,
    so it never runs out ([dig10_spec]).
  - React state updates are applied in order, each updater atomically with
    the [setSessionStats] it calls; React StrictMode double invocation of
    updaters (development only) is not modelled.
  - Text is [string], the characters outside ASCII as the UTF-8 bytes of
    the source; numbers print through [Format]'s [number_toString] and
    [js_toFixed].

  ** Not modelled
  The CSS itself (so whether the modal's overlay intercepts clicks is the
  parameter [blocks]), React StrictMode's double invocation of updaters,
  and the Playwright tests (a test harness, compared with the model only
  where they disagree with it: the emoji they look for
  ([backText_not_emoji]) and the Play Again button they click
  ([play_again_unreachable]).  [Math.pow] is left a
  parameter: JavaScript only approximates it. *)

From Stdlib Require Import ZArith Lia.
From stdpp Require Import base list list_numbers decidable option.

Declare Scope luck_scope.
Delimit Scope luck_scope with luck.
Open Scope Z_scope.

(** ** JavaScript [Set] with insertion order

  A JS [Set<number>] iterates in insertion order, and [Set.prototype.add]
  leaves the set unchanged when the value is already present.  We model it as
  a duplicate-free list kept in insertion order; [Array.from(set)] is then the
  list itself. *)

Definition js_set_add (x : Z) (s : list Z) : list Z :=
  if decide (x ∈ s) then s else s ++ [x].

(** ** A state-and-failure monad over a list of random draws

  [Math.random()] is modelled by a supply of draws consumed left to right.
  A computation of type [Rand A] takes the remaining supply and returns the
  value with the rest, or [None] when the supply runs out (the supply plays
  the role of fuel: a long enough supply gives a result, see GameApi). *)

Definition Rand (A : Type) : Type := list Z -> option (A * list Z).

Definition rand_ret {A} (a : A) : Rand A := fun ds => Some (a, ds).

Definition rand_bind {A B} (c : Rand A) (f : A -> Rand B) : Rand B :=
  fun ds => match c ds with
            | Some (a, ds') => f a ds'
            | None => None
            end.

(** One call of [Math.random()]: the next draw. *)
Definition rand_next : Rand Z :=
  fun ds => match ds with [] => None | d :: ds' => Some (d, ds') end.

(** A draw is the double [Math.random()] returns, [d / 2^53] with
    [0 <= d < 2^53] (V8 and SpiderMonkey return such dyadic doubles). *)
Definition random_ok (d : Z) : Prop := 0 <= d < 2 ^ 53.

(** [Math.floor(Math.random() * k)], with the product taken exactly; for
    [k < 2^53] rounding the product to a double never reaches [k]. *)
Definition floor_random_times (d k : Z) : Z := (d * k) / 2 ^ 53.

(** Number of [false] entries of a list. *)
Definition count_false (l : list bool) : nat := length (filter (fun w => w = false) l).

Notation "x <- c ;; k" := (rand_bind c (fun x => k))
  (at level 100, c at next level, right associativity) : luck_scope.

(** ** Shared tactics *)

(** Case analysis on the boolean comparisons of Z that the code makes. *)
Ltac z_cases :=
  repeat match goal with
  | |- context [Z.ltb ?a ?b] => destruct (Z.ltb_spec a b)
  | |- context [Z.leb ?a ?b] => destruct (Z.leb_spec a b)
  | |- context [Z.eqb ?a ?b] => destruct (Z.eqb_spec a b)
  | H : context [Z.ltb ?a ?b] |- _ => destruct (Z.ltb_spec a b)
  | H : context [Z.leb ?a ?b] |- _ => destruct (Z.leb_spec a b)
  end.

(** Split a [Some]/[pair] equation produced by running a monadic model. *)
Ltac inv_some :=
  repeat match goal with
  | H : Some _ = Some _ |- _ => injection H as H
  | H : (_, _) = (_, _) |- _ => injection H as H
  | H : None = Some _ |- _ => discriminate H
  | H : Some _ = None |- _ => discriminate H
  end; subst.

(** Break the boolean guards the code tests into propositions. *)
Ltac bool_hyps :=
  repeat match goal with
  | H : (_ && _) = true |- _ => apply andb_prop in H as [? ?]
  | H : negb _ = true |- _ => apply negb_true_iff in H
  | H : bool_decide _ = true |- _ => apply bool_decide_eq_true_1 in H
  | H : bool_decide _ = false |- _ => apply bool_decide_eq_false_1 in H
  end.

Create HintDb luck.

(** ** Generic lemmas *)

Section JsSet.
Implicit Types (s : list Z) (x y : Z).

Lemma js_set_add_elem x y s : y ∈ js_set_add x s <-> y = x \/ y ∈ s.
Proof.
  unfold js_set_add. case_decide; [| rewrite elem_of_app, list_elem_of_singleton];
    split; intros; try tauto; intuition congruence.
Qed.

Lemma js_set_add_nodup x s : NoDup s -> NoDup (js_set_add x s).
Proof.
  unfold js_set_add. case_decide; [done|].
  intros Hs. rewrite list.NoDup_app. split; [done|]. split; [|apply NoDup_singleton].
  intros y Hy ->%list_elem_of_singleton. done.
Qed.

Lemma js_set_add_length x s :
  length (js_set_add x s) = if decide (x ∈ s) then length s else S (length s).
Proof. unfold js_set_add. case_decide; [done|]. rewrite length_app. simpl. lia. Qed.

Lemma js_set_add_length_le x s : (length (js_set_add x s) <= S (length s))%nat.
Proof. rewrite js_set_add_length. case_decide; lia. Qed.
End JsSet.

#[export] Hint Resolve js_set_add_nodup : luck.

(** [Math.floor(Math.random() * k)] lies in [0, k). *)
Lemma floor_random_times_bound d k :
  random_ok d -> 0 < k -> 0 <= floor_random_times d k < k.
Proof.
  unfold random_ok, floor_random_times. intros Hd Hk. split.
  - apply Z.div_pos; lia.
  - apply Z.div_lt_upper_bound; nia.
Qed.

(** Two lists with the same elements have as many distinct elements. *)
Lemma remove_dups_length_proper (l k : list Z) :
  (forall y, y ∈ l <-> y ∈ k) -> length (remove_dups l) = length (remove_dups k).
Proof.
  intros Hlk. apply Permutation_length, NoDup_Permutation; try apply NoDup_remove_dups.
  intros y. rewrite !elem_of_remove_dups. apply Hlk.
Qed.

(** A duplicate-free list keeps all its elements. *)
Lemma remove_dups_length_nodup (l : list Z) :
  NoDup l -> length (remove_dups l) = length l.
Proof.
  intros Hl. apply Permutation_length, NoDup_Permutation; [apply NoDup_remove_dups|done|].
  intros y. apply elem_of_remove_dups.
Qed.

(** Running a bind: the second computation starts on the rest of the draws. *)
Lemma rand_bind_some {A B} (c : Rand A) (f : A -> Rand B) ds a ds' :
  c ds = Some (a, ds') -> rand_bind c f ds = f a ds'.
Proof. unfold rand_bind. by intros ->. Qed.

Lemma rand_bind_inv {A B} (c : Rand A) (f : A -> Rand B) ds r :
  rand_bind c f ds = Some r ->
  exists a ds', c ds = Some (a, ds') /\ f a ds' = Some r.
Proof. unfold rand_bind. destruct (c ds) as [[a ds']|]; [eauto | discriminate]. Qed.

(** ** Two-dimensional arrays and their flattening

  [board[r][c] = v] on an [n]-column array of arrays is the update of index
  [r * n + c] of the flattened array. *)

Section Grid.
Context {A : Type}.

Lemma concat_alter_insert (b : list (list A)) (n r c : nat) (v : A) :
  Forall (fun cells => length cells = n) b -> (c < n)%nat ->
  concat (alter (fun cells => <[c := v]> cells) r b) = <[(r * n + c)%nat := v]> (concat b).
Proof.
  intros Hb Hc. revert r. induction Hb as [|cells b Hlen Hb IH]; intros [|r]; simpl.
  - done.
  - done.
  - rewrite insert_app_l by lia. done.
  - rewrite insert_app_r_alt by lia. f_equal.
    replace (n + r * n + c - length cells)%nat with (r * n + c)%nat by lia. apply IH.
Qed.

(** In a board of rows of length [n], cell [(r, c)] is entry [r * n + c]
    of the flattened board. *)
Lemma concat_lookup_rows (b : list (list A)) (n r c : nat) (cells : list A) (x : A) :
  Forall (fun cells => length cells = n) b -> b !! r = Some cells -> cells !! c = Some x ->
  concat b !! (r * n + c)%nat = Some x.
Proof.
  intros Hb. revert r. induction Hb as [|cells' b Hlen Hb IH]; intros [|r] Hr Hc; simpl in *;
    try discriminate.
  - injection Hr as ->. rewrite lookup_app_l by (eapply lookup_lt_Some; eauto). done.
  - rewrite lookup_app_r by lia.
    replace (n + r * n + c - length cells')%nat with (r * n + c)%nat by lia. by apply IH.
Qed.

Lemma length_concat_rows (b : list (list A)) (n : nat) :
  Forall (fun cells => length cells = n) b -> length (concat b) = (length b * n)%nat.
Proof. induction 1; simpl; [done|]. rewrite length_app. lia. Qed.

Lemma alter_insert_rows (b : list (list A)) (n r c : nat) (v : A) :
  Forall (fun cells => length cells = n) b ->
  Forall (fun cells => length cells = n) (alter (fun cells => <[c := v]> cells) r b).
Proof.
  intros Hb. revert r. induction Hb as [|cells b Hlen Hb IH]; intros [|r]; simpl.
  - constructor.
  - constructor.
  - constructor; [by rewrite length_insert | done].
  - constructor; [done | apply (IH r)].
Qed.
(** Two arrays of as many rows of length [n] are equal when their
    flattenings are. *)
Lemma concat_rows_inj (b b' : list (list A)) (n : nat) :
  Forall (fun cells => length cells = n) b -> Forall (fun cells => length cells = n) b' ->
  length b = length b' -> concat b = concat b' -> b = b'.
Proof.
  intros Hb. revert b'. induction Hb as [|cells b Hlen Hb IH]; intros [|cells' b'] Hb' Hl Hc;
    simpl in *; try done.
  apply list.Forall_cons in Hb' as [Hlen' Hb'].
  apply app_inj_1 in Hc as [-> Hc]; [|congruence]. f_equal. apply IH; auto.
Qed.
(** A list built by [imap] from a function injective in the index has no
    duplicates. *)
Lemma NoDup_imap_index {B} (f : nat -> A -> B) (l : list A) :
  (forall i j x y, f i x = f j y -> i = j) -> NoDup (imap f l).
Proof.
  revert f. induction l as [|x l IH]; intros f Hf; [constructor|].
  rewrite imap_cons. constructor.
  - intros (i & y & Heq & _)%elem_of_lookup_imap. apply Hf in Heq. discriminate.
  - apply IH. intros i j x' y' Heq. apply Hf in Heq. simpl in Heq. lia.
Qed.

(** The keys [f r c] of the cells of a grid, flattened, have no duplicates
    when [f] is injective in the position. *)
Lemma NoDup_grid_keys {B} (f : nat -> nat -> B) (b : list (list A)) :
  (forall r c r' c', f r c = f r' c' -> r = r' /\ c = c') ->
  NoDup (concat (imap (fun r cells => imap (fun c _ => f r c) cells) b)).
Proof.
  revert f. induction b as [|cells b IH]; intros f Hf; [constructor|].
  rewrite imap_cons. simpl. apply list.NoDup_app. split; [|split].
  - apply NoDup_imap_index. intros i j _ _ Heq. by apply Hf in Heq as [_ ->].
  - intros x (c & _ & -> & _)%elem_of_lookup_imap
      Hin%list_elem_of_In%in_concat.
    destruct Hin as (keys & Hkeys%list_elem_of_In & Hx%list_elem_of_In).
    apply elem_of_lookup_imap in Hkeys as (r & cells' & -> & _).
    apply elem_of_lookup_imap in Hx as (c' & _ & Heq & _). apply Hf in Heq as [? _]. lia.
  - apply (IH (fun r c => f (S r) c)). intros r c r' c' Heq. apply Hf in Heq. lia.
Qed.
(** Mapping over the flattened cells of a grid drawn with [imap]. *)
Lemma fmap_concat_imap {B C} (f : B -> C) (g : nat -> nat -> A -> B) (b : list (list A)) :
  f <$> concat (imap (fun r cells => imap (g r) cells) b) =
  concat (imap (fun r cells => imap (fun c x => f (g r c x)) cells) b).
Proof.
  revert g. induction b as [|cells b IH]; intros g; [done|].
  rewrite !imap_cons. simpl. rewrite fmap_app, fmap_imap. f_equal. apply (IH (fun r => g (S r))).
Qed.
End Grid.

(** Setting a [true] entry to [false] adds one. *)
Lemma count_false_insert (l : list bool) (i : nat) :
  l !! i = Some true -> count_false (<[i := false]> l) = S (count_false l).
Proof.
  unfold count_false. revert i. induction l as [|w l IH]; intros [|i] Hi; simpl in *;
    try discriminate.
  - injection Hi as ->. rewrite !filter_cons. simpl. repeat case_decide; simpl; congruence.
  - rewrite !filter_cons. case_decide; simpl; rewrite IH; auto.
Qed.

Lemma count_false_replicate_true n : count_false (replicate n true) = 0%nat.
Proof. unfold count_false. induction n; simpl; rewrite ?filter_cons; try case_decide; done. Qed.

(** ** Counting with [filter] *)

Section Counting.
Context {A : Type} (P : A -> Prop) `{!forall x, Decision (P x)}.

(** Replacing an entry that fails [P] by one that satisfies it counts one
    more. *)
Lemma filter_length_insert (l : list A) (i : nat) (x y : A) :
  l !! i = Some x -> ~ P x -> P y ->
  length (filter P (<[i := y]> l)) = S (length (filter P l)).
Proof.
  revert i. induction l as [|z l IH]; intros [|i] Hi Hx Hy; simpl in *; try discriminate.
  - injection Hi as ->. rewrite !filter_cons. by repeat case_decide.
  - rewrite !filter_cons. case_decide; simpl; rewrite IH; auto.
Qed.

(** A weaker predicate counts at least as many. *)
Lemma filter_length_impl (Q : A -> Prop) `{!forall x, Decision (Q x)} (l : list A) :
  (forall x, P x -> Q x) -> (length (filter P l) <= length (filter Q l))%nat.
Proof.
  intros HPQ. induction l as [|x l IH]; [done|]. rewrite !filter_cons.
  specialize (HPQ x). repeat case_decide; simpl; naive_solver lia.
Qed.

(** Nothing satisfies [P]: nothing is kept. *)
Lemma filter_length_none (l : list A) :
  Forall (fun x => ~ P x) l -> length (filter P l) = 0%nat.
Proof. induction 1; [done|]. rewrite filter_cons. by case_decide. Qed.

(** A pointwise relation that preserves [P] does not lower the count. *)
Lemma filter_length_Forall2 (R : A -> A -> Prop) (l l' : list A) :
  (forall x y, R x y -> P x -> P y) -> Forall2 R l l' ->
  (length (filter P l) <= length (filter P l'))%nat.
Proof.
  intros HR Hl. induction Hl as [|x y l l' Hxy Hl IH]; [done|].
  rewrite !filter_cons. specialize (HR x y Hxy). repeat case_decide; simpl; naive_solver lia.
Qed.
(** Filtering a list whose entries all pass keeps it. *)
Lemma filter_Forall_id (l : list A) : Forall P l -> filter P l = l.
Proof. induction 1; [done|]. rewrite filter_cons_True by done. by f_equal. Qed.
End Counting.

Lemma is_Some_if {A} (b : bool) (x : A) : is_Some (if b then Some x else None) <-> b = true.
Proof. destruct b; [split; [done | by eexists] | split; [by intros [] | done]]. Qed.

(** A table checked by [forallb] over [seqZ a n] holds at each of its
    entries. *)
Lemma forallb_seqZ (f : Z -> bool) (a n x : Z) :
  forallb f (seqZ a n) = true -> a <= x < a + n -> f x = true.
Proof.
  intros Ht Hx. rewrite forallb_forall in Ht. apply Ht, list_elem_of_In, elem_of_seqZ. lia.
Qed.

Lemma Forall2_concat_rows {A} (R : A -> A -> Prop) (b b' : list (list A)) :
  Forall2 (Forall2 R) b b' -> Forall2 R (concat b) (concat b').
Proof. induction 1; simpl; [constructor | by apply Forall2_app]. Qed.

Lemma Forall_concat_rows {A} (P : A -> Prop) (b : list (list A)) :
  Forall (Forall P) b -> Forall P (concat b).
Proof. induction 1; simpl; [constructor | by apply Forall_app]. Qed.
