(* ===== verification/Config.v ===== *)
(** * Config: the constants of [src/src/utils/constants.ts] and the data
    types of [src/src/types/game.ts].

  JavaScript numbers are modelled as [Z]: every quantity the engine handles
  (balances, bets, rewards, counters, indices) is an integer well inside the
  range where IEEE doubles are exact, so no rounding occurs. *)

From Stdlib Require Import ZArith.
From stdpp Require Import base decidable strings.
From S2P Require Import Prelude.

Open Scope Z_scope.

Module GAME_CONFIG.
Definition BOARD_SIZE : Z := 3.
Definition MIN_MINES : Z := 1.
Definition MAX_MINES : Z := 4.
Definition BASE_AMOUNT_PER_WIN : Z := 10.
Definition API_DELAY_MS : Z := 800.
Definition MIN_BET : Z := 10.
Definition MAX_BET : Z := 1000.
Definition STARTING_BALANCE : Z := 100.
Definition DEFAULT_BET : Z := 25.
End GAME_CONFIG.

(** [CELL_STATES] and [ANIMATION_DURATION]: exported, read by no module. *)
Module CELL_STATES.
Definition HIDDEN : string := "hidden".
Definition REVEALED_WIN : string := "revealed_win".
Definition REVEALED_MINE : string := "revealed_mine".
End CELL_STATES.

Module ANIMATION_DURATION.
Definition CARD_FLIP : Z := 400.
Definition CELL_ENTRANCE : Z := 100.
Definition CELEBRATION : Z := 1500.
End ANIMATION_DURATION.

(** [interface Cell]. *)
Record Cell := mkCell {
  isWinning : bool;
  isRevealed : bool;
  id : string
}.

(** [const GameStatus = { IDLE, PLAYING, WON, LOST, CASHED_OUT }]. *)
Inductive GameStatus := IDLE | PLAYING | WON | LOST | CASHED_OUT.

(** [interface GameState]. *)
Record GameState := mkGameState {
  board : list (list Cell);
  currentCoins : Z;
  gameStatus : GameStatus;
  amountPerWin : Z;
  isLoading : bool;
  sessionBalance : Z;
  currentBet : Z;
  roundWinnings : Z
}.

(** [interface Game]: the provider's answer.  [board[r][c]] is the object
    [{ isWinning }], kept here as its one boolean. *)
Record Game := mkGame {
  game_board : list (list bool);
  game_amountPerWin : Z
}.

(** [interface Board] and [interface GameConfig]: declared, used by no
    module ([useGame] keeps the board in [GameState], the constants are
    [GAME_CONFIG]). *)
Record Board := mkBoard {
  cells : list (list Cell);
  board_amountPerWin : Z
}.

Record GameConfig := mkGameConfig {
  boardSize : Z;
  minMines : Z;
  maxMines : Z;
  baseAmountPerWin : Z;
  minBet : Z;
  maxBet : Z;
  startingBalance : Z
}.

(** [interface CellPosition]. *)
Record CellPosition := mkPos { row : Z; col : Z }.

(** [interface SessionStats]. *)
Record SessionStats := mkStats {
  totalCashedOut : Z;
  gamesPlayed : Z;
  totalWins : Z;
  biggestWin : Z;
  currentStreak : Z
}.

#[export] Instance GameStatus_eq_dec : EqDecision GameStatus.
Proof. solve_decision. Defined.

#[export] Instance CellPosition_eq_dec : EqDecision CellPosition.
Proof. solve_decision. Defined.

#[export] Instance Cell_eq_dec : EqDecision Cell.
Proof. solve_decision. Defined.

(** [gameStatus === s] as the code tests it. *)
Definition status_is (s : GameStatus) (g : GameState) : bool :=
  bool_decide (gameStatus g = s).
