(* ===== verification/Provider.v ===== *)
(** * Provider: the contract between the board provider ([src/src/api/gameApi.ts])
    and the session engine ([src/src/hooks/useGame.ts]).

  The engine only calls [fetchBoard()] and uses its answer; it relies on the
  answer being a well-formed game.  [BoardProvider] states that promise as a
  class: the engine's theorems (UseGame, Session) are proved against it, and
  GameApi gives the instance that discharges it for the code's provider. *)

From Stdlib Require Import ZArith Lia.
From stdpp Require Import base list decidable.
From S2P Require Import Prelude Config.

Open Scope Z_scope.
Import GAME_CONFIG.

(** Number of cells with [isWinning = false] (mines) of a provider board. *)
Definition count_mines (b : list (list bool)) : Z :=
  Z.of_nat (count_false (concat b)).

(** An [N x N] board. *)
Definition board_shape {A} (n : Z) (b : list (list A)) : Prop :=
  Z.of_nat (length b) = n /\ Forall (fun r => Z.of_nat (length r) = n) b.

(** The spec's well-formed game: a [BOARD_SIZE] square grid with between
    [MIN_MINES] and [MAX_MINES] mines, fewer than [N^2], and a reward of
    [BASE_AMOUNT_PER_WIN + 1 .. 5] per safe cell. *)
Definition game_wf (g : Game) : Prop :=
  board_shape BOARD_SIZE (game_board g) /\
  MIN_MINES <= count_mines (game_board g) <= MAX_MINES /\
  count_mines (game_board g) < BOARD_SIZE * BOARD_SIZE /\
  BASE_AMOUNT_PER_WIN + 1 <= game_amountPerWin g <= BASE_AMOUNT_PER_WIN + 5.

(** What a board provider promises: from a supply of genuine
    [Math.random()] draws, any board it produces is well formed. *)
Class BoardProvider := {
  provide : Rand Game;
  provide_wf : forall ds g ds',
    Forall random_ok ds -> provide ds = Some (g, ds') -> game_wf g
}.
