(* ===== verification/GameApi.v ===== *)
(** * GameApi: the board provider of [src/src/api/gameApi.ts].

  [fetchBoard] awaits a delay (not modelled: it only postpones the answer)
  and builds a game from [generateRandomBoard] and [generateRandomWinAmount].
  Every [Math.random()] call consumes one draw of the [Rand] supply
  (Prelude).  The [while] loop of [generateRandomPositions] is a Fixpoint on
  the draw supply: each iteration consumes one draw, so the supply bounds the
  iterations and a supply that covers enough distinct cells lets it finish
  ([positions_loop_live]). *)

From Stdlib Require Import ZArith Lia.
From stdpp Require Import base list list_numbers decidable.
From S2P Require Import Prelude Config Provider.

Open Scope Z_scope.
Local Open Scope luck_scope.
Import GAME_CONFIG.

Module GameApi.

(** The [while (positions.size < count)] loop, its set [positions] threaded
    through, one draw per iteration. *)
Fixpoint positions_loop (totalPositions count : Z) (positions : list Z)
    (ds : list Z) : option (list Z * list Z) :=
  if Z.of_nat (length positions) <? count then
    match ds with
    | [] => None
    | d :: ds' =>
        let randomPosition := floor_random_times d totalPositions in
        positions_loop totalPositions count (js_set_add randomPosition positions) ds'
    end
  else Some (positions, ds).

(** [generateRandomPositions(totalPositions, count)]. *)
Definition generateRandomPositions (totalPositions count : Z) : Rand (list Z) :=
  positions_loop totalPositions count [].

(** [board[row][col] = { isWinning: false }] with [row = floor(position / size)]
    and [col = position % size]. *)
Definition place_mine (size : Z) (board : list (list bool)) (position : Z)
    : list (list bool) :=
  let r := position / size in
  let c := position mod size in
  alter (fun cells => <[Z.to_nat c := false]> cells) (Z.to_nat r) board.

(** The two nested [for] loops that fill the board with winning cells. *)
Definition initial_board (size : Z) : list (list bool) :=
  replicate (Z.to_nat size) (replicate (Z.to_nat size) true).

(** [generateRandomBoard()]. *)
Definition generateRandomBoard : Rand (list (list bool)) :=
  let size := BOARD_SIZE in
  let board := initial_board size in
  let totalCells := size * size in
  let maxPossibleMines := Z.min MAX_MINES (totalCells - 1) in
  r <- rand_next ;;
  let mineCount := floor_random_times r (maxPossibleMines - MIN_MINES + 1) + MIN_MINES in
  positions <- generateRandomPositions totalCells mineCount ;;
  rand_ret (fold_left (place_mine size) positions board).

(** [generateRandomWinAmount()]. *)
Definition generateRandomWinAmount : Rand Z :=
  let base := BASE_AMOUNT_PER_WIN in
  r <- rand_next ;;
  let variation := floor_random_times r 5 + 1 in
  rand_ret (base + variation).

(** [fetchBoard()], after its delay. *)
Definition fetchBoard : Rand Game :=
  board <- generateRandomBoard ;;
  amountPerWin <- generateRandomWinAmount ;;
  rand_ret (mkGame board amountPerWin).

(** ** Auxiliary definitions *)

Definition in_range (totalPositions p : Z) : Prop := 0 <= p < totalPositions.

(** Distinct cells the loop can reach from its set and the draws left. *)
Definition reachable_cells (totalPositions : Z) (acc ds : list Z) : nat :=
  length (remove_dups (acc ++ map (fun d => floor_random_times d totalPositions) ds)).

Definition board_cells : Z := BOARD_SIZE * BOARD_SIZE.

Definition rows_of_size (b : list (list bool)) : Prop :=
  Forall (fun cells => length cells = Z.to_nat BOARD_SIZE) b.

(** Reference for the board [generateRandomBoard] builds from [positions]:
    the cell in row [r], column [c] is a mine exactly when [r * size + c] is
    one of the positions. *)
Definition mine_layout (size : Z) (mines : list Z) : list (list bool) :=
  (fun r => (fun c => bool_decide (r * size + c ∉ mines)) <$> seqZ 0 size) <$> seqZ 0 size.

(** Its flattening: entry [i] is a mine exactly when [i] is a position. *)
Definition mine_flags (n : Z) (mines : list Z) : list bool :=
  (fun i => bool_decide (i ∉ mines)) <$> seqZ 0 n.

(** Concrete draws: [cell_draw i] is a draw whose
    [Math.floor(Math.random() * 9)] is cell [i]
    ([0 <= i <= 8]). *)
Definition cell_draw (i : Z) : Z := i * 1000799917193445.

Definition sample_draws : list Z :=
  [0; cell_draw 4; 2 ^ 52].

(** ** The positions loop *)

Section PositionsLoop.
Variable totalPositions : Z.
Hypothesis Htotal : 0 < totalPositions.

Lemma positions_loop_inv count acc ds ps ds' :
  Forall random_ok ds -> NoDup acc -> Forall (in_range totalPositions) acc ->
  positions_loop totalPositions count acc ds = Some (ps, ds') ->
  NoDup ps /\ Forall (in_range totalPositions) ps /\
  (Z.of_nat (length acc) <= count -> Z.of_nat (length ps) = count).
Proof.
  revert acc. induction ds as [|d ds IH]; intros acc Hds Hnd Hr Hrun; simpl in Hrun.
  - z_cases; inv_some; repeat split; auto; lia.
  - inversion Hds as [|? ? Hd Hds']; subst. z_cases.
    + destruct (IH (js_set_add (floor_random_times d totalPositions) acc))
        as (? & ? & Hlen); auto with luck.
      * apply list.Forall_forall. intros y [->|Hy]%js_set_add_elem.
        -- apply floor_random_times_bound; assumption.
        -- by eapply list.Forall_forall in Hr.
      * repeat split; auto. intros _. apply Hlen.
        pose proof (js_set_add_length_le (floor_random_times d totalPositions) acc). lia.
    + inv_some. repeat split; auto. lia.
Qed.

Lemma positions_loop_live count acc ds :
  NoDup acc -> count <= Z.of_nat (reachable_cells totalPositions acc ds) ->
  exists ps ds', positions_loop totalPositions count acc ds = Some (ps, ds').
Proof.
  revert acc. induction ds as [|d ds IH]; intros acc Hnd Hcount; simpl.
  - z_cases; [|eauto]. exfalso. unfold reachable_cells in Hcount.
    rewrite app_nil_r, remove_dups_length_nodup in Hcount by done. lia.
  - z_cases; [|eauto]. apply IH; auto with luck.
    unfold reachable_cells in *.
    erewrite remove_dups_length_proper; [exact Hcount|]. intros y.
    rewrite !elem_of_app, js_set_add_elem. simpl. rewrite elem_of_cons. tauto.
Qed.

(** Draws left over by the loop stay untouched for the next caller. *)
Lemma positions_loop_frame count acc ds ps rest k :
  positions_loop totalPositions count acc ds = Some (ps, rest) ->
  positions_loop totalPositions count acc (ds ++ k) = Some (ps, rest ++ k).
Proof.
  revert acc. induction ds as [|d ds IH]; intros acc Hrun; simpl in *.
  - z_cases; inv_some. destruct k; simpl; z_cases; first [done | lia].
  - z_cases; inv_some; auto.
Qed.

(** The draws the loop leaves are a suffix of the genuine draws it got. *)
Lemma positions_loop_suffix count acc ds ps rest :
  Forall random_ok ds ->
  positions_loop totalPositions count acc ds = Some (ps, rest) -> Forall random_ok rest.
Proof.
  revert acc. induction ds as [|d ds IH]; intros acc Hds Hrun; simpl in Hrun;
    z_cases; inv_some; auto.
  apply list.Forall_cons in Hds as [_ Hds]. eauto.
Qed.
End PositionsLoop.

(** ** The board *)

Lemma place_mine_flat b p :
  rows_of_size b -> 0 <= p < board_cells ->
  rows_of_size (place_mine BOARD_SIZE b p) /\
  concat (place_mine BOARD_SIZE b p) = <[Z.to_nat p := false]> (concat b).
Proof.
  unfold rows_of_size, place_mine, board_cells, BOARD_SIZE. intros Hb Hp. split.
  - by apply alter_insert_rows.
  - pose proof (Z.div_mod p 3 ltac:(lia)). pose proof (Z.mod_pos_bound p 3 ltac:(lia)).
    pose proof (Z.div_pos p 3 ltac:(lia) ltac:(lia)).
    set (q := p / 3) in *. set (r := p mod 3) in *.
    rewrite concat_alter_insert with (n := 3%nat); [f_equal; lia | exact Hb | lia].
Qed.

Lemma fold_place_mine_flat ps b :
  rows_of_size b -> Forall (fun p => 0 <= p < board_cells) ps ->
  rows_of_size (fold_left (place_mine BOARD_SIZE) ps b) /\
  concat (fold_left (place_mine BOARD_SIZE) ps b) =
    fold_left (fun l p => <[Z.to_nat p := false]> l) ps (concat b).
Proof.
  intros Hb Hps. revert b Hb. induction Hps as [|p ps Hp Hps IH]; intros b Hb; [done|].
  simpl. destruct (place_mine_flat b p Hb Hp) as [Hb' Heq].
  rewrite <- Heq. by apply IH.
Qed.

(** Each placed position was still a winning cell: the mines counted are the
    positions placed. *)
Lemma fold_insert_false_count ps l :
  NoDup ps -> Forall (fun p => 0 <= p) ps ->
  Forall (fun p => l !! Z.to_nat p = Some true) ps ->
  count_false (fold_left (fun l p => <[Z.to_nat p := false]> l) ps l) =
    (count_false l + length ps)%nat.
Proof.
  intros Hnd. revert l. induction Hnd as [|p ps Hp Hnd IH]; intros l Hpos Htrue;
    simpl; [lia|].
  inversion Hpos as [|? ? Hp0 Hpos']; inversion Htrue as [|? ? Ht Htrue']; subst.
  rewrite IH, count_false_insert by (done || (apply list.Forall_forall; intros q Hq;
    rewrite list_lookup_insert_ne;
    [by eapply list.Forall_forall in Htrue' | eapply list.Forall_forall in Hpos';
      [|exact Hq]; intros ?; apply Hp; enough (q = p) by congruence; lia])). lia.
Qed.

Lemma length_fold_left_alter ps b :
  length (fold_left (place_mine BOARD_SIZE) ps b) = length b.
Proof.
  revert b. induction ps as [|p ps IH]; intros b; simpl; [done|].
  rewrite IH. unfold place_mine. apply length_alter.
Qed.

Lemma initial_board_flat : concat (initial_board BOARD_SIZE) = replicate 9 true.
Proof. reflexivity. Qed.

(** ** The provider's guarantees *)

(** The mine count drawn by [generateRandomBoard] lies in
    [[MIN_MINES, min(MAX_MINES, N^2 - 1)]]. *)
Lemma mineCount_range r :
  random_ok r ->
  MIN_MINES <= floor_random_times r (Z.min MAX_MINES (board_cells - 1) - MIN_MINES + 1) + MIN_MINES
    <= Z.min MAX_MINES (board_cells - 1).
Proof.
  intros Hr. pose proof (floor_random_times_bound r (Z.min MAX_MINES (board_cells - 1) - MIN_MINES + 1) Hr).
  unfold board_cells, BOARD_SIZE, MAX_MINES, MIN_MINES in *. lia.
Qed.

Lemma generateRandomBoard_inv ds b ds' :
  Forall random_ok ds -> generateRandomBoard ds = Some (b, ds') ->
  exists positions,
    NoDup positions /\ Forall (fun p => 0 <= p < board_cells) positions /\
    MIN_MINES <= Z.of_nat (length positions) <= Z.min MAX_MINES (board_cells - 1) /\
    b = fold_left (place_mine BOARD_SIZE) positions (initial_board BOARD_SIZE).
Proof.
  intros Hds Hrun. unfold generateRandomBoard in Hrun.
  apply rand_bind_inv in Hrun as (r & ds1 & Hr & Hrun).
  destruct ds as [|d ds]; simpl in Hr; inv_some. inversion Hds as [|? ? Hr Hds1]; subst.
  apply rand_bind_inv in Hrun as (ps & ds2 & Hps & Hret). unfold rand_ret in Hret. inv_some.
  pose proof (mineCount_range r Hr) as Hcount.
  apply positions_loop_inv in Hps as (Hnd & Hin & Hlen); try (done || constructor).
  exists ps. unfold board_cells, BOARD_SIZE, MIN_MINES, MAX_MINES in *.
  repeat split; auto; rewrite Hlen; simpl; lia.
Qed.

(** Placing distinct in-range mines on the initial board gives an [N x N]
    grid with exactly that many mines. *)
Lemma mined_board_wf ps :
  NoDup ps -> Forall (fun p => 0 <= p < board_cells) ps ->
  MIN_MINES <= Z.of_nat (length ps) <= Z.min MAX_MINES (board_cells - 1) ->
  let b := fold_left (place_mine BOARD_SIZE) ps (initial_board BOARD_SIZE) in
  board_shape BOARD_SIZE b /\ MIN_MINES <= count_mines b <= MAX_MINES /\
  count_mines b < BOARD_SIZE * BOARD_SIZE.
Proof.
  intros Hnd Hin Hlen.
  destruct (fold_place_mine_flat ps (initial_board BOARD_SIZE)) as [Hrows Hflat];
    [repeat constructor | done |].
  unfold count_mines. rewrite Hflat, initial_board_flat, fold_insert_false_count,
    count_false_replicate_true.
  - unfold board_cells, BOARD_SIZE, MAX_MINES, MIN_MINES in *. repeat split; try lia.
    + rewrite length_fold_left_alter. reflexivity.
    + eapply list.Forall_impl; [exact Hrows|]. intros cells ->. reflexivity.
  - done.
  - eapply list.Forall_impl; [exact Hin|]. simpl. lia.
  - eapply list.Forall_impl; [exact Hin|]. intros p Hp. apply lookup_replicate_2.
    unfold board_cells, BOARD_SIZE in Hp. lia.
Qed.

(** C9: every board [generateRandomBoard] builds is an [N x N] grid whose
    number of mines lies in [[MIN_MINES, MAX_MINES]] and is below [N^2]. *)
Theorem generateRandomBoard_wf ds b ds' :
  Forall random_ok ds -> generateRandomBoard ds = Some (b, ds') ->
  board_shape BOARD_SIZE b /\ MIN_MINES <= count_mines b <= MAX_MINES /\
  count_mines b < BOARD_SIZE * BOARD_SIZE.
Proof.
  intros Hds Hrun.
  destruct (generateRandomBoard_inv ds b ds' Hds Hrun) as (ps & Hnd & Hin & Hlen & ->).
  by apply mined_board_wf.
Qed.

(** [place_mine] on the flattened reference: one more position. *)
Lemma insert_mine_flags n ms p :
  0 <= p < n -> <[Z.to_nat p := false]> (mine_flags n ms) = mine_flags n (p :: ms).
Proof.
  intros Hp. unfold mine_flags. apply list_eq. intros i.
  rewrite !list_lookup_fmap. destruct (decide (i = Z.to_nat p)) as [->|Hi].
  - rewrite list_lookup_insert_eq by (rewrite length_fmap, length_seqZ; lia).
    rewrite lookup_seqZ_lt by lia. simpl. f_equal. symmetry. apply bool_decide_eq_false_2.
    replace (0 + Z.of_nat (Z.to_nat p)) with p by lia. intros Hn. apply Hn. left.
  - rewrite list_lookup_insert_ne, list_lookup_fmap by done.
    destruct (seqZ 0 n !! i) as [x|] eqn:Hx; [|done]. apply lookup_seqZ in Hx as [-> _].
    simpl. f_equal. apply bool_decide_ext. rewrite not_elem_of_cons. naive_solver lia.
Qed.

Lemma fold_insert_mine_flags n ps ms :
  Forall (fun p => 0 <= p < n) ps ->
  fold_left (fun l p => <[Z.to_nat p := false]> l) ps (mine_flags n ms) =
    mine_flags n (reverse ps ++ ms).
Proof.
  intros Hps. revert ms. induction Hps as [|p ps Hp Hps IH]; intros ms; [done|].
  simpl. rewrite insert_mine_flags, IH by done. by rewrite reverse_cons, <- app_assoc.
Qed.

(** The reference depends only on which positions are mines. *)
Lemma mine_flags_rev n ps : mine_flags n (reverse ps ++ []) = mine_flags n ps.
Proof.
  unfold mine_flags. apply list_fmap_ext. intros _ x _. apply bool_decide_ext.
  by rewrite app_nil_r, elem_of_reverse.
Qed.

Lemma mine_layout_rows ms : rows_of_size (mine_layout BOARD_SIZE ms).
Proof. repeat constructor. Qed.

Lemma mine_layout_flat ms : concat (mine_layout BOARD_SIZE ms) = mine_flags board_cells ms.
Proof. reflexivity. Qed.

(** C37: the two nested loops and the [positions.forEach] of
    [generateRandomBoard] build exactly the reference board: for any
    in-range positions (repeated or not), the cell in row [r], column [c]
    is a mine if and only if [r * BOARD_SIZE + c] is one of them. *)
Theorem place_mines_layout ps :
  Forall (fun p => 0 <= p < board_cells) ps ->
  fold_left (place_mine BOARD_SIZE) ps (initial_board BOARD_SIZE) = mine_layout BOARD_SIZE ps.
Proof.
  intros Hps. destruct (fold_place_mine_flat ps (initial_board BOARD_SIZE)) as [Hrows Hflat];
    [repeat constructor | done |].
  apply (concat_rows_inj _ _ (Z.to_nat BOARD_SIZE)); [done | apply mine_layout_rows | |].
  - by rewrite length_fold_left_alter.
  - rewrite Hflat, mine_layout_flat, initial_board_flat.
    change (replicate 9 true) with (mine_flags board_cells []).
    by rewrite fold_insert_mine_flags, mine_flags_rev.
Qed.

(** [generateRandomWinAmount] pays [BASE_AMOUNT_PER_WIN + 1 .. 5]. *)
Lemma generateRandomWinAmount_range ds a ds' :
  Forall random_ok ds -> generateRandomWinAmount ds = Some (a, ds') ->
  BASE_AMOUNT_PER_WIN + 1 <= a <= BASE_AMOUNT_PER_WIN + 5.
Proof.
  intros Hds Hrun. unfold generateRandomWinAmount, rand_bind, rand_next, rand_ret in Hrun.
  destruct ds as [|r ds]; simpl in Hrun; inv_some.
  apply list.Forall_cons in Hds as [Hr _].
  pose proof (floor_random_times_bound r 5 Hr ltac:(lia)). lia.
Qed.

(** Every game [fetchBoard] answers is well formed (shape, mine count,
    reward): the provider contract. *)
Theorem fetchBoard_wf ds g ds' :
  Forall random_ok ds -> fetchBoard ds = Some (g, ds') -> game_wf g.
Proof.
  intros Hds Hrun. unfold fetchBoard in Hrun.
  apply rand_bind_inv in Hrun as (b & ds1 & Hb & Hrun).
  apply rand_bind_inv in Hrun as (a & ds2 & Ha & Hret). unfold rand_ret in Hret. inv_some.
  assert (Forall random_ok ds1) as Hds1.
  { unfold generateRandomBoard, rand_bind in Hb. destruct ds as [|r ds]; [discriminate|].
    apply list.Forall_cons in Hds as [_ Hds']. simpl in Hb.
    destruct (generateRandomPositions _ _ ds) as [[ps rest]|] eqn:Hps; [|discriminate].
    unfold rand_ret in Hb. inv_some. eapply positions_loop_suffix; eauto. }
  destruct (generateRandomBoard_inv ds b ds1 Hds Hb) as (ps & Hnd & Hin & Hlen & ->).
  destruct (mined_board_wf ps Hnd Hin Hlen) as (? & ? & ?).
  pose proof (generateRandomWinAmount_range ds1 a _ Hds1 Ha). unfold game_wf; simpl; tauto.
Qed.

(** C13: [fetchBoard] answers once the draws after the mine-count draw
    cover enough distinct cells for the loop, followed by one more draw. *)
Theorem fetchBoard_total r ds1 w k :
  random_ok r ->
  Z.min MAX_MINES (board_cells - 1) <= Z.of_nat (reachable_cells board_cells [] ds1) ->
  exists g rest, fetchBoard (r :: ds1 ++ w :: k) = Some (g, rest).
Proof.
  intros Hr Hreach. pose proof (mineCount_range r Hr) as Hc.
  destruct (positions_loop_live board_cells
    (floor_random_times r (Z.min MAX_MINES (board_cells - 1) - MIN_MINES + 1) + MIN_MINES)
    [] ds1 (NoDup_nil_2) ltac:(lia)) as (ps & rest & Hps).
  apply positions_loop_frame with (k := w :: k) in Hps.
  unfold board_cells in Hps.
  assert (generateRandomBoard (r :: ds1 ++ w :: k) =
          Some (fold_left (place_mine BOARD_SIZE) ps (initial_board BOARD_SIZE),
                rest ++ w :: k)) as Hb.
  { unfold generateRandomBoard, rand_bind, rand_next. cbv beta iota zeta.
    unfold generateRandomPositions. rewrite Hps. reflexivity. }
  unfold fetchBoard. rewrite (rand_bind_some _ _ _ _ _ Hb).
  unfold rand_bind, generateRandomWinAmount, rand_next, rand_ret.
  destruct rest; simpl; eauto.
Qed.

Example sample_board :
  fetchBoard sample_draws =
  Some (mkGame [[true; true; true]; [true; false; true]; [true; true; true]] 13, []).
Proof. vm_compute. reflexivity. Qed.

Lemma generateRandomBoard_wf_witness :
  Forall random_ok sample_draws /\
  board_shape BOARD_SIZE [[true; true; true]; [true; false; true]; [true; true; true]] /\
  MIN_MINES <= count_mines [[true; true; true]; [true; false; true]; [true; true; true]] <= MAX_MINES.
Proof.
  assert (Forall random_ok sample_draws) as Hok
    by (repeat constructor; unfold random_ok, cell_draw; lia).
  destruct (generateRandomBoard_wf sample_draws
    [[true; true; true]; [true; false; true]; [true; true; true]] [2 ^ 52] Hok
    ltac:(vm_compute; reflexivity)) as (? & ? & ?).
  split; [exact Hok | split; assumption].
Defined.

Lemma fetchBoard_wf_witness :
  Forall random_ok sample_draws /\
  game_wf (mkGame [[true; true; true]; [true; false; true]; [true; true; true]] 13).
Proof.
  assert (Forall random_ok sample_draws) as Hok
    by (repeat constructor; unfold random_ok, cell_draw; lia).
  split; [exact Hok|].
  exact (fetchBoard_wf sample_draws _ [] Hok sample_board).
Defined.

Lemma fetchBoard_total_witness :
  random_ok 0 /\
  Z.min MAX_MINES (board_cells - 1) <=
    Z.of_nat (reachable_cells board_cells [] [cell_draw 0; cell_draw 5; cell_draw 5; cell_draw 2; cell_draw 8]) /\
  exists g rest, fetchBoard (0 :: [cell_draw 0; cell_draw 5; cell_draw 5; cell_draw 2; cell_draw 8] ++ 0 :: []) = Some (g, rest).
Proof.
  assert (random_ok 0) as Hr by (unfold random_ok; lia).
  assert (Z.min MAX_MINES (board_cells - 1) <=
    Z.of_nat (reachable_cells board_cells [] [cell_draw 0; cell_draw 5; cell_draw 5; cell_draw 2; cell_draw 8]))
    as Hreach by (vm_compute; discriminate).
  split; [exact Hr | split; [exact Hreach|]].
  exact (fetchBoard_total 0 _ 0 [] Hr Hreach).
Defined.

Lemma place_mines_layout_witness :
  Forall (fun p => 0 <= p < board_cells) [4; 0; 4] /\
  fold_left (place_mine BOARD_SIZE) [4; 0; 4] (initial_board BOARD_SIZE) =
    mine_layout BOARD_SIZE [4; 0; 4].
Proof.
  assert (Forall (fun p => 0 <= p < board_cells) [4; 0; 4]) as H
    by (unfold board_cells, BOARD_SIZE; repeat constructor; lia).
  split; [exact H | exact (place_mines_layout _ H)].
Defined.

End GameApi.
