(* ===== verification/Board.v ===== *)
(** * Board: the board helpers of [src/src/hooks/useGame.ts].

  [createGameBoard] turns the provider's flags into cells, [revealAllCells]
  ends a round, and [reveal_at] is the [prev.board.map(...)] of [flipCell]
  that reveals one position.  [board_get] is the JavaScript read
  [board[row][col]]: an index outside the arrays reads [undefined], modelled
  as [None].

  The theorems show that none of these ever changes the win/loss layout of a
  board (the spec's "layout fixed before any player action") or its shape,
  and that revealing is monotone. *)

From Stdlib Require Import ZArith Lia Ascii.
From stdpp Require Import base list decidable strings pretty.
From S2P Require Import Prelude Config.

Open Scope Z_scope.

Module Board.

(** [`cell-${rowIndex}-${colIndex}`]. *)
Definition cell_id (rowIndex colIndex : nat) : string :=
  "cell-" +:+ pretty rowIndex +:+ "-" +:+ pretty colIndex.

(** [createGameBoard(apiBoard)]. *)
Definition createGameBoard (apiBoard : list (list bool)) : list (list Cell) :=
  imap (fun rowIndex cells =>
    imap (fun colIndex w => mkCell w false (cell_id rowIndex colIndex)) cells) apiBoard.

(** [{ ...cell, isRevealed: true }]. *)
Definition reveal_cell (cell : Cell) : Cell :=
  mkCell (isWinning cell) true (id cell).

(** [revealAllCells(board)]. *)
Definition revealAllCells (b : list (list Cell)) : list (list Cell) :=
  (fun cells : list Cell => reveal_cell <$> cells) <$> b.

(** The [newBoard] of [flipCell]: the cell whose indices equal
    [position.row] and [position.col] is revealed, the others are kept. *)
Definition reveal_at (b : list (list Cell)) (position : CellPosition) : list (list Cell) :=
  imap (fun rowIndex cells =>
    imap (fun colIndex cell =>
      if bool_decide (Z.of_nat rowIndex = row position) &&
         bool_decide (Z.of_nat colIndex = col position)
      then reveal_cell cell else cell) cells) b.

(** [arr[i]] for an integer [i]: [undefined] (here [None]) off the array. *)
Definition js_index {A} (l : list A) (i : Z) : option A :=
  if 0 <=? i then l !! Z.to_nat i else None.

(** [board[position.row][position.col]]. *)
Definition board_get (b : list (list Cell)) (position : CellPosition) : option Cell :=
  cells ← js_index b (row position); js_index cells (col position).

(** The win/loss layout of a board, and its revealed flags. *)
Definition layout (b : list (list Cell)) : list (list bool) :=
  (fun cells : list Cell => isWinning <$> cells) <$> b.

(** Every cell revealed. *)
Definition all_revealed (b : list (list Cell)) : Prop :=
  Forall (Forall (fun cell => isRevealed cell = true)) b.

(** [b'] has every revealed cell of [b] revealed, at the same place. *)
Definition reveal_le (b b' : list (list Cell)) : Prop :=
  Forall2 (Forall2 (fun c c' => isWinning c' = isWinning c /\ id c' = id c /\
                                (isRevealed c = true -> isRevealed c' = true))) b b'.

(** ** Cell ids *)

(** Whether the character [a] occurs in [s]. *)
Fixpoint str_has (a : ascii) (s : string) : bool :=
  match s with
  | EmptyString => false
  | String b s' => bool_decide (a = b) || str_has a s'
  end.

(** Every cell carries the id [createGameBoard] gives its position. *)
Definition ids_ok (b : list (list Cell)) : Prop :=
  forall (r c : nat) cells cell, b !! r = Some cells -> cells !! c = Some cell ->
  id cell = cell_id r c.

(** ** Lemmas *)

(** Equality of two boards, row by row and cell by cell. *)
Ltac list_ext :=
  let i := fresh "i" in
  apply list_eq; intros i; rewrite ?list_lookup_fmap, ?list_lookup_imap;
  match goal with |- context [?l !! i] => destruct (l !! i) end; simpl.

Ltac board_ext := list_ext; [f_equal; list_ext | done].

Lemma layout_createGameBoard a : layout (createGameBoard a) = a.
Proof. unfold layout, createGameBoard. board_ext; done. Qed.

Lemma layout_revealAllCells b : layout (revealAllCells b) = layout b.
Proof. unfold layout, revealAllCells. board_ext; done. Qed.

Lemma layout_reveal_at b p : layout (reveal_at b p) = layout b.
Proof. unfold layout, reveal_at. board_ext; [by case_match | done]. Qed.

Lemma revealAllCells_all b : all_revealed (revealAllCells b).
Proof.
  unfold all_revealed, revealAllCells. apply Forall_fmap, list.Forall_forall.
  intros cells _. apply Forall_fmap, list.Forall_forall. done.
Qed.

(** [reveal_le] checked index by index. *)
Ltac reveal_le_ext :=
  unfold reveal_le; apply Forall2_lookup; intros ?;
  rewrite ?list_lookup_fmap, ?list_lookup_imap;
  match goal with |- context [?b !! ?r] => destruct (b !! r) as [cells|] end;
  constructor; apply Forall2_lookup; intros ?;
  rewrite ?list_lookup_fmap, ?list_lookup_imap;
  match goal with |- context [?cs !! ?c] => destruct (cs !! c) as [cell|] end;
  constructor.

Lemma reveal_le_refl b : reveal_le b b.
Proof. reveal_le_ext. auto. Qed.

Lemma reveal_le_revealAllCells b : reveal_le b (revealAllCells b).
Proof. unfold revealAllCells. reveal_le_ext. simpl. auto. Qed.

Lemma reveal_le_reveal_at b p : reveal_le b (reveal_at b p).
Proof. unfold reveal_at. reveal_le_ext. case_match; simpl; auto. Qed.

(** Reading a position after revealing one: the same cell, revealed exactly
    when the two positions are equal. *)
Lemma board_get_reveal_at b p q :
  board_get (reveal_at b p) q =
    (fun cell => if bool_decide (q = p) then reveal_cell cell else cell) <$> board_get b q.
Proof.
  destruct p as [pr pc], q as [qr qc]. unfold board_get, js_index, reveal_at. simpl.
  destruct (Z.leb_spec 0 qr); [|done]. rewrite list_lookup_imap.
  destruct (b !! Z.to_nat qr) as [cells|]; simpl; [|done].
  destruct (Z.leb_spec 0 qc); [|done]. rewrite list_lookup_imap.
  destruct (cells !! Z.to_nat qc) as [cell|]; simpl; [|done]. f_equal.
  rewrite !Z2Nat.id by lia.
  repeat case_bool_decide; simpl; congruence.
Qed.

Lemma board_get_reveal_at_same b p cell :
  board_get b p = Some cell -> board_get (reveal_at b p) p = Some (reveal_cell cell).
Proof. intros H. rewrite board_get_reveal_at, H. simpl. by rewrite bool_decide_eq_true_2. Qed.

Lemma board_get_reveal_at_other b p q :
  q <> p -> board_get (reveal_at b p) q = board_get b q.
Proof.
  intros Hne. rewrite board_get_reveal_at. destruct (board_get b q); simpl; [|done].
  by rewrite bool_decide_eq_false_2.
Qed.

(** A fresh board has no revealed cell. *)
Lemma createGameBoard_unrevealed a :
  Forall (Forall (fun cell => isRevealed cell = false)) (createGameBoard a).
Proof.
  unfold createGameBoard. apply list.Forall_forall. intros cells
    (r & row0 & -> & _)%elem_of_lookup_imap_1.
  apply list.Forall_forall. intros cell (c & w & -> & _)%elem_of_lookup_imap_1. done.
Qed.

(** Revealing a cell the board has is revealing it in its row. *)
Lemma reveal_at_alter b p cell :
  board_get b p = Some cell ->
  reveal_at b p =
    alter (fun cells => <[Z.to_nat (col p) := reveal_cell cell]> cells) (Z.to_nat (row p)) b.
Proof.
  destruct p as [r c]. unfold board_get, js_index, reveal_at. simpl.
  destruct (Z.leb_spec 0 r); [|done]. destruct (b !! Z.to_nat r) as [cells|] eqn:Hrow; [|done].
  simpl. destruct (Z.leb_spec 0 c); [|done]. intros Hcell.
  apply list_eq. intros i. rewrite list_lookup_imap.
  destruct (decide (i = Z.to_nat r)) as [->|Hi].
  - rewrite list_lookup_alter, Hrow. simpl. case_decide; [|congruence]. f_equal.
    apply list_eq. intros j. rewrite list_lookup_imap.
    destruct (decide (j = Z.to_nat c)) as [->|Hj].
    + rewrite list_lookup_insert_eq by (eapply lookup_lt_Some; eauto).
      rewrite Hcell. simpl. rewrite !Z2Nat.id by lia. by rewrite !bool_decide_eq_true_2.
    + rewrite list_lookup_insert_ne by done. destruct (cells !! j); simpl; [|done].
      rewrite (bool_decide_eq_false_2 (Z.of_nat j = c)) by lia. by rewrite andb_false_r.
  - rewrite list_lookup_alter_ne by done. destruct (b !! i) as [cells'|]; simpl; [|done].
    f_equal. apply list_eq. intros j. rewrite list_lookup_imap.
    destruct (cells' !! j); simpl; [|done]. by rewrite bool_decide_eq_false_2 by lia.
Qed.

(** *** Cell ids are injective *)

Lemma str_app_assoc s t u : (s +:+ t) +:+ u = s +:+ t +:+ u.
Proof. induction s as [|b s IH]; [done | exact (f_equal (String b) IH)]. Qed.

Lemma str_app_nil_r s : s +:+ "" = s.
Proof. induction s as [|b s IH]; [done | exact (f_equal (String b) IH)]. Qed.

Lemma str_app_inv_l s t t' : s +:+ t = s +:+ t' -> t = t'.
Proof. induction s as [|b s IH]; [done|]. intros Heq. injection Heq. apply IH. Qed.

Lemma str_has_append a s t : str_has a (s +:+ t) = str_has a s || str_has a t.
Proof.
  induction s as [|b s IH]; [done|]. change (String b s +:+ t) with (String b (s +:+ t)).
  cbn [str_has]. by rewrite IH, orb_assoc.
Qed.

(** A separator that occurs in neither prefix splits a string uniquely. *)
Lemma append_sep_inj a s1 s2 t1 t2 :
  str_has a s1 = false -> str_has a s2 = false ->
  s1 +:+ String a t1 = s2 +:+ String a t2 -> s1 = s2 /\ t1 = t2.
Proof.
  revert s2. induction s1 as [|b s1 IH]; intros [|b' s2]; simpl; intros H1 H2 Heq.
  - by injection Heq.
  - injection Heq as -> _. by rewrite bool_decide_eq_true_2 in H2.
  - injection Heq as <- _. by rewrite bool_decide_eq_true_2 in H1.
  - injection Heq as -> Heq. apply orb_false_elim in H1 as [_ H1], H2 as [_ H2].
    destruct (IH s2 H1 H2 Heq) as [-> ->]. done.
Qed.

(** The decimal digits [pretty] writes contain no dash. *)
Lemma pretty_N_go_digits x s :
  exists d, pretty_N_go x s = d +:+ s /\ str_has "-" d = false.
Proof.
  revert s. induction x as [x IH] using (well_founded_induction N.lt_wf_0). intros s.
  destruct (decide (0 < x)%N) as [Hx|Hx].
  - rewrite pretty_N_go_step by done.
    destruct (IH (x `div` 10)%N (N.div_lt x 10 Hx eq_refl) (String (pretty_N_char (x `mod` 10)) s))
      as (d & -> & Hd).
    exists (d +:+ String (pretty_N_char (x `mod` 10)) EmptyString). split.
    + by rewrite str_app_assoc.
    + rewrite str_has_append, Hd. simpl. rewrite orb_false_r.
      apply bool_decide_eq_false_2. unfold pretty_N_char. by repeat case_match.
  - assert (x = 0%N) as -> by lia. by exists EmptyString.
Qed.

Lemma pretty_nat_no_dash (n : nat) : str_has "-" (pretty n) = false.
Proof.
  change (pretty n) with (pretty (N.of_nat n)). unfold pretty, pretty_N. case_decide; [done|].
  destruct (pretty_N_go_digits (N.of_nat n) "") as (d & -> & Hd). by rewrite str_app_nil_r.
Qed.

(** Two positions never share an id. *)
Lemma cell_id_inj r c r' c' : cell_id r c = cell_id r' c' -> r = r' /\ c = c'.
Proof.
  unfold cell_id. intros Heq. apply str_app_inv_l in Heq.
  apply (append_sep_inj "-") in Heq as [Hr Hc]; [|apply pretty_nat_no_dash..].
  split; by apply (inj pretty).
Qed.

(** *** Every board operation keeps the ids of the positions *)

Lemma ids_ok_nil : ids_ok [].
Proof. intros r c cells cell Hr. by rewrite lookup_nil in Hr. Qed.

Lemma ids_ok_createGameBoard a : ids_ok (createGameBoard a).
Proof.
  intros r c cells cell. unfold createGameBoard. rewrite list_lookup_imap.
  destruct (a !! r) as [ws|]; intros [= <-]. rewrite list_lookup_imap.
  destruct (ws !! c); by intros [= <-].
Qed.

Lemma ids_ok_reveal_at b p : ids_ok b -> ids_ok (reveal_at b p).
Proof.
  intros Hb r c cells cell. unfold reveal_at. rewrite list_lookup_imap.
  destruct (b !! r) as [cells0|] eqn:Hr; intros [= <-]. rewrite list_lookup_imap.
  destruct (cells0 !! c) as [cell0|] eqn:Hc; intros [= <-].
  rewrite <- (Hb r c cells0 cell0 Hr Hc). by case_match.
Qed.

Lemma ids_ok_revealAllCells b : ids_ok b -> ids_ok (revealAllCells b).
Proof.
  intros Hb r c cells cell. unfold revealAllCells. rewrite list_lookup_fmap.
  destruct (b !! r) as [cells0|] eqn:Hr; intros [= <-]. rewrite list_lookup_fmap.
  destruct (cells0 !! c) as [cell0|] eqn:Hc; intros [= <-]. exact (Hb r c cells0 cell0 Hr Hc).
Qed.

End Board.
