(* ===== verification/UseGame.v ===== *)
(** * UseGame: the session engine, the React hook [useGame] of
    [src/src/hooks/useGame.ts].

  The hook keeps three pieces of React state: [gameState], [showCashOutModal]
  and [sessionStats]; [HookState] holds the three.  Each exported function
  is one Definition from the state before to the state after, its
  [setGameState(prev => ...)] updater written out with the object spread
  [{ ...prev, f: v }] as a full record.  The [setSessionStats] calls made
  inside an updater are applied in the same step.

  [initializeGame] is [async]: its first updater runs when it is called
  ([initializeGame_start]), its second when [fetchBoard()] settles
  ([initializeGame_settle], with [None] for a rejected promise); Session
  puts other operations between the two.  [flipCell] can throw: reading
  [prev.board[row][col]] off the board makes [cell] [undefined] and
  [cell.isRevealed] raises a [TypeError], modelled by the [inl] branch. *)

From Stdlib Require Import ZArith Lia.
From stdpp Require Import base list decidable strings.
From S2P Require Import Prelude Config Provider Board.

Open Scope Z_scope.
Import GAME_CONFIG.

Module UseGame.
Import Board.

Record HookState := mkHook {
  gameState : GameState;
  showCashOutModal : bool;
  sessionStats : SessionStats
}.

(** The [useState] initial values (and the values [resetGame] writes). *)
Definition initialGameState : GameState :=
  mkGameState [] 0 IDLE BASE_AMOUNT_PER_WIN false STARTING_BALANCE DEFAULT_BET 0.

Definition initialStats : SessionStats := mkStats 0 0 0 0 0.

Definition initialHook : HookState := mkHook initialGameState false initialStats.

(** [canAffordBet = sessionBalance >= currentBet]. *)
Definition canAffordBet (g : GameState) : bool :=
  bool_decide (currentBet g <= sessionBalance g).

(** [canCashOut = gameStatus === PLAYING && roundWinnings > 0]. *)
Definition canCashOut (g : GameState) : bool :=
  status_is PLAYING g && bool_decide (0 < roundWinnings g).

(** [setBetAmount(amount)]. *)
Definition setBetAmount (amount : Z) (prev : GameState) : GameState :=
  let clampedAmount :=
    Z.max MIN_BET (Z.min MAX_BET (Z.min amount (sessionBalance prev))) in
  mkGameState (board prev) (currentCoins prev) (gameStatus prev) (amountPerWin prev)
    (isLoading prev) (sessionBalance prev) clampedAmount (roundWinnings prev).

(** The first updater of [initializeGame]. *)
Definition initializeGame_start (prev : GameState) : GameState :=
  if sessionBalance prev <? currentBet prev then
    mkGameState (board prev) (currentCoins prev) (gameStatus prev) (amountPerWin prev)
      (isLoading prev) STARTING_BALANCE DEFAULT_BET (roundWinnings prev)
  else
    mkGameState (board prev) 0 IDLE (amountPerWin prev)
      true (sessionBalance prev) (currentBet prev) 0.

(** The updater after [await fetchBoard()] resolves with [gameData]. *)
Definition initializeGame_success (gameData : Game) (prev : GameState) : GameState :=
  let newBoard := createGameBoard (game_board gameData) in
  mkGameState newBoard 0 PLAYING (game_amountPerWin gameData)
    false (sessionBalance prev - currentBet prev) (currentBet prev) 0.

(** The updater of the [catch] branch. *)
Definition initializeGame_failure (prev : GameState) : GameState :=
  mkGameState (board prev) (currentCoins prev) IDLE (amountPerWin prev)
    false (sessionBalance prev) (currentBet prev) (roundWinnings prev).

Definition initializeGame_settle (result : option Game) (prev : GameState) : GameState :=
  match result with
  | Some gameData => initializeGame_success gameData prev
  | None => initializeGame_failure prev
  end.

Inductive JsError := TypeError.

(** [flipCell(position)]: the updater and the stats it updates. *)
Definition flipCell (position : CellPosition) (h : HookState) : JsError + HookState :=
  let prev := gameState h in
  if negb (status_is PLAYING prev) then inr h else
  match board_get (board prev) position with
  | None => inl TypeError
  | Some cell =>
      if isRevealed cell then inr h else
      let newBoard := reveal_at (board prev) position in
      let st := sessionStats h in
      if isWinning cell then
        let winAmount := amountPerWin prev in
        let newRoundWinnings := roundWinnings prev + winAmount in
        inr (mkHook
          (mkGameState newBoard (currentCoins prev + winAmount) (gameStatus prev)
             (amountPerWin prev) (isLoading prev) (sessionBalance prev)
             (currentBet prev) newRoundWinnings)
          (showCashOutModal h)
          (mkStats (totalCashedOut st) (gamesPlayed st) (totalWins st + 1)
             (biggestWin st) (currentStreak st)))
      else
        inr (mkHook
          (mkGameState (revealAllCells newBoard) 0 LOST (amountPerWin prev)
             (isLoading prev) (sessionBalance prev) (currentBet prev) 0)
          (showCashOutModal h)
          (mkStats (totalCashedOut st) (gamesPlayed st + 1) (totalWins st)
             (biggestWin st) 0))
  end.

(** [initiateCashOut()]: opens the confirmation when [canCashOut]. *)
Definition initiateCashOut (h : HookState) : HookState :=
  if canCashOut (gameState h) then mkHook (gameState h) true (sessionStats h) else h.

(** [confirmCashOut()]. *)
Definition confirmCashOut (h : HookState) : HookState :=
  let prev := gameState h in
  let st := sessionStats h in
  let totalWin := currentBet prev + roundWinnings prev in
  mkHook
    (mkGameState (revealAllCells (board prev)) (currentCoins prev) CASHED_OUT
       (amountPerWin prev) (isLoading prev) (sessionBalance prev + totalWin)
       (currentBet prev) (roundWinnings prev))
    false
    (mkStats (totalCashedOut st + totalWin) (gamesPlayed st + 1) (totalWins st)
       (Z.max (biggestWin st) totalWin) (currentStreak st + 1)).

(** [cancelCashOut()]. *)
Definition cancelCashOut (h : HookState) : HookState :=
  mkHook (gameState h) false (sessionStats h).

(** [resetGame()]: game state and stats back to their initial values; the
    modal flag is not touched. *)
Definition resetGame (h : HookState) : HookState :=
  mkHook initialGameState (showCashOutModal h) initialStats.

(** The object [useGame] returns (its [useMemo]): the state and the two
    derived flags.  Its callbacks are the operations above, which [App]
    passes to the components (the events of [Session.Event]). *)
Record UseGameResult := mkUseGameResult {
  r_gameState : GameState;
  r_showCashOutModal : bool;
  r_sessionStats : SessionStats;
  r_canAffordBet : bool;
  r_canCashOut : bool
}.

Definition useGame_result (h : HookState) : UseGameResult :=
  mkUseGameResult (gameState h) (showCashOutModal h) (sessionStats h)
    (canAffordBet (gameState h)) (canCashOut (gameState h)).

(** Lifting a [GameState] updater to the hook state. *)
Definition on_game (f : GameState -> GameState) (h : HookState) : HookState :=
  mkHook (f (gameState h)) (showCashOutModal h) (sessionStats h).

(** A board with a mine at row 0, column 1 and a reward of 12 per cell. *)
Definition scenario_game : Game :=
  mkGame [[true; false; true]; [true; true; true]; [true; true; true]] 12.

(** Starting a round from the initial session: [initializeGame] with the
    board answered. *)
Definition start_round (result : option Game) (h : HookState) : HookState :=
  on_game (initializeGame_settle result) (on_game initializeGame_start h).

(** ** Bet sizing *)

(** C11: The clamped bet lies in [[MIN_BET, MAX_BET]], and below the balance
    whenever the balance reaches [MIN_BET]. *)
Theorem setBetAmount_range amount g :
  MIN_BET <= currentBet (setBetAmount amount g) <= MAX_BET /\
  (MIN_BET <= sessionBalance g -> currentBet (setBetAmount amount g) <= sessionBalance g).
Proof. unfold setBetAmount, MIN_BET, MAX_BET. simpl. lia. Qed.

(** C10: The spec's [setBet(setBet(x)) == setBet(x)]: feeding the clamped bet back
    changes nothing, and setting the same amount twice is setting it once. *)
Theorem setBetAmount_idempotent amount g :
  setBetAmount (currentBet (setBetAmount amount g)) (setBetAmount amount g) =
    setBetAmount amount g /\
  setBetAmount amount (setBetAmount amount g) = setBetAmount amount g.
Proof.
  unfold setBetAmount, MIN_BET, MAX_BET. simpl. split; f_equal; lia.
Qed.

(** C17: With a balance under [MIN_BET] the clamp raises the bet above the
    balance: [Math.max(MIN_BET, ...)] is applied after the balance cap. *)
Theorem setBetAmount_exceeds_balance amount g :
  sessionBalance g < MIN_BET ->
  currentBet (setBetAmount amount g) = MIN_BET /\
  sessionBalance g < currentBet (setBetAmount amount g).
Proof. unfold setBetAmount, MIN_BET, MAX_BET. simpl. lia. Qed.

(** ** Revealing a cell *)

Section Flip.
Variable h : HookState.
Variable p : CellPosition.
Hypothesis Hplaying : gameStatus (gameState h) = PLAYING.

Lemma flipCell_playing :
  flipCell p h =
    match board_get (board (gameState h)) p with
    | None => inl TypeError
    | Some cell =>
        if isRevealed cell then inr h else
        if isWinning cell then
          inr (mkHook
            (mkGameState (reveal_at (board (gameState h)) p)
               (currentCoins (gameState h) + amountPerWin (gameState h)) PLAYING
               (amountPerWin (gameState h)) (isLoading (gameState h))
               (sessionBalance (gameState h)) (currentBet (gameState h))
               (roundWinnings (gameState h) + amountPerWin (gameState h)))
            (showCashOutModal h)
            (mkStats (totalCashedOut (sessionStats h)) (gamesPlayed (sessionStats h))
               (totalWins (sessionStats h) + 1) (biggestWin (sessionStats h))
               (currentStreak (sessionStats h))))
        else
          inr (mkHook
            (mkGameState (revealAllCells (reveal_at (board (gameState h)) p)) 0 LOST
               (amountPerWin (gameState h)) (isLoading (gameState h))
               (sessionBalance (gameState h)) (currentBet (gameState h)) 0)
            (showCashOutModal h)
            (mkStats (totalCashedOut (sessionStats h)) (gamesPlayed (sessionStats h) + 1)
               (totalWins (sessionStats h)) (biggestWin (sessionStats h)) 0))
    end.
Proof.
  unfold flipCell, status_is. rewrite Hplaying, bool_decide_eq_true_2 by done. simpl.
  destruct (board_get _ p) as [cell|]; [|done].
  destruct (isRevealed cell), (isWinning cell); done.
Qed.
End Flip.

(** [flipCell] never moves money, never touches the loading flag or the
    modal, and leaves the status alone or sets it to [LOST]. *)
Lemma flipCell_frame p h h' :
  flipCell p h = inr h' ->
  sessionBalance (gameState h') = sessionBalance (gameState h) /\
  currentBet (gameState h') = currentBet (gameState h) /\
  isLoading (gameState h') = isLoading (gameState h) /\
  showCashOutModal h' = showCashOutModal h /\
  (gameStatus (gameState h') = gameStatus (gameState h) \/ gameStatus (gameState h') = LOST).
Proof.
  unfold flipCell. destruct (negb _); [intros [= <-]; repeat split; auto|].
  destruct (board_get _ p) as [cell|]; [|discriminate].
  destruct (isRevealed cell), (isWinning cell); intros [= <-]; simpl; repeat split; auto.
Qed.

(** [flipCell] throws only on a position off the board. *)
Lemma flipCell_found p h cl :
  board_get (board (gameState h)) p = Some cl -> exists h', flipCell p h = inr h'.
Proof.
  intros Hg. unfold flipCell. destruct (negb _); [by eexists|]. rewrite Hg.
  destruct (isRevealed cl), (isWinning cl); by eexists.
Qed.

(** C8: Revealing an already revealed cell changes nothing, whatever the status. *)
Theorem flipCell_revealed_noop h p cell :
  board_get (board (gameState h)) p = Some cell -> isRevealed cell = true ->
  flipCell p h = inr h.
Proof.
  intros Hget Hrev. unfold flipCell. rewrite Hget, Hrev. by destruct (negb _).
Qed.

(** Outside [PLAYING], [flipCell] returns the state unchanged. *)
Theorem flipCell_not_playing h p :
  gameStatus (gameState h) <> PLAYING -> flipCell p h = inr h.
Proof.
  intros Hst. unfold flipCell, status_is. by rewrite bool_decide_eq_false_2.
Qed.

(** C18: A position off the board while playing throws: [board[row]] or
    [board[row][col]] is [undefined] and the code reads [isRevealed] of it. *)
Theorem flipCell_out_of_bounds h p :
  gameStatus (gameState h) = PLAYING -> board_get (board (gameState h)) p = None ->
  flipCell p h = inl TypeError.
Proof. intros Hst Hget. rewrite flipCell_playing by done. by rewrite Hget. Qed.

(** C6: A hidden winning cell: the cell is revealed, [roundWinnings] and
    [currentCoins] grow by [amountPerWin], the balance, bet and status stay,
    the layout stays, and one more win is counted. *)
Theorem flipCell_win h p cell :
  gameStatus (gameState h) = PLAYING ->
  board_get (board (gameState h)) p = Some cell ->
  isRevealed cell = false -> isWinning cell = true ->
  exists h', flipCell p h = inr h' /\
    roundWinnings (gameState h') = roundWinnings (gameState h) + amountPerWin (gameState h) /\
    currentCoins (gameState h') = currentCoins (gameState h) + amountPerWin (gameState h) /\
    sessionBalance (gameState h') = sessionBalance (gameState h) /\
    currentBet (gameState h') = currentBet (gameState h) /\
    gameStatus (gameState h') = PLAYING /\
    board_get (board (gameState h')) p = Some (reveal_cell cell) /\
    layout (board (gameState h')) = layout (board (gameState h)) /\
    totalWins (sessionStats h') = totalWins (sessionStats h) + 1.
Proof.
  intros Hst Hget Hrev Hwin. rewrite flipCell_playing, Hget, Hrev, Hwin by done.
  eexists; split; [reflexivity|]. simpl.
  rewrite board_get_reveal_at_same with (cell := cell), layout_reveal_at by done.
  repeat split.
Qed.

(** C5: A mine: the round is lost, every cell is revealed, [roundWinnings] and
    [currentCoins] drop to 0, the balance keeps the bet deducted, one more
    game is counted and the streak restarts. *)
Theorem flipCell_mine h p cell :
  gameStatus (gameState h) = PLAYING ->
  board_get (board (gameState h)) p = Some cell ->
  isRevealed cell = false -> isWinning cell = false ->
  exists h', flipCell p h = inr h' /\
    gameStatus (gameState h') = LOST /\
    roundWinnings (gameState h') = 0 /\ currentCoins (gameState h') = 0 /\
    all_revealed (board (gameState h')) /\
    layout (board (gameState h')) = layout (board (gameState h)) /\
    sessionBalance (gameState h') = sessionBalance (gameState h) /\
    gamesPlayed (sessionStats h') = gamesPlayed (sessionStats h) + 1 /\
    currentStreak (sessionStats h') = 0.
Proof.
  intros Hst Hget Hrev Hwin. rewrite flipCell_playing, Hget, Hrev, Hwin by done.
  eexists; split; [reflexivity|]. simpl.
  rewrite layout_revealAllCells, layout_reveal_at.
  repeat split; apply revealAllCells_all.
Qed.

(** ** Cash-out *)

(** C7: [confirmCashOut] banks the bet and the round's winnings, reveals the
    board, ends the round as [CASHED_OUT], closes the modal and updates the
    cash-out statistics, whatever state it is called in. *)
Theorem confirmCashOut_spec h :
  let h' := confirmCashOut h in
  sessionBalance (gameState h') =
    sessionBalance (gameState h) + currentBet (gameState h) + roundWinnings (gameState h) /\
  gameStatus (gameState h') = CASHED_OUT /\
  all_revealed (board (gameState h')) /\
  layout (board (gameState h')) = layout (board (gameState h)) /\
  showCashOutModal h' = false /\
  totalCashedOut (sessionStats h') =
    totalCashedOut (sessionStats h) + currentBet (gameState h) + roundWinnings (gameState h) /\
  currentStreak (sessionStats h') = currentStreak (sessionStats h) + 1.
Proof.
  simpl. rewrite layout_revealAllCells. repeat split; try lia. apply revealAllCells_all.
Qed.

(** ** Starting a round *)

(** C4: An affordable start followed by a board: the bet is deducted once, the
    round is [PLAYING] on the provider's layout with no cell revealed and
    nothing won yet. *)
Theorem initializeGame_round g gameData :
  currentBet g <= sessionBalance g ->
  let g' := initializeGame_settle (Some gameData) (initializeGame_start g) in
  sessionBalance g' = sessionBalance g - currentBet g /\
  currentBet g' = currentBet g /\
  gameStatus g' = PLAYING /\ isLoading g' = false /\
  roundWinnings g' = 0 /\ currentCoins g' = 0 /\
  amountPerWin g' = game_amountPerWin gameData /\
  layout (board g') = game_board gameData /\
  Forall (Forall (fun cell => isRevealed cell = false)) (board g').
Proof.
  intros Hafford. unfold initializeGame_start.
  destruct (Z.ltb_spec (sessionBalance g) (currentBet g)); [lia|]. simpl.
  rewrite layout_createGameBoard. repeat split. apply createGameBoard_unrevealed.
Qed.

(** C12: A provider failure after an affordable start leaves balance and bet
    untouched and the session [IDLE], no longer loading. *)
Theorem initializeGame_provider_failure g :
  currentBet g <= sessionBalance g ->
  let g' := initializeGame_settle None (initializeGame_start g) in
  sessionBalance g' = sessionBalance g /\ currentBet g' = currentBet g /\
  gameStatus g' = IDLE /\ isLoading g' = false.
Proof.
  intros Hafford. unfold initializeGame_start.
  destruct (Z.ltb_spec (sessionBalance g) (currentBet g)); [lia|]. done.
Qed.

(** C16: An unaffordable start does not stop the round: the balance and bet are
    reset to their starting values, and when the board arrives the round
    starts on them, [PLAYING] with [STARTING_BALANCE - DEFAULT_BET]. *)
Theorem initializeGame_broke_still_starts g gameData :
  sessionBalance g < currentBet g ->
  let g1 := initializeGame_start g in
  let g2 := initializeGame_settle (Some gameData) g1 in
  sessionBalance g1 = STARTING_BALANCE /\ currentBet g1 = DEFAULT_BET /\
  gameStatus g1 = gameStatus g /\ isLoading g1 = isLoading g /\
  gameStatus g2 = PLAYING /\ sessionBalance g2 = STARTING_BALANCE - DEFAULT_BET.
Proof.
  intros Hbroke. unfold initializeGame_start.
  destruct (Z.ltb_spec (sessionBalance g) (currentBet g)); [|lia]. done.
Qed.

(** ** The spec's scenarios *)

(** Spec scenario 1: bankroll 100, bet 25; start, reveal a winning cell
    (reward 12), confirm the cash-out: 75, then 12 won with 75 kept, then
    112 and [CASHED_OUT]. *)
Theorem scenario_start_win_cashout :
  let h1 := start_round (Some scenario_game) initialHook in
  sessionBalance (gameState h1) = 75 /\ gameStatus (gameState h1) = PLAYING /\
  exists h2, flipCell (mkPos 0 0) h1 = inr h2 /\
    roundWinnings (gameState h2) = 12 /\ sessionBalance (gameState h2) = 75 /\
    sessionBalance (gameState (confirmCashOut h2)) = 112 /\
    gameStatus (gameState (confirmCashOut h2)) = CASHED_OUT.
Proof. simpl. split; [done|]. split; [done|]. eexists; split; [reflexivity|]. done. Qed.

(** Spec scenario 2: bankroll 100, bet 25; start, reveal a mine: 75 (the bet
    is forfeited), nothing won, [LOST], every cell revealed. *)
Theorem scenario_start_mine :
  let h1 := start_round (Some scenario_game) initialHook in
  exists h2, flipCell (mkPos 0 1) h1 = inr h2 /\
    sessionBalance (gameState h2) = 75 /\ roundWinnings (gameState h2) = 0 /\
    gameStatus (gameState h2) = LOST /\ all_revealed (board (gameState h2)).
Proof.
  simpl. eexists; split; [reflexivity|]. split; [done|]. split; [done|]. split; [done|].
  vm_compute. repeat constructor.
Qed.

(** Spec scenario 3 as the code runs it: bankroll 5, bet 25; [startRound]
    resets bankroll and bet, but the pending [fetchBoard] still starts a
    round: [PLAYING] with 75, not [IDLE] with 100. *)
Theorem scenario_broke_start :
  let h0 := mkHook (mkGameState [] 0 IDLE BASE_AMOUNT_PER_WIN false 5 25 0) false initialStats in
  let h1 := on_game initializeGame_start h0 in
  let h2 := start_round (Some scenario_game) h0 in
  gameStatus (gameState h1) = IDLE /\ sessionBalance (gameState h1) = STARTING_BALANCE /\
  currentBet (gameState h1) = DEFAULT_BET /\
  gameStatus (gameState h2) = PLAYING /\ sessionBalance (gameState h2) = 75.
Proof. vm_compute. repeat split. Qed.

(** ** Witnesses: the theorems above at concrete states *)

Lemma setBetAmount_exceeds_balance_witness :
  sessionBalance (mkGameState [] 0 IDLE 10 false 5 25 0) < MIN_BET /\
  currentBet (setBetAmount 40 (mkGameState [] 0 IDLE 10 false 5 25 0)) = MIN_BET.
Proof.
  split; [vm_compute; reflexivity|].
  apply (setBetAmount_exceeds_balance 40 (mkGameState [] 0 IDLE 10 false 5 25 0)).
  vm_compute. reflexivity.
Defined.

Lemma flipCell_revealed_noop_witness :
  let hb := mkHook (mkGameState [[mkCell true true "a"%string]] 12 PLAYING 12 false 75 25 12)
              false initialStats in
  flipCell (mkPos 0 0) hb = inr hb.
Proof.
  intros hb. apply (flipCell_revealed_noop hb (mkPos 0 0) (mkCell true true "a"%string));
    reflexivity.
Defined.

Lemma flipCell_not_playing_witness : flipCell (mkPos 0 0) initialHook = inr initialHook.
Proof. apply flipCell_not_playing. discriminate. Defined.

Lemma flipCell_out_of_bounds_witness :
  flipCell (mkPos 3 0) (start_round (Some scenario_game) initialHook) = inl TypeError.
Proof. apply flipCell_out_of_bounds; vm_compute; reflexivity. Defined.

Lemma flipCell_win_witness :
  exists h', flipCell (mkPos 0 0) (start_round (Some scenario_game) initialHook) = inr h' /\
    roundWinnings (gameState h') = 12.
Proof.
  destruct (flipCell_win (start_round (Some scenario_game) initialHook) (mkPos 0 0)
    (mkCell true false (cell_id 0 0))) as (h' & Hf & Hw & _);
    [vm_compute; reflexivity .. |].
  exists h'. split; [exact Hf|]. rewrite Hw. vm_compute. reflexivity.
Defined.

Lemma flipCell_mine_witness :
  exists h', flipCell (mkPos 0 1) (start_round (Some scenario_game) initialHook) = inr h' /\
    gameStatus (gameState h') = LOST.
Proof.
  destruct (flipCell_mine (start_round (Some scenario_game) initialHook) (mkPos 0 1)
    (mkCell false false (cell_id 0 1))) as (h' & Hf & Hst & _);
    [vm_compute; reflexivity .. |].
  exists h'. split; assumption.
Defined.

Lemma initializeGame_round_witness :
  sessionBalance (initializeGame_settle (Some scenario_game)
    (initializeGame_start initialGameState)) = 75.
Proof.
  destruct (initializeGame_round initialGameState scenario_game) as [Hb _];
    [vm_compute; discriminate|].
  rewrite Hb. reflexivity.
Defined.

Lemma initializeGame_provider_failure_witness :
  gameStatus (initializeGame_settle None (initializeGame_start initialGameState)) = IDLE.
Proof.
  destruct (initializeGame_provider_failure initialGameState) as (_ & _ & Hst & _);
    [vm_compute; discriminate|].
  exact Hst.
Defined.

Lemma initializeGame_broke_still_starts_witness :
  gameStatus (initializeGame_settle (Some scenario_game)
    (initializeGame_start (mkGameState [] 0 IDLE 10 false 5 25 0))) = PLAYING.
Proof.
  destruct (initializeGame_broke_still_starts (mkGameState [] 0 IDLE 10 false 5 25 0)
    scenario_game) as (_ & _ & _ & _ & Hst & _); [vm_compute; reflexivity|].
  exact Hst.
Defined.

End UseGame.
