(* ===== verification/Session.v ===== *)
(** * Session: the hook's operations under the browser's interleavings.

  [useGame] hands its functions to the UI, which may call any of them at any
  time; [initializeGame] suspends at [await fetchBoard()], and
  [startNewRound] defers [initializeGame] by [setTimeout(..., 200)].  The
  system state [Sys] is the hook state with the number of [fetchBoard]
  promises not yet settled and of timers not yet fired.  [sys_step] runs one
  event: a call of an exported function, the settling of one pending
  request (with the board or with a rejection), or one timer firing.  The
  requests carry no data of their own (every pending continuation runs the
  same updater), so which one settles first does not matter.

  [reachable] closes the initial session under the events, with every board
  coming from a [BoardProvider] (the interface of Provider).  Its theorems:
  the invariants that hold whatever the interleaving, and the ones that need
  the spec's single-flight rule ("only one round-start may be in flight"),
  which the code does not enforce. *)

From Stdlib Require Import ZArith Lia.
From stdpp Require Import base list decidable.
From S2P Require Import Prelude Config Provider GameApi Board UseGame.

Open Scope Z_scope.
Import GAME_CONFIG.

Module Session.
Import Board UseGame.

(** The code's provider, [fetchBoard], meets the provider contract. *)
#[export] Instance gameApi_provider : BoardProvider := {|
  provide := GameApi.fetchBoard;
  provide_wf := GameApi.fetchBoard_wf
|}.

Record Sys := mkSys {
  hook : HookState;
  inflight : nat;
  timers : nat
}.

Inductive Event :=
| InitializeGame
| Settle (result : option Game)
| FlipCell (position : CellPosition)
| InitiateCashOut
| ConfirmCashOut
| CancelCashOut
| StartNewRound
| TimerFires
| SetBetAmount (amount : Z)
| ResetGame.

(** One event; [None] when it cannot happen (nothing pending) or when the
    handler throws. *)
Definition sys_step (e : Event) (s : Sys) : option Sys :=
  match e with
  | InitializeGame =>
      Some (mkSys (on_game initializeGame_start (hook s)) (S (inflight s)) (timers s))
  | Settle result =>
      match inflight s with
      | O => None
      | S n => Some (mkSys (on_game (initializeGame_settle result) (hook s)) n (timers s))
      end
  | FlipCell position =>
      match flipCell position (hook s) with
      | inl _ => None
      | inr h => Some (mkSys h (inflight s) (timers s))
      end
  | InitiateCashOut => Some (mkSys (initiateCashOut (hook s)) (inflight s) (timers s))
  | ConfirmCashOut => Some (mkSys (confirmCashOut (hook s)) (inflight s) (timers s))
  | CancelCashOut => Some (mkSys (cancelCashOut (hook s)) (inflight s) (timers s))
  | StartNewRound =>
      (* setShowCashOutModal(false); setTimeout(initializeGame, 200) *)
      Some (mkSys (cancelCashOut (hook s)) (inflight s) (S (timers s)))
  | TimerFires =>
      match timers s with
      | O => None
      | S n => Some (mkSys (on_game initializeGame_start (hook s)) (S (inflight s)) n)
      end
  | SetBetAmount amount => Some (mkSys (on_game (setBetAmount amount) (hook s)) (inflight s) (timers s))
  | ResetGame => Some (mkSys (resetGame (hook s)) (inflight s) (timers s))
  end.

Fixpoint run (es : list Event) (s : Sys) : option Sys :=
  match es with
  | [] => Some s
  | e :: es' => match sys_step e s with Some s' => run es' s' | None => None end
  end.

Definition initialSys : Sys := mkSys initialHook 0 0.

(** The spec's rule that one round-start at most is in flight. *)
Definition single_flight_ok (e : Event) (s : Sys) : Prop :=
  match e with
  | InitializeGame | StartNewRound => inflight s = 0%nat /\ timers s = 0%nat
  | _ => True
  end.

(** The board is empty or carries a well-formed provider layout. *)
Definition board_ok (b : list (list Cell)) : Prop :=
  layout b = [] \/
  (board_shape BOARD_SIZE (layout b) /\ MIN_MINES <= count_mines (layout b) <= MAX_MINES).

(** The bet stays in [[MIN_BET, MAX_BET]]; the coins shown ([currentCoins])
    are the round's winnings; the winnings and the reward are non-negative;
    the board is well formed, and a [PLAYING] round has a board. *)
Definition game_inv (g : GameState) : Prop :=
  MIN_BET <= currentBet g <= MAX_BET /\
  currentCoins g = roundWinnings g /\ 0 <= roundWinnings g /\ 0 <= amountPerWin g /\
  board_ok (board g) /\
  (gameStatus g = PLAYING -> layout (board g) <> []).

(** The balance is non-negative; while a request is in flight the bet is
    covered by the balance; at most one start is pending or in flight. *)
Definition sf_inv (s : Sys) : Prop :=
  0 <= sessionBalance (gameState (hook s)) /\
  (inflight s <> 0%nat -> currentBet (gameState (hook s)) <= sessionBalance (gameState (hook s))) /\
  (inflight s + timers s <= 1)%nat.

(** The board [fetchBoard] answers from [GameApi.sample_draws]: a mine in
    the centre, 13 per safe cell. *)
Definition sample_game : Game :=
  mkGame [[true; true; true]; [true; false; true]; [true; true; true]] 13.

Definition double_start : list Event :=
  [SetBetAmount 100; InitializeGame; InitializeGame;
   Settle (Some sample_game); Settle (Some sample_game)].

Definition cash_out_after_mine : list Event :=
  [InitializeGame; Settle (Some sample_game); FlipCell (mkPos 0 0);
   InitiateCashOut; FlipCell (mkPos 1 1); ConfirmCashOut].

Section Reach.
Context `{BP : BoardProvider}.

(** A board the provider can answer from genuine draws. *)
Definition provided (g : Game) : Prop :=
  exists ds ds', Forall random_ok ds /\ provide ds = Some (g, ds').

Definition event_ok (e : Event) : Prop :=
  match e with Settle (Some g) => provided g | _ => True end.

Inductive reachable : Sys -> Prop :=
| reach_init : reachable initialSys
| reach_step e s s' :
    reachable s -> event_ok e -> sys_step e s = Some s' -> reachable s'.

Inductive reachable_sf : Sys -> Prop :=
| reach_sf_init : reachable_sf initialSys
| reach_sf_step e s s' :
    reachable_sf s -> event_ok e -> single_flight_ok e s ->
    sys_step e s = Some s' -> reachable_sf s'.
End Reach.

(** ** The invariant of every interleaving *)

Lemma game_inv_initial : game_inv initialGameState.
Proof.
  unfold game_inv, initialGameState, MIN_BET, MAX_BET, DEFAULT_BET, BASE_AMOUNT_PER_WIN.
  simpl. repeat split; try lia; [by left | done].
Qed.

Lemma game_inv_setBetAmount a g : game_inv g -> game_inv (setBetAmount a g).
Proof.
  intros (_ & Hc & Hw & Ha & Hb & Hp).
  unfold game_inv, setBetAmount, MIN_BET, MAX_BET. simpl. repeat split; auto; lia.
Qed.

Lemma game_inv_start g : game_inv g -> game_inv (initializeGame_start g).
Proof.
  intros (Hbet & Hc & Hw & Ha & Hb & Hp). unfold initializeGame_start.
  destruct (Z.ltb_spec (sessionBalance g) (currentBet g));
    unfold game_inv, MIN_BET, MAX_BET, DEFAULT_BET in *; simpl;
    repeat split; auto; try lia; done.
Qed.

Lemma game_inv_settle r g :
  (forall gd, r = Some gd -> game_wf gd) -> game_inv g -> game_inv (initializeGame_settle r g).
Proof.
  intros Hwf (Hbet & Hc & Hw & Ha & Hb & Hp). destruct r as [gd|]; simpl.
  - destruct (Hwf gd eq_refl) as ((Hlen & Hrows) & Hmines & _ & Hamt).
    unfold game_inv, board_ok. simpl. rewrite layout_createGameBoard.
    unfold BASE_AMOUNT_PER_WIN in Hamt.
    split; [done|]. split; [done|]. split; [lia|]. split; [lia|].
    split; [right; split; [split|]; assumption|].
    intros _ Hnil. rewrite Hnil in Hlen. unfold BOARD_SIZE in Hlen. simpl in Hlen. lia.
  - unfold game_inv. simpl. split; [exact Hbet|]. repeat split; auto.
Qed.

Lemma game_inv_flip p h h' :
  game_inv (gameState h) -> flipCell p h = inr h' -> game_inv (gameState h').
Proof.
  intros Hinv Hflip.
  destruct (decide (gameStatus (gameState h) = PLAYING)) as [Hst|Hst];
    [|unfold flipCell, status_is in Hflip; rewrite bool_decide_eq_false_2 in Hflip by done;
      by injection Hflip as <-].
  rewrite flipCell_playing in Hflip by done.
  destruct (board_get _ p) as [cell|]; [|discriminate].
  destruct (isRevealed cell); [by injection Hflip as <-|].
  destruct Hinv as (Hbet & Hc & Hw & Ha & Hb & Hp). unfold board_ok in *.
  destruct (isWinning cell); injection Hflip as <-; unfold game_inv, board_ok; simpl;
    rewrite ?layout_revealAllCells, layout_reveal_at;
    (split; [exact Hbet|]); repeat split; auto; try lia; intros; discriminate.
Qed.

Lemma game_inv_confirm h : game_inv (gameState h) -> game_inv (gameState (confirmCashOut h)).
Proof.
  intros (Hbet & Hc & Hw & Ha & Hb & Hp). unfold game_inv, board_ok in *. simpl.
  rewrite layout_revealAllCells. split; [exact Hbet|]. repeat split; auto.
Qed.

Lemma game_inv_initiate h : game_inv (gameState h) -> game_inv (gameState (initiateCashOut h)).
Proof. unfold initiateCashOut. by destruct (canCashOut _). Qed.

Section Invariant.
Context `{BP : BoardProvider}.

Lemma event_ok_settle_wf r :
  event_ok (Settle r) -> forall gd, r = Some gd -> game_wf gd.
Proof.
  intros Hok gd ->. destruct Hok as (ds & ds' & Hds & Hprov).
  eapply provide_wf; eauto.
Qed.

Lemma game_inv_step e s s' :
  event_ok e -> game_inv (gameState (hook s)) -> sys_step e s = Some s' ->
  game_inv (gameState (hook s')).
Proof.
  intros Hok Hinv Hstep. destruct e; simpl in Hstep.
  - inv_some. by apply game_inv_start.
  - destruct (inflight s); inv_some. apply game_inv_settle; [|done].
    by apply event_ok_settle_wf.
  - destruct (flipCell position (hook s)) eqn:Hf; inv_some. by eapply game_inv_flip.
  - inv_some. by apply game_inv_initiate.
  - inv_some. by apply game_inv_confirm.
  - inv_some. done.
  - inv_some. done.
  - destruct (timers s); inv_some. by apply game_inv_start.
  - inv_some. by apply game_inv_setBetAmount.
  - inv_some. apply game_inv_initial.
Qed.

(** C1: whatever the order of calls, settlements and timers, the bet
    stays in [[MIN_BET, MAX_BET]], [currentCoins] equals [roundWinnings],
    winnings and reward are non-negative, and every board is empty or a
    well-formed provider board, non-empty while [PLAYING]. *)
Theorem session_game_inv s : reachable s -> game_inv (gameState (hook s)).
Proof.
  induction 1 as [|e s s' Hreach IH Hok Hstep].
  - apply game_inv_initial.
  - by eapply game_inv_step.
Qed.
End Invariant.

(** ** The balance under the single-flight rule *)

(** A start leaves a bet the balance covers. *)
Lemma start_covered g :
  game_inv g -> 0 <= sessionBalance g ->
  let g' := initializeGame_start g in
  0 <= sessionBalance g' /\ currentBet g' <= sessionBalance g'.
Proof.
  intros _ Hbal. unfold initializeGame_start.
  destruct (Z.ltb_spec (sessionBalance g) (currentBet g)); simpl;
    unfold STARTING_BALANCE, DEFAULT_BET; lia.
Qed.

Lemma sf_inv_step e s s' :
  single_flight_ok e s -> game_inv (gameState (hook s)) -> sf_inv s ->
  sys_step e s = Some s' -> sf_inv s'.
Proof.
  intros Hsf Hinv (Hbal & Hcov & Hone) Hstep.
  pose proof Hinv as (Hbet & _ & Hw & _).
  unfold MIN_BET, MAX_BET in Hbet.
  destruct e; simpl in Hstep, Hsf.
  - inv_some. destruct Hsf as [-> ->].
    destruct (start_covered _ Hinv Hbal). unfold sf_inv. simpl. auto with lia.
  - destruct (inflight s) as [|n] eqn:Hn; inv_some.
    assert (currentBet (gameState (hook s)) <= sessionBalance (gameState (hook s))) by auto.
    unfold sf_inv. destruct result; simpl; repeat split; lia.
  - destruct (flipCell position (hook s)) as [|h'] eqn:Hf; inv_some.
    destruct (flipCell_frame _ _ _ Hf) as (Hb1 & Hb2 & _).
    unfold sf_inv. simpl. rewrite Hb1, Hb2. auto.
  - inv_some. unfold sf_inv, initiateCashOut. simpl. by destruct (canCashOut _).
  - inv_some. unfold sf_inv. simpl. repeat split; intros; lia.
  - inv_some. done.
  - inv_some. destruct Hsf as [-> ->]. unfold sf_inv. simpl. repeat split; lia.
  - destruct (timers s) as [|n] eqn:Ht; inv_some.
    assert (inflight s = 0%nat) as Hi0 by lia.
    destruct (start_covered _ Hinv Hbal). unfold sf_inv. simpl. rewrite Hi0. auto with lia.
  - inv_some. unfold sf_inv. simpl. repeat split; auto.
    intros Hi. specialize (Hcov Hi). unfold setBetAmount, MIN_BET, MAX_BET. simpl. lia.
  - inv_some. unfold sf_inv. simpl. unfold STARTING_BALANCE, DEFAULT_BET. repeat split; auto with lia.
Qed.

(** C2: under the spec's single-flight rule (no [initializeGame] or
    [startNewRound] while a start is pending), whatever else interleaves
    (bets, reveals, cash-outs, resets, failures), the balance never goes
    negative. *)
Theorem single_flight_balance_nonneg `{BP : BoardProvider} s :
  reachable_sf s -> 0 <= sessionBalance (gameState (hook s)).
Proof.
  intros Hreach. enough (game_inv (gameState (hook s)) /\ sf_inv s) as [_ [? _]] by done.
  induction Hreach as [|e s s' Hreach [IHg IHs] Hok Hsf Hstep].
  - split; [apply game_inv_initial|]. unfold sf_inv. simpl. unfold STARTING_BALANCE. lia.
  - split; [by eapply game_inv_step | by eapply sf_inv_step].
Qed.

(** ** Interleavings the code allows *)

Lemma run_reachable `{BP : BoardProvider} es s s' :
  reachable s -> Forall event_ok es -> run es s = Some s' -> reachable s'.
Proof.
  revert s. induction es as [|e es IH]; intros s Hs Hok Hrun; simpl in Hrun.
  - by injection Hrun as <-.
  - apply list.Forall_cons in Hok as [He Hok].
    destruct (sys_step e s) as [s1|] eqn:Hstep; [|discriminate].
    eapply IH; [eapply (reach_step e s s1); eauto | done | done].
Qed.

Lemma sample_game_provided : provided (BP := gameApi_provider) sample_game.
Proof.
  exists GameApi.sample_draws, []. split; [|exact GameApi.sample_board].
  repeat constructor; unfold random_ok, GameApi.cell_draw; lia.
Qed.

(** C3: [initializeGame] does not check [isLoading]: two starts in flight
    both pass the balance check and both deduct the bet, and the balance goes
    negative (100, bet 100, two rounds started: -100). *)
Theorem double_start_negative_balance :
  exists s, reachable (BP := gameApi_provider) s /\
    run double_start initialSys = Some s /\ sessionBalance (gameState (hook s)) = -100.
Proof.
  destruct (run double_start initialSys) as [s|] eqn:Hrun; [|vm_compute in Hrun; discriminate].
  exists s. split; [|split; [done|]].
  - eapply run_reachable; [apply reach_init | | exact Hrun].
    repeat constructor; apply sample_game_provided.
  - vm_compute in Hrun. injection Hrun as <-. reflexivity.
Qed.

(** C14: a board arriving after [resetGame] is not discarded: the reset
    session is put back into [PLAYING] and charged the default bet. *)
Theorem stale_board_after_reset s g :
  inflight s <> 0%nat ->
  exists s', run [ResetGame; Settle (Some g)] s = Some s' /\
    gameStatus (gameState (hook s')) = PLAYING /\
    sessionBalance (gameState (hook s')) = STARTING_BALANCE - DEFAULT_BET /\
    layout (board (gameState (hook s'))) = game_board g.
Proof.
  intros Hin. simpl. destruct (inflight s) as [|n]; [done|].
  eexists; split; [reflexivity|]. simpl. rewrite layout_createGameBoard. done.
Qed.

Lemma stale_board_after_reset_witness :
  inflight (mkSys initialHook 1 0) <> 0%nat /\
  exists s', run [ResetGame; Settle (Some sample_game)] (mkSys initialHook 1 0) = Some s' /\
    gameStatus (gameState (hook s')) = PLAYING.
Proof.
  split; [discriminate|].
  destruct (stale_board_after_reset (mkSys initialHook 1 0) sample_game ltac:(discriminate))
    as (s' & Hrun & Hst & _).
  exists s'. split; assumption.
Defined.

(** C15: [confirmCashOut] does not check the round is still [PLAYING]: with
    the confirmation open, revealing the mine and then confirming refunds the
    forfeited bet (back to 100) and turns the lost round into a cash-out. *)
Theorem cash_out_after_mine_refunds :
  exists s, reachable (BP := gameApi_provider) s /\
    run cash_out_after_mine initialSys = Some s /\
    sessionBalance (gameState (hook s)) = STARTING_BALANCE /\
    gameStatus (gameState (hook s)) = CASHED_OUT.
Proof.
  destruct (run cash_out_after_mine initialSys) as [s|] eqn:Hrun;
    [|vm_compute in Hrun; discriminate].
  exists s. split; [|split; [done|]].
  - eapply run_reachable; [apply reach_init | | exact Hrun].
    repeat constructor; apply sample_game_provided.
  - vm_compute in Hrun. injection Hrun as <-. split; reflexivity.
Qed.

(** ** Witnesses *)

Lemma session_game_inv_witness :
  exists s, run [InitializeGame; Settle (Some sample_game); FlipCell (mkPos 0 0)] initialSys = Some s /\
    game_inv (gameState (hook s)).
Proof.
  destruct (run [InitializeGame; Settle (Some sample_game); FlipCell (mkPos 0 0)] initialSys)
    as [s|] eqn:Hrun; [|vm_compute in Hrun; discriminate].
  exists s. split; [reflexivity|].
  apply (session_game_inv (BP := gameApi_provider)).
  eapply run_reachable; [apply reach_init | | exact Hrun].
  repeat constructor; apply sample_game_provided.
Defined.

Lemma single_flight_balance_nonneg_witness :
  0 <= sessionBalance (gameState (hook
    (mkSys (on_game (initializeGame_settle (Some sample_game))
             (on_game initializeGame_start initialHook)) 0 0))).
Proof.
  apply (single_flight_balance_nonneg (BP := gameApi_provider)).
  eapply (reach_sf_step (Settle (Some sample_game)) (mkSys (on_game initializeGame_start initialHook) 1 0)); [| apply sample_game_provided | done | reflexivity].
  eapply (reach_sf_step InitializeGame); [apply reach_sf_init | done | done | reflexivity].
Defined.

End Session.
