(* ===== verification/App.v ===== *)
(** * App: the components that drive the hook.

  [App.tsx] wires the hook's functions to the components: the START GAME and
  RESTART buttons of [GameControls] call [initializeGame] and [resetGame],
  the Cash Out button of [GameHeader] calls [initiateCashOut], every
  [GameCell] of [GameBoard] calls [flipCell] with its own position, and
  [CashOutModal] calls [cancelCashOut], [confirmCashOut] (2 s after its own
  Cash Out button, through [handleConfirm]'s [setTimeout]) and
  [startNewRound] (its Play Again button).  [setBetAmount] is wired to
  nothing.  Each button is rendered and enabled under the conditions of its
  component; [ui_step] fires one user click, one [setTimeout] callback or the
  settling of one [fetchBoard], only when the rendered UI allows it.

  Whether the modal's full-screen overlay intercepts clicks on the board,
  header and controls depends on [CashOutModal.module.css], which is not in
  the repository: [ui_step] takes it as the flag [blocks], and the theorems
  that hold for both are stated for every [blocks]. *)

From Stdlib Require Import ZArith Lia.
From stdpp Require Import base list decidable.
From S2P Require Import Prelude Config Provider Board UseGame Session.

Open Scope Z_scope.
Import GAME_CONFIG.

Module App.
Import Board UseGame Session.

(** [useState<'confirm' | 'celebrating' | 'complete'>('confirm')]. *)
Inductive Stage := confirm | celebrating | complete.

#[export] Instance Stage_eq_dec : EqDecision Stage.
Proof. solve_decision. Defined.

(** [CashOutModal]'s own state: its stage, and the callbacks of
    [setTimeout(..., 2000)] scheduled by [handleConfirm] and not yet run.
    The component is always mounted ([App] renders it unconditionally; it
    returns [null] when closed), so its state and timers survive closing. *)
Record Modal := mkModal {
  stage : Stage;
  confirm_timers : nat
}.

Record Ui := mkUi {
  ui_sys : Sys;
  ui_modal : Modal
}.

Definition initialUi : Ui := mkUi initialSys (mkModal confirm 0).

(** [GameControls]: [showStartButton] and [showResetButton]. *)
Definition showStartButton (gameStatus : GameStatus) : bool :=
  bool_decide (gameStatus = IDLE).

Definition showResetButton (gameStatus : GameStatus) : bool :=
  bool_decide (gameStatus <> IDLE) && bool_decide (gameStatus <> PLAYING).

(** [GameHeader]: [canCashOut = gameStatus === PLAYING && currentCoins > 0]. *)
Definition header_canCashOut (gameStatus : GameStatus) (currentCoins : Z) : bool :=
  bool_decide (gameStatus = PLAYING) && bool_decide (0 < currentCoins).

(** [App]: [isGameActive = gameStatus === PLAYING]. *)
Definition isGameActive (g : GameState) : bool := status_is PLAYING g.

(** [GameCell]: [handleClick] calls [onCellClick] when
    [!cell.isRevealed && isGameActive]; the button is disabled otherwise. *)
Definition cell_clickable (cell : Cell) (isGameActive : bool) : bool :=
  negb (isRevealed cell) && isGameActive.

(** [CashOutModal]'s [useEffect(() => { if (isOpen) setStage('confirm') },
    [isOpen])]: it runs when [isOpen] changes, and resets the stage when the
    modal opens. *)
Definition modal_effect (wasOpen isOpen : bool) (m : Modal) : Modal :=
  if isOpen && negb wasOpen then mkModal confirm (confirm_timers m) else m.

(** What the user and the browser can do. *)
Inductive UiEvent :=
| ClickStart
| ClickRestart
| ClickCashOut
| ClickCell (position : CellPosition)
| ClickKeepPlaying
| ClickConfirm
| ConfirmTimerFires
| ClickPlayAgain
| BoardArrives (result : option Game)
| RoundTimerFires.

(** The hook function each event reaches through [App]'s props; [None] for
    [handleConfirm], which only touches the modal's state. *)
Definition wiring (e : UiEvent) : option Event :=
  match e with
  | ClickStart => Some InitializeGame
  | ClickRestart => Some ResetGame
  | ClickCashOut => Some InitiateCashOut
  | ClickCell position => Some (FlipCell position)
  | ClickKeepPlaying => Some CancelCashOut
  | ClickConfirm => None
  | ConfirmTimerFires => Some ConfirmCashOut
  | ClickPlayAgain => Some StartNewRound
  | BoardArrives result => Some (Settle result)
  | RoundTimerFires => Some TimerFires
  end.

(** Clicks outside the modal reach the page unless the open modal's overlay
    intercepts them. *)
Definition background_ok (blocks : bool) (h : HookState) : bool :=
  negb (blocks && showCashOutModal h).

(** Run a hook event and then the modal's effect on the new [isOpen]. *)
Definition ui_apply (e : Event) (m : Modal) (u : Ui) : option Ui :=
  match sys_step e (ui_sys u) with
  | Some s' =>
      Some (mkUi s' (modal_effect (showCashOutModal (hook (ui_sys u)))
                                  (showCashOutModal (hook s')) m))
  | None => None
  end.

Definition ui_step (blocks : bool) (e : UiEvent) (u : Ui) : option Ui :=
  let h := hook (ui_sys u) in
  let g := gameState h in
  let isOpen := showCashOutModal h in
  let m := ui_modal u in
  let bg := background_ok blocks h in
  match e with
  | ClickStart =>
      if bg && showStartButton (gameStatus g) && negb (isLoading g)
      then ui_apply InitializeGame m u else None
  | ClickRestart =>
      if bg && showResetButton (gameStatus g) && negb (isLoading g)
      then ui_apply ResetGame m u else None
  | ClickCashOut =>
      if bg && header_canCashOut (gameStatus g) (currentCoins g) && negb (isLoading g)
      then ui_apply InitiateCashOut m u else None
  | ClickCell position =>
      match board_get (board g) position with
      | Some cell =>
          if bg && cell_clickable cell (isGameActive g)
          then ui_apply (FlipCell position) m u else None
      | None => None
      end
  | ClickKeepPlaying =>
      if isOpen && bool_decide (stage m = confirm) then ui_apply CancelCashOut m u else None
  | ClickConfirm =>
      if isOpen && bool_decide (stage m = confirm)
      then Some (mkUi (ui_sys u) (mkModal celebrating (S (confirm_timers m))))
      else None
  | ConfirmTimerFires =>
      match confirm_timers m with
      | O => None
      | S n => ui_apply ConfirmCashOut (mkModal complete n) u
      end
  | ClickPlayAgain =>
      if isOpen && bool_decide (stage m = complete) then ui_apply StartNewRound m u else None
  | BoardArrives result => ui_apply (Settle result) m u
  | RoundTimerFires => ui_apply TimerFires m u
  end.

Fixpoint ui_run (blocks : bool) (es : list UiEvent) (u : Ui) : option Ui :=
  match es with
  | [] => Some u
  | e :: es' => match ui_step blocks e u with Some u' => ui_run blocks es' u' | None => None end
  end.

Section UiReach.
Context `{BP : BoardProvider}.
Variable blocks : bool.

Definition ui_event_ok (e : UiEvent) : Prop :=
  match e with BoardArrives (Some g) => provided g | _ => True end.

Inductive ui_reachable : Ui -> Prop :=
| ui_reach_init : ui_reachable initialUi
| ui_reach_step e u u' :
    ui_reachable u -> ui_event_ok e -> ui_step blocks e u = Some u' -> ui_reachable u'.
End UiReach.

(** The invariant of the App: no [startNewRound] timer is ever pending; at
    most one [fetchBoard] is pending, exactly while [isLoading], and its bet
    is covered; the bet stays at [DEFAULT_BET] (nothing calls
    [setBetAmount]); the balance is non-negative and covers the bet whenever
    the status is [IDLE]; a confirmation timer is pending exactly while the
    open modal celebrates, and the open modal is never at its [complete]
    stage. *)
Definition ui_inv (u : Ui) : Prop :=
  let s := ui_sys u in
  let h := hook s in
  let g := gameState h in
  let m := ui_modal u in
  game_inv g /\
  timers s = 0%nat /\
  (inflight s = 0%nat /\ isLoading g = false \/
   inflight s = 1%nat /\ isLoading g = true /\ currentBet g <= sessionBalance g) /\
  currentBet g = DEFAULT_BET /\
  0 <= sessionBalance g /\
  (gameStatus g = IDLE -> currentBet g <= sessionBalance g) /\
  (confirm_timers m = 0%nat /\ stage m <> celebrating \/
   confirm_timers m = 1%nat /\ stage m = celebrating /\ showCashOutModal h = true) /\
  (showCashOutModal h = true -> stage m <> complete).

(** With an overlay that intercepts clicks, also: the open modal sits on a
    [PLAYING] round with nothing pending, a pending [fetchBoard] leaves the
    status [IDLE], and an [IDLE] session holds [STARTING_BALANCE]. *)
Definition ui_inv_blocking (u : Ui) : Prop :=
  let s := ui_sys u in
  let h := hook s in
  let g := gameState h in
  ui_inv u /\
  (showCashOutModal h = true -> inflight s = 0%nat /\ gameStatus g = PLAYING) /\
  (isLoading g = true -> gameStatus g = IDLE) /\
  (gameStatus g = IDLE -> sessionBalance g = STARTING_BALANCE).

(** A round won and cashed out through the modal (a reward of 13 on the
    board [GameApi.fetchBoard] draws from [GameApi.sample_draws]), then
    RESTART. *)
Definition cash_out_then_restart : list UiEvent :=
  [ClickStart; BoardArrives (Some sample_game); ClickCell (mkPos 0 0); ClickCashOut;
   ClickConfirm; ConfirmTimerFires; ClickRestart].

(** The same round, but a mine is clicked and RESTART pressed while the
    modal celebrates, before [handleConfirm]'s timer fires. *)
Definition restart_during_celebration : list UiEvent :=
  [ClickStart; BoardArrives (Some sample_game); ClickCell (mkPos 0 0); ClickCashOut;
   ClickConfirm; ClickCell (mkPos 1 1); ClickRestart; ConfirmTimerFires].

(** ** The App only runs the hook's transitions *)

(** Take the guards of a [ui_step] equation. *)
Ltac ui_guards Hs :=
  repeat (match type of Hs with
  | context [match ?x with inl _ => _ | inr _ => _ end] => destruct x eqn:?
  | context [match ?x with O => _ | S _ => _ end] => destruct x eqn:?
  | (if ?c then _ else _) = _ => destruct c eqn:?
  | (match ?x with Some _ => _ | None => _ end) = _ => destruct x eqn:?
  end; simpl in Hs; try discriminate Hs).

Lemma modal_effect_same o m : modal_effect o o m = m.
Proof. unfold modal_effect. by destruct o. Qed.

(** Run one [ui_step] equation: take its guards, compute the hook event. *)
Ltac ui_cases Hs :=
  unfold ui_step, ui_apply in Hs; simpl in Hs; ui_guards Hs;
  unfold background_ok, showStartButton, showResetButton, header_canCashOut,
    cell_clickable, isGameActive, status_is in *; bool_hyps; inv_some.

(** In the [flipCell] case, replace the new hook by what [flipCell_frame]
    says of it. *)
Ltac ui_flip_frame :=
  try (match goal with H : flipCell _ _ = inr _ |- _ =>
         destruct (flipCell_frame _ _ _ H) as (Hb1 & Hb2 & Hl1 & Ho1 & Hs1); simpl in *;
         rewrite ?Ho1, ?modal_effect_same end).

(** Compute the handlers and close the arithmetic and the case analysis on
    the boolean flags, the cash-out guard and the provider's answer. *)
Ltac ui_finish :=
  unfold on_game, initializeGame_start, initializeGame_settle, initializeGame_success,
    initializeGame_failure, confirmCashOut, cancelCashOut, initiateCashOut, resetGame,
    modal_effect in *; simpl in *; subst; z_cases; simpl;
  repeat match goal with x : bool |- _ => destruct x end; try destruct (canCashOut _);
  repeat match goal with |- context [match ?r with Some _ => _ | None => _ end] => destruct r end;
  simpl;
  repeat match goal with H : ?a = ?a -> _ |- _ => specialize (H eq_refl) end;
  unfold DEFAULT_BET, STARTING_BALANCE in *; naive_solver (first [lia | congruence]).

Lemma ui_apply_sys e m u u' :
  ui_apply e m u = Some u' ->
  sys_step e (ui_sys u) = Some (ui_sys u') /\
  ui_modal u' = modal_effect (showCashOutModal (hook (ui_sys u)))
                             (showCashOutModal (hook (ui_sys u'))) m.
Proof. unfold ui_apply. destruct (sys_step e _); intros; inv_some; done. Qed.

Lemma ui_step_wiring b e u u' :
  ui_step b e u = Some u' ->
  match wiring e with
  | Some e' => sys_step e' (ui_sys u) = Some (ui_sys u')
  | None => ui_sys u' = ui_sys u
  end.
Proof.
  intros Hs. destruct e; simpl in Hs |- *; ui_guards Hs;
    try (by apply ui_apply_sys in Hs as [? _]); by inv_some.
Qed.

Lemma wiring_event_ok `{BP : BoardProvider} e e' :
  ui_event_ok e -> wiring e = Some e' -> event_ok e'.
Proof. destruct e; simpl; intros Hok He; inv_some; try destruct result; done. Qed.

Lemma ui_reachable_sys `{BP : BoardProvider} blocks u :
  ui_reachable blocks u -> reachable (ui_sys u).
Proof.
  induction 1 as [|e u u' Hr IH Hok Hstep]; [apply reach_init|].
  pose proof (ui_step_wiring _ _ _ _ Hstep) as Hw.
  destruct (wiring e) as [e'|] eqn:He; [|by rewrite Hw].
  eapply reach_step; [exact IH| |exact Hw]. by eapply wiring_event_ok.
Qed.

(** Refinement: every state the App can reach, with either overlay
    behaviour, has a hook state the hook alone can reach, so every invariant
    of [Session.reachable] holds in the App. *)
Theorem ui_refines_session `{BP : BoardProvider} blocks u :
  ui_reachable blocks u -> reachable (ui_sys u).
Proof. apply ui_reachable_sys. Qed.

(** ** The App's invariant *)

Lemma ui_inv_initial : ui_inv initialUi.
Proof.
  unfold ui_inv. simpl. split; [apply game_inv_initial|].
  unfold initialGameState, DEFAULT_BET, STARTING_BALANCE. simpl.
  naive_solver (first [lia | congruence]).
Qed.

Lemma ui_inv_step `{BP : BoardProvider} b e u u' :
  ui_event_ok e -> ui_inv u -> ui_step b e u = Some u' -> ui_inv u'.
Proof.
  intros Hok Hinv Hs.
  assert (Hg : game_inv (gameState (hook (ui_sys u')))).
  { pose proof (ui_step_wiring _ _ _ _ Hs) as Hw. destruct (wiring e) eqn:He.
    - eapply game_inv_step; [by eapply wiring_event_ok | apply Hinv | exact Hw].
    - rewrite Hw. apply Hinv. }
  destruct u as [[[[bd coins status apw loading bal bet win] o st] n t] [stg k]].
  destruct Hinv as ((_ & _ & Hw & _) & Ht & Hfl & Hbet & Hbal & Hidle & Hm & Hc); simpl in *.
  destruct e; ui_cases Hs; (split; [exact Hg|]); clear Hg; ui_flip_frame; ui_finish.
Qed.

Lemma ui_inv_reachable `{BP : BoardProvider} b u : ui_reachable b u -> ui_inv u.
Proof.
  induction 1 as [|e u u' Hr IH Hok Hstep]; [apply ui_inv_initial|].
  by eapply ui_inv_step.
Qed.

Lemma ui_inv_blocking_step `{BP : BoardProvider} e u u' :
  ui_event_ok e -> ui_inv_blocking u -> ui_step true e u = Some u' -> ui_inv_blocking u'.
Proof.
  intros Hok [Hinv Hb] Hs. split; [by eapply ui_inv_step|].
  destruct u as [[[[bd coins status apw loading bal bet win] o st] n t] [stg k]].
  destruct Hinv as ((_ & _ & Hw & _) & Ht & Hfl & Hbet & Hbal & Hidle & Hm & Hc).
  destruct Hb as (Hopen & Hload & Hidle100). simpl in *.
  destruct e; ui_cases Hs; ui_flip_frame; ui_finish.
Qed.

Lemma ui_inv_blocking_reachable `{BP : BoardProvider} u :
  ui_reachable true u -> ui_inv_blocking u.
Proof.
  induction 1 as [|e u u' Hr IH Hok Hstep].
  - split; [apply ui_inv_initial|]. unfold STARTING_BALANCE. simpl. naive_solver.
  - by eapply ui_inv_blocking_step.
Qed.

Lemma ui_run_reachable `{BP : BoardProvider} b es u u' :
  Forall ui_event_ok es -> ui_reachable b u -> ui_run b es u = Some u' -> ui_reachable b u'.
Proof.
  revert u. induction es as [|e es IH]; simpl; intros u Hok Hr Hrun; [by inv_some|].
  apply list.Forall_cons in Hok as [He Hes].
  destruct (ui_step b e u) as [u1|] eqn:Hs; [|discriminate].
  eapply IH; [exact Hes| |exact Hrun]. by eapply ui_reach_step.
Qed.

Lemma sample_events_ok : Forall (ui_event_ok (BP := gameApi_provider)) cash_out_then_restart.
Proof. repeat constructor. apply sample_game_provided. Qed.

(** Every prefix of [cash_out_then_restart] reaches an App state. *)
Lemma sample_run_reachable n u :
  ui_run true (take n cash_out_then_restart) initialUi = Some u ->
  ui_reachable (BP := gameApi_provider) true u.
Proof.
  apply ui_run_reachable; [apply Forall_take, sample_events_ok | apply ui_reach_init].
Qed.

(** Name the state a prefix of [cash_out_then_restart] reaches, and the
    state one more event [e] leads to from it. *)
Ltac sample_state n u Hrun :=
  destruct (ui_run true (take n cash_out_then_restart) initialUi) as [u|] eqn:Hrun;
  [|vm_compute in Hrun; discriminate].
Ltac sample_next u Hrun e u' Hs :=
  destruct (ui_step true e u) as [u'|] eqn:Hs;
  [|exfalso; vm_compute in Hrun; injection Hrun as <-; vm_compute in Hs; discriminate].

(** ** What the App guarantees *)

(** C24: In the App, whatever the order of clicks, timer callbacks and board
    arrivals, and whether or not the modal's overlay intercepts clicks, the
    balance never goes negative, at most one [fetchBoard] is pending and no
    [startNewRound] timer ever is: the guards of [GameControls] (START GAME
    only when [IDLE] and not loading) enforce the single-flight rule the
    hook alone does not (C3). *)
Theorem app_single_flight `{BP : BoardProvider} blocks u :
  ui_reachable blocks u ->
  0 <= sessionBalance (gameState (hook (ui_sys u))) /\
  (inflight (ui_sys u) <= 1)%nat /\ timers (ui_sys u) = 0%nat.
Proof.
  intros Hr. destruct (ui_inv_reachable _ _ Hr) as (_ & Ht & Hfl & _ & Hbal & _).
  split; [done|]. split; [|done]. destruct Hfl as [[-> _]|[-> _]]; lia.
Qed.

(** C25: The Play Again button of [CashOutModal] is never on screen: the
    open modal never reaches its [complete] stage, because the timer
    callback that sets it also calls [confirmCashOut], which closes the
    modal.  So [startNewRound] is never called from the App. *)
Theorem play_again_unreachable `{BP : BoardProvider} blocks u :
  ui_reachable blocks u -> ui_step blocks ClickPlayAgain u = None.
Proof.
  intros Hr. destruct (ui_inv_reachable _ _ Hr) as (_ & _ & _ & _ & _ & _ & _ & Hc).
  unfold ui_step. simpl. destruct (showCashOutModal _) eqn:Ho; [|done]. simpl.
  rewrite bool_decide_eq_false_2; [done|]. by apply Hc.
Qed.

(** C26: Every START GAME click the App accepts finds the bet covered: the
    stake-out branch of [initializeGame] is never taken from the App, and
    the click sets [isLoading], keeps balance and bet (the bet is always
    [DEFAULT_BET]) and makes the one pending [fetchBoard]. *)
Theorem app_start_affordable `{BP : BoardProvider} blocks u u' :
  ui_reachable blocks u -> ui_step blocks ClickStart u = Some u' ->
  let g := gameState (hook (ui_sys u)) in
  let g' := gameState (hook (ui_sys u')) in
  currentBet g <= sessionBalance g /\ isLoading g' = true /\
  sessionBalance g' = sessionBalance g /\ currentBet g' = DEFAULT_BET /\
  inflight (ui_sys u') = 1%nat.
Proof.
  intros Hr Hs. pose proof (ui_inv_reachable _ _ Hr) as Hinv.
  destruct u as [[[[bd coins status apw loading bal bet win] o st] n t] [stg k]].
  destruct Hinv as (_ & Ht & Hfl & Hbet & Hbal & Hidle & Hm & Hc). simpl in *.
  ui_cases Hs. unfold on_game, initializeGame_start. simpl in *. subst.
  specialize (Hidle eq_refl). z_cases; [lia|]. simpl. naive_solver lia.
Qed.

(** C27: With an overlay that intercepts clicks, every round the App starts
    is staked from a fresh [STARTING_BALANCE] with [DEFAULT_BET]: nothing
    won in an earlier round is carried into the next, although the spec
    says the bankroll persists across rounds.  The only way back to START
    GAME after a round is RESTART, which resets the session. *)
Theorem app_round_starts_fresh `{BP : BoardProvider} u u' :
  ui_reachable true u -> ui_step true ClickStart u = Some u' ->
  sessionBalance (gameState (hook (ui_sys u))) = STARTING_BALANCE /\
  currentBet (gameState (hook (ui_sys u))) = DEFAULT_BET.
Proof.
  intros Hr Hs. destruct (ui_inv_blocking_reachable _ Hr) as ((_ & _ & _ & Hbet & _) & _ & _ & H100).
  split; [|done]. apply H100.
  destruct u as [[[[bd coins status apw loading bal bet win] o st] n t] [stg k]].
  simpl in *. ui_cases Hs. done.
Qed.

(** C28: With an overlay that intercepts clicks, [handleConfirm]'s timer
    only cashes out a [PLAYING] round, paying back bet and winnings: the
    missing guard of [confirmCashOut] (C15) cannot be reached. *)
Theorem app_confirm_on_playing `{BP : BoardProvider} u u' :
  ui_reachable true u -> ui_step true ConfirmTimerFires u = Some u' ->
  let g := gameState (hook (ui_sys u)) in
  let g' := gameState (hook (ui_sys u')) in
  gameStatus g = PLAYING /\ gameStatus g' = CASHED_OUT /\
  sessionBalance g' = sessionBalance g + currentBet g + roundWinnings g.
Proof.
  intros Hr Hs. destruct (ui_inv_blocking_reachable _ Hr) as ((_ & _ & _ & _ & _ & _ & Hm & _) & Hopen & _).
  destruct u as [[[[bd coins status apw loading bal bet win] o st] n t] [stg k]].
  simpl in *. ui_cases Hs. destruct Hm as [[? _]|(_ & _ & Ho)]; [lia|].
  destruct (Hopen Ho) as [_ ->]. unfold confirmCashOut. simpl.
  split; [done|]. split; [done|]. lia.
Qed.

(** A won round cashed out through the modal brings the balance to
    113 and [CASHED_OUT]; then neither START GAME nor Play Again can be
    clicked, and RESTART, the one way on, puts the balance back to 100. *)
Theorem cash_out_then_restart_resets :
  match ui_run true (take 6 cash_out_then_restart) initialUi with
  | Some u1 =>
      sessionBalance (gameState (hook (ui_sys u1))) = 113 /\
      gameStatus (gameState (hook (ui_sys u1))) = CASHED_OUT /\
      ui_step true ClickStart u1 = None /\ ui_step true ClickPlayAgain u1 = None /\
      option_map (fun u2 => sessionBalance (gameState (hook (ui_sys u2))))
        (ui_step true ClickRestart u1) = Some STARTING_BALANCE
  | None => False
  end.
Proof. vm_compute. repeat split. Qed.

(** C30: RESTART does not cancel [handleConfirm]'s timer: from any App
    state with a confirmation timer pending in which RESTART is taken (the
    overlay letting clicks through, as after a mine revealed while the
    modal celebrates), the timer then fires and cashes out the fresh
    session: [STARTING_BALANCE + DEFAULT_BET], [CASHED_OUT], on an empty
    board, paying back a bet that was never staked. *)
Theorem restart_during_celebration_pays blocks u u1 :
  (0 < confirm_timers (ui_modal u))%nat -> ui_step blocks ClickRestart u = Some u1 ->
  exists u2, ui_step blocks ConfirmTimerFires u1 = Some u2 /\
    sessionBalance (gameState (hook (ui_sys u2))) = STARTING_BALANCE + DEFAULT_BET /\
    gameStatus (gameState (hook (ui_sys u2))) = CASHED_OUT /\
    board (gameState (hook (ui_sys u2))) = [].
Proof.
  intros Ht Hs. unfold ui_step in Hs. simpl in Hs.
  destruct (_ && _ && _); [|discriminate]. injection Hs as <-.
  destruct (ui_modal u) as [st [|n]]; simpl in Ht; [lia|].
  unfold ui_step, modal_effect. simpl. destruct (_ && _); simpl; eexists; (split; [reflexivity|]); done.
Qed.

(** ** Witnesses: the theorems above on the states of [cash_out_then_restart] *)

Lemma restart_events_ok :
  Forall (ui_event_ok (BP := gameApi_provider)) restart_during_celebration.
Proof. repeat constructor. apply sample_game_provided. Qed.

Lemma restart_during_celebration_pays_witness :
  match ui_run false (take 6 restart_during_celebration) initialUi with
  | Some u =>
      ui_reachable (BP := gameApi_provider) false u /\ (0 < confirm_timers (ui_modal u))%nat /\
      match ui_step false ClickRestart u with
      | Some u1 => exists u2, ui_step false ConfirmTimerFires u1 = Some u2 /\
          sessionBalance (gameState (hook (ui_sys u2))) = STARTING_BALANCE + DEFAULT_BET /\
          gameStatus (gameState (hook (ui_sys u2))) = CASHED_OUT /\
          board (gameState (hook (ui_sys u2))) = []
      | None => False
      end
  | None => False
  end.
Proof.
  destruct (ui_run false (take 6 restart_during_celebration) initialUi) as [u|] eqn:Hrun;
    [|vm_compute in Hrun; discriminate].
  split; [exact (ui_run_reachable _ _ _ _ (Forall_take _ _ _ restart_events_ok) (ui_reach_init _) Hrun)|].
  assert (0 < confirm_timers (ui_modal u))%nat as Ht
    by (vm_compute in Hrun; injection Hrun as <-; vm_compute; lia).
  split; [exact Ht|].
  destruct (ui_step false ClickRestart u) as [u1|] eqn:Hs;
    [|vm_compute in Hrun; injection Hrun as <-; vm_compute in Hs; discriminate].
  exact (restart_during_celebration_pays false u u1 Ht Hs).
Defined.

Lemma ui_refines_session_witness :
  match ui_run true (take 5 cash_out_then_restart) initialUi with
  | Some u => reachable (ui_sys u)
  | None => False
  end.
Proof.
  sample_state 5%nat u Hrun. apply (ui_refines_session true u). exact (sample_run_reachable _ _ Hrun).
Defined.

Lemma app_single_flight_witness :
  match ui_run true (take 1 cash_out_then_restart) initialUi with
  | Some u => (inflight (ui_sys u) <= 1)%nat
  | None => False
  end.
Proof.
  sample_state 1%nat u Hrun. apply (app_single_flight true u). exact (sample_run_reachable _ _ Hrun).
Defined.

Lemma play_again_unreachable_witness :
  match ui_run true (take 5 cash_out_then_restart) initialUi with
  | Some u => ui_step true ClickPlayAgain u = None
  | None => False
  end.
Proof.
  sample_state 5%nat u Hrun. apply play_again_unreachable. exact (sample_run_reachable _ _ Hrun).
Defined.

Lemma app_start_affordable_witness :
  match ui_run true (take 7 cash_out_then_restart) initialUi with
  | Some u => currentBet (gameState (hook (ui_sys u))) <= sessionBalance (gameState (hook (ui_sys u)))
  | None => False
  end.
Proof.
  sample_state 7%nat u Hrun. sample_next u Hrun ClickStart u' Hs.
  apply (app_start_affordable true u u'); [exact (sample_run_reachable _ _ Hrun) | exact Hs].
Defined.

Lemma app_round_starts_fresh_witness :
  match ui_run true (take 7 cash_out_then_restart) initialUi with
  | Some u => sessionBalance (gameState (hook (ui_sys u))) = STARTING_BALANCE
  | None => False
  end.
Proof.
  sample_state 7%nat u Hrun. sample_next u Hrun ClickStart u' Hs.
  apply (app_round_starts_fresh u u'); [exact (sample_run_reachable _ _ Hrun) | exact Hs].
Defined.

Lemma app_confirm_on_playing_witness :
  match ui_run true (take 5 cash_out_then_restart) initialUi with
  | Some u => gameStatus (gameState (hook (ui_sys u))) = PLAYING
  | None => False
  end.
Proof.
  sample_state 5%nat u Hrun. sample_next u Hrun ConfirmTimerFires u' Hs.
  apply (app_confirm_on_playing u u'); [exact (sample_run_reachable _ _ Hrun) | exact Hs].
Defined.

End App.
