(* ===== verification/Footer.v ===== *)
(** * Footer: the derived queries of [components/GameFooter/GameFooter.tsx].

  [GameFooter] reads [currentCoins], [board], [gameStatus] and
  [amountPerWin] and computes three things: the progress of the round
  ([gameProgress]: winning cells found, in total, and remaining), the next
  prize box ([nextPrizeInfo]) and which coin tiers are lit
  ([tierAchievements]).  They are pure functions of the hook state.

  [nextPrizeInfo] divides JS numbers: [currentCoins / 100], and the number
  of coins still needed [Math.ceil((tier - dollars) / (amountPerWin / 100))].
  These are IEEE binary64 operations, modelled with the Standard Library's
  [SpecFloat] (binary64: precision 53, [emax] 1024, rounding to nearest
  even), so the model rounds exactly as the browser does.  The displayed
  text is kept as the data it prints: [PrizeInfo] has one constructor per
  [{ label, value }] object the code returns. *)

From Stdlib Require Import ZArith Lia SpecFloat.
From stdpp Require Import base list list_numbers decidable strings.
From S2P Require Import Prelude Config Provider Board UseGame Session.

Open Scope Z_scope.
Import GAME_CONFIG.

Module GameFooter.
Import Board UseGame Session.

(** ** JavaScript numbers *)

(** A double, and an integer read as one (exact below 2^53). *)
Definition double := spec_float.

Definition js_number (z : Z) : double := binary_normalize 53 1024 z 0 false.

Definition js_sub (x y : double) : double := SFsub 53 1024 x y.

Definition js_div (x y : double) : double := SFdiv 53 1024 x y.

(** [Math.ceil] on a double: a finite value [(-1)^s * m * 2^e] goes to the
    least integer above it, as a double; zeros, infinities and NaN are left
    unchanged. *)
Definition js_ceil (x : double) : double :=
  match x with
  | S754_finite s m e =>
      if 0 <=? e then x
      else
        let q := Z.pos m / 2 ^ (- e) in
        let r := Z.pos m mod 2 ^ (- e) in
        if s then (if q =? 0 then S754_zero true else js_number (- q))
        else js_number (if r =? 0 then q else q + 1)
  | _ => x
  end.

(** [Math.min] of two doubles: NaN if either is NaN, else the smaller. *)
Definition js_min (x y : double) : double :=
  match SFcompare x y with
  | Some Gt => y
  | Some _ => x
  | None => S754_nan
  end.

(** [tier.amount > currentDollars]. *)
Definition js_gt (x y : double) : bool := SFltb y x.

(** ** The footer *)

(** [COIN_TIERS]. *)
Record CoinTier := mkTier {
  tier_amount : Z;
  tier_coins : string
}.

Definition COIN_TIERS : list CoinTier :=
  [mkTier 75 "2M"; mkTier 100 "2M"; mkTier 250 "5M"].

(** [{ found, total, remaining }]. *)
Record GameProgress := mkProgress {
  found : Z;
  total : Z;
  remaining : Z
}.

(** [gameProgress]. *)
Definition gameProgress (gameStatus : GameStatus) (board : list (list Cell)) : GameProgress :=
  if bool_decide (gameStatus = IDLE) || bool_decide (length board = 0%nat)
  then mkProgress 0 0 0
  else
    let flatBoard := concat board in
    let totalWinningCells :=
      Z.of_nat (length (filter (fun cell => isWinning cell = true) flatBoard)) in
    let foundWinningCells :=
      Z.of_nat (length (filter (fun cell => isWinning cell && isRevealed cell = true) flatBoard)) in
    let remaining := totalWinningCells - foundWinningCells in
    mkProgress foundWinningCells totalWinningCells (Z.max 0 remaining).

(** The [{ label, value }] objects of [nextPrizeInfo]: 'NEXT PRIZE' with
    [$75]; 'GAME OVER'; 'CASHED OUT'; 'ALL FOUND!'; 'NEXT: $<amount>' with the
    wins needed; 'PROGRESS' with [found/total]; the fallback 'NEXT PRIZE' with
    '--'. *)
Inductive PrizeInfo :=
| NextPrize (amount : Z)
| GameOver
| CashedOut
| AllFound
| NextTier (amount : Z) (winsNeeded : double)
| Progress (found total : Z)
| Fallback.

(** [currentDollars = currentCoins / 100]. *)
Definition currentDollars (currentCoins : Z) : double :=
  js_div (js_number currentCoins) (js_number 100).

(** [COIN_TIERS.find(tier => tier.amount > currentDollars)]. *)
Definition nextTier (currentDollars : double) : option CoinTier :=
  List.find (fun tier => js_gt (js_number (tier_amount tier)) currentDollars) COIN_TIERS.

(** [Math.ceil((nextTier.amount - currentDollars) / (amountPerWin / 100))]. *)
Definition coinsNeeded (tier : CoinTier) (currentDollars : double) (amountPerWin : Z) : double :=
  js_ceil (js_div (js_sub (js_number (tier_amount tier)) currentDollars)
                  (js_div (js_number amountPerWin) (js_number 100))).

(** [nextPrizeInfo]. *)
Definition nextPrizeInfo (gameStatus : GameStatus) (gameProgress : GameProgress)
    (currentCoins amountPerWin : Z) : PrizeInfo :=
  match gameStatus with
  | IDLE => NextPrize (from_option tier_amount 0 (head COIN_TIERS))
  | LOST => GameOver
  | CASHED_OUT => CashedOut
  | PLAYING =>
      if (remaining gameProgress =? 0) && (0 <? total gameProgress) then AllFound
      else
        let dollars := currentDollars currentCoins in
        match nextTier dollars with
        | Some tier =>
            if 0 <? remaining gameProgress then
              let winsNeeded :=
                js_min (coinsNeeded tier dollars amountPerWin) (js_number (remaining gameProgress)) in
              NextTier (tier_amount tier) winsNeeded
            else Progress (found gameProgress) (total gameProgress)
        | None => Progress (found gameProgress) (total gameProgress)
        end
  | WON => Fallback
  end.

(** [tierAchievements]: [currentCoins >= tier.amount * 100], on integers
    (exact as doubles). *)
Definition tierAchievements (currentCoins : Z) : list bool :=
  (fun tier => bool_decide (tier_amount tier * 100 <= currentCoins)) <$> COIN_TIERS.

(** The winning cells revealed, as [gameProgress] counts them. *)
Definition found_count (b : list (list Cell)) : nat :=
  length (filter (fun cell => isWinning cell && isRevealed cell = true) (concat b)).

(** The bound behind the footer: the reward stays in [[10, 15]] and the coins
    of the round are at most 15 per winning cell revealed. *)
Definition coins_bound (g : GameState) : Prop :=
  10 <= amountPerWin g <= 15 /\ 0 <= currentCoins g <= 15 * Z.of_nat (found_count (board g)).

Definition footer_inv (g : GameState) : Prop := game_inv g /\ coins_bound g.

#[export] Instance double_eq_dec : EqDecision double.
Proof. solve_decision. Defined.

#[export] Instance PrizeInfo_eq_dec : EqDecision PrizeInfo.
Proof. solve_decision. Defined.

(** One entry of the footer table: with coins [c] and reward [a] the next
    tier is the first one, [$75], and the coins it needs exceed every
    [remaining] of [[1, 9]], so [Math.min] picks [remaining]. *)
Definition next_tier_ok (c a : Z) : bool :=
  let dollars := currentDollars c in
  match nextTier dollars with
  | Some tier =>
      let k := coinsNeeded tier dollars a in
      bool_decide (tier_amount tier = 75) &&
      forallb (fun r => bool_decide (js_min k (js_number r) = js_number r)) (seqZ 1 9)
  | None => false
  end.

(** A round on the board [GameApi.fetchBoard] draws from
    [GameApi.sample_draws], with one winning cell revealed. *)
Definition sample_round : list Event :=
  [InitializeGame; Settle (Some sample_game); FlipCell (mkPos 0 0)].

(** What the footer shows for a game state. *)
Definition GameFooter (g : GameState) : list bool * PrizeInfo :=
  (tierAchievements (currentCoins g),
   nextPrizeInfo (gameStatus g) (gameProgress (gameStatus g) (board g))
     (currentCoins g) (amountPerWin g)).

(** ** The board's cells *)

Lemma layout_rows b :
  Forall (fun r => Z.of_nat (length r) = BOARD_SIZE) (layout b) ->
  Forall (fun cells => length cells = 3%nat) b.
Proof.
  unfold layout, BOARD_SIZE. intros H. apply Forall_fmap in H.
  eapply list.Forall_impl; [exact H|]. intros cells. simpl. rewrite length_fmap. lia.
Qed.

Lemma board_ok_rows b :
  board_ok b -> layout b <> [] -> Forall (fun cells => length cells = 3%nat) b /\ length b = 3%nat.
Proof.
  intros [Hnil|[[Hlen Hrows] _]] Hne; [done|]. split; [by apply layout_rows|].
  unfold layout, BOARD_SIZE in Hlen. rewrite length_fmap in Hlen. lia.
Qed.

Lemma board_ok_cells b : board_ok b -> (length (concat b) <= 9)%nat.
Proof.
  intros Hok. destruct (decide (layout b = [])) as [Hnil|Hne].
  - unfold layout in Hnil. apply fmap_nil_inv in Hnil as ->. simpl. lia.
  - destruct (board_ok_rows b Hok Hne) as [Hrows Hlen].
    rewrite (length_concat_rows _ 3 Hrows), Hlen. lia.
Qed.

Lemma found_count_le b : (found_count b <= length (concat b))%nat.
Proof. apply length_filter. Qed.

Lemma board_get_Some b p cell :
  board_get b p = Some cell ->
  0 <= row p /\ 0 <= col p /\
  exists cells, b !! Z.to_nat (row p) = Some cells /\ cells !! Z.to_nat (col p) = Some cell.
Proof.
  unfold board_get, js_index. destruct (Z.leb_spec 0 (row p)); [|done].
  destruct (b !! _) as [cells|]; simpl; [|done].
  destruct (Z.leb_spec 0 (col p)); [|done]. eauto.
Qed.

(** Revealing a hidden winning cell counts one more found. *)
Lemma found_count_reveal_at b p cell :
  Forall (fun cells => length cells = 3%nat) b -> board_get b p = Some cell ->
  isWinning cell = true -> isRevealed cell = false ->
  found_count (reveal_at b p) = S (found_count b).
Proof.
  intros Hrows Hget Hw Hr. pose proof (board_get_Some _ _ _ Hget) as (_ & _ & cells & Hrow & Hcell).
  assert (Z.to_nat (col p) < 3)%nat.
  { apply lookup_lt_Some in Hcell. rewrite list.Forall_forall in Hrows.
    rewrite <- (Hrows cells) by (eapply list_elem_of_lookup_2; eauto). done. }
  unfold found_count. rewrite (reveal_at_alter _ _ _ Hget), (concat_alter_insert _ 3) by done.
  apply (filter_length_insert _ _ _ cell).
  - by eapply concat_lookup_rows.
  - rewrite Hw, Hr. discriminate.
  - unfold reveal_cell. simpl. by rewrite Hw.
Qed.

(** Revealing more cells does not lower the count. *)
Lemma found_count_mono b b' : reveal_le b b' -> (found_count b <= found_count b')%nat.
Proof.
  intros Hle. apply (filter_length_Forall2 _ (fun c c' => isWinning c' = isWinning c /\
    id c' = id c /\ (isRevealed c = true -> isRevealed c' = true))).
  - intros c c' (Hw & _ & Hr) Hc. apply andb_prop in Hc as [Hc1 Hc2].
    rewrite Hw, Hr by done. by rewrite Hc1.
  - by apply Forall2_concat_rows.
Qed.

Lemma concat_layout b : concat (layout b) = isWinning <$> concat b.
Proof. unfold layout. induction b as [|cells b IH]; csimpl; [done|]. by rewrite fmap_app, IH. Qed.

(** The winning cells and the mines make up the board. *)
Lemma winning_count_mines (l : list Cell) :
  (length (filter (fun cell => isWinning cell = true) l) + count_false (isWinning <$> l))%nat =
  length l.
Proof.
  unfold count_false. induction l as [|cell l IH]; [done|]. csimpl. rewrite !filter_cons.
  destruct (isWinning cell); repeat case_decide; csimpl; try congruence; lia.
Qed.

(** [gameProgress] counts [found_count] winning cells found. *)
Lemma gameProgress_counts st b :
  st <> IDLE -> b <> [] ->
  gameProgress st b =
    let t := Z.of_nat (length (filter (fun cell => isWinning cell = true) (concat b))) in
    mkProgress (Z.of_nat (found_count b)) t (Z.max 0 (t - Z.of_nat (found_count b))).
Proof.
  intros Hst Hb. unfold gameProgress. rewrite bool_decide_eq_false_2 by done.
  rewrite bool_decide_eq_false_2; [done|]. by intros ?%nil_length_inv.
Qed.

Lemma found_le_winning b :
  (found_count b <= length (filter (fun cell => isWinning cell = true) (concat b)))%nat.
Proof. apply filter_length_impl. intros cell ?%andb_prop. tauto. Qed.

(** ** The coins of a round stay small *)

Lemma coins_bound_start g : coins_bound g -> coins_bound (initializeGame_start g).
Proof. unfold coins_bound, initializeGame_start. intros. z_cases; simpl; lia. Qed.

Lemma coins_bound_flip p h h' :
  footer_inv (gameState h) -> flipCell p h = inr h' -> coins_bound (gameState h').
Proof.
  intros [Hg (Ha & Hc)] Hflip.
  destruct (decide (gameStatus (gameState h) = PLAYING)) as [Hst|Hst];
    [|unfold flipCell, status_is in Hflip; rewrite bool_decide_eq_false_2 in Hflip by done;
      injection Hflip as <-; split; assumption].
  rewrite flipCell_playing in Hflip by done.
  destruct (board_get _ p) as [cell|] eqn:Hget; [|discriminate].
  destruct (isRevealed cell) eqn:Hr; [injection Hflip as <-; split; assumption|].
  destruct (isWinning cell) eqn:Hw; injection Hflip as <-; unfold coins_bound; simpl; [|lia].
  destruct Hg as (_ & _ & _ & _ & Hok & Hplay).
  destruct (board_ok_rows _ Hok (Hplay Hst)) as [Hrows _].
  rewrite (found_count_reveal_at _ _ _ Hrows Hget Hw Hr). lia.
Qed.

Lemma footer_inv_step `{BP : BoardProvider} e s s' :
  event_ok e -> footer_inv (gameState (hook s)) -> sys_step e s = Some s' ->
  footer_inv (gameState (hook s')).
Proof.
  intros Hok Hinv Hs. split; [eapply game_inv_step; [exact Hok | apply Hinv | exact Hs]|].
  pose proof Hinv as [Hg Hb]. pose proof Hb as (Ha & Hc).
  destruct e; simpl in Hs.
  - inv_some. by apply coins_bound_start.
  - destruct (inflight s); inv_some. destruct result as [gd|]; unfold coins_bound; simpl; [|lia].
    destruct (event_ok_settle_wf _ Hok gd eq_refl) as (_ & _ & _ & Hamt).
    unfold BASE_AMOUNT_PER_WIN in Hamt. lia.
  - destruct (flipCell position (hook s)) eqn:Hf; inv_some. by eapply coins_bound_flip.
  - inv_some. unfold initiateCashOut. by destruct (canCashOut _).
  - inv_some. unfold coins_bound. simpl.
    pose proof (found_count_mono _ _ (reveal_le_revealAllCells (board (gameState (hook s))))).
    lia.
  - inv_some. done.
  - inv_some. done.
  - destruct (timers s); inv_some. by apply coins_bound_start.
  - inv_some. exact Hb.
  - inv_some. unfold coins_bound, resetGame, initialGameState, BASE_AMOUNT_PER_WIN. simpl. lia.
Qed.

Lemma footer_inv_reachable `{BP : BoardProvider} s :
  reachable s -> footer_inv (gameState (hook s)).
Proof.
  induction 1 as [|e s s' Hr IH Hok Hstep].
  - split; [apply game_inv_initial|].
    unfold coins_bound, initialSys, initialHook, initialGameState, BASE_AMOUNT_PER_WIN. simpl. lia.
  - by eapply footer_inv_step.
Qed.

(** Every reachable state holds at most 135 coins, on at most 9 cells. *)
Lemma reachable_coins `{BP : BoardProvider} s :
  reachable s ->
  let g := gameState (hook s) in
  10 <= amountPerWin g <= 15 /\ 0 <= currentCoins g <= 135 /\ (length (concat (board g)) <= 9)%nat.
Proof.
  intros Hr. destruct (footer_inv_reachable _ Hr) as [(_ & _ & _ & _ & Hok & _) (Ha & Hc)].
  pose proof (found_count_le (board (gameState (hook s)))). pose proof (board_ok_cells _ Hok).
  simpl. lia.
Qed.

(** ** The next-prize box *)

(** Look up one entry of a table of checks over two integer ranges. *)
Lemma forallb_seqZ2 (f : Z -> Z -> bool) (c0 n0 a0 n1 c a : Z) :
  forallb (fun c => forallb (fun a => f c a) (seqZ a0 n1)) (seqZ c0 n0) = true ->
  c0 <= c < c0 + n0 -> a0 <= a < a0 + n1 -> f c a = true.
Proof. intros Ht Hc Ha. exact (forallb_seqZ _ _ _ a (forallb_seqZ _ _ _ c Ht Hc) Ha). Qed.

(** The table, evaluated for every coins value up to 135 and every reward
    of [[10, 15]]. *)
Lemma next_tier_table_ok :
  forallb (fun c => forallb (fun a => next_tier_ok c a) (seqZ 10 6)) (seqZ 0 136) = true.
Proof. vm_compute. reflexivity. Qed.

(** With cells remaining, [nextPrizeInfo] is the next tier and the smaller
    of the coins needed and the cells remaining. *)
Lemma nextPrizeInfo_playing f t r c a :
  0 < r ->
  nextPrizeInfo PLAYING (mkProgress f t r) c a =
    match nextTier (currentDollars c) with
    | Some tier =>
        NextTier (tier_amount tier) (js_min (coinsNeeded tier (currentDollars c) a) (js_number r))
    | None => Progress f t
    end.
Proof.
  intros Hr. unfold nextPrizeInfo. cbv beta iota zeta delta [remaining total found].
  replace (r =? 0) with false by lia. replace (0 <? r) with true by lia.
  cbv beta iota. by destruct (nextTier _).
Qed.

Lemma next_tier_at f t c a r :
  0 <= c <= 135 -> 10 <= a <= 15 -> 1 <= r <= 9 ->
  nextPrizeInfo PLAYING (mkProgress f t r) c a = NextTier 75 (js_number r).
Proof.
  intros Hc Ha Hr. rewrite nextPrizeInfo_playing by lia.
  pose proof (forallb_seqZ2 next_tier_ok 0 136 10 6 c a next_tier_table_ok ltac:(lia) ltac:(lia))
    as Hok.
  unfold next_tier_ok in Hok. destruct (nextTier (currentDollars c)) as [tier|]; [|discriminate].
  apply andb_prop in Hok as [H75 Hall]. apply bool_decide_eq_true_1 in H75. rewrite H75.
  rewrite forallb_forall in Hall. specialize (Hall r).
  rewrite <- list_elem_of_In, elem_of_seqZ in Hall. specialize (Hall ltac:(lia)).
  apply bool_decide_eq_true_1 in Hall. by rewrite Hall.
Qed.

Lemma layout_cells b : length (concat (layout b)) = length (concat b).
Proof. by rewrite concat_layout, length_fmap. Qed.

(** ** What the footer shows *)

(** C31: In every state the session reaches, whatever the interleaving, no
    coin tier of the footer is ever lit: a round holds at most 8 winning
    cells of at most 15 coins, far below the 7500 coins ([$75]) of the first
    tier, because [tierAchievements] compares the round's [currentCoins],
    not the bankroll, with the tiers. *)
Theorem footer_tiers_never_lit `{BP : BoardProvider} s :
  reachable s -> tierAchievements (currentCoins (gameState (hook s))) = [false; false; false].
Proof.
  intros Hr. destruct (reachable_coins _ Hr) as (_ & Hc & _).
  unfold tierAchievements, COIN_TIERS. simpl.
  by rewrite !bool_decide_eq_false_2 by lia.
Qed.

(** While a round is [PLAYING] with winning cells left, [nextPrizeInfo]
    is the first tier and the remaining count, at most 9. *)
Lemma next_prize_playing_at `{BP : BoardProvider} s :
  reachable s ->
  let g := gameState (hook s) in
  let p := gameProgress (gameStatus g) (board g) in
  gameStatus g = PLAYING -> 0 < remaining p ->
  remaining p <= 9 /\
  nextPrizeInfo (gameStatus g) p (currentCoins g) (amountPerWin g) =
    NextTier 75 (js_number (remaining p)).
Proof.
  intros Hr g p Hst Hrem. destruct (reachable_coins _ Hr) as (Ha & Hc & Hcells).
  subst p g. rewrite Hst in *.
  destruct (decide (board (gameState (hook s)) = [])) as [Hnil|Hne];
    [rewrite Hnil in Hrem; unfold gameProgress in Hrem; simpl in Hrem; lia|].
  rewrite gameProgress_counts in * by done. simpl in *.
  pose proof (length_filter (fun cell => isWinning cell = true) (concat (board (gameState (hook s))))).
  split; [lia | apply next_tier_at; lia].
Qed.

(** C32: In every state the session reaches, while a round is [PLAYING]
    with winning cells left, the next-prize box reads 'NEXT: $75' and the
    wins needed are exactly the winning cells remaining: the IEEE
    computation [Math.ceil((75 - coins / 100) / (amountPerWin / 100))] is
    always above the remaining count, so [Math.min] returns it. *)
Theorem footer_next_prize_playing `{BP : BoardProvider} s :
  reachable s ->
  let g := gameState (hook s) in
  let p := gameProgress (gameStatus g) (board g) in
  gameStatus g = PLAYING -> 0 < remaining p ->
  nextPrizeInfo (gameStatus g) p (currentCoins g) (amountPerWin g) =
    NextTier 75 (js_number (remaining p)).
Proof. intros Hr g p Hst Hrem. exact (proj2 (next_prize_playing_at s Hr Hst Hrem)). Qed.

(** C33: The round a provider board starts shows no winning cell found, out
    of [9 - mines], all of them remaining. *)
Theorem gameProgress_fresh_round gd :
  game_wf gd ->
  gameProgress PLAYING (createGameBoard (game_board gd)) =
    mkProgress 0 (9 - count_mines (game_board gd)) (9 - count_mines (game_board gd)).
Proof.
  intros ((Hlen & Hrows) & _ & Hlt & _).
  set (b := createGameBoard (game_board gd)).
  assert (Hl : layout b = game_board gd) by apply layout_createGameBoard.
  assert (H9 : length (concat b) = 9%nat).
  { rewrite <- layout_cells, Hl. unfold BOARD_SIZE in *.
    rewrite (length_concat_rows _ 3) by (eapply list.Forall_impl; [exact Hrows|]; simpl; lia).
    lia. }
  assert (Hf : found_count b = 0%nat).
  { apply filter_length_none, Forall_concat_rows.
    eapply list.Forall_impl; [apply createGameBoard_unrevealed|]. intros cells Hc.
    eapply list.Forall_impl; [exact Hc|]. intros cell Hr. rewrite Hr, andb_false_r. done. }
  pose proof (winning_count_mines (concat b)) as Hw.
  rewrite <- concat_layout, Hl, H9 in Hw. unfold count_mines.
  rewrite gameProgress_counts; [|done|].
  - simpl. rewrite Hf. f_equal; lia.
  - intros Hnil. rewrite Hnil in H9. done.
Qed.

(** C34: The progress counts are consistent: [0 <= found <= total], the
    [Math.max(0, ...)] of [remaining] never applies ([remaining = total -
    found]), and no more winning cells are counted than the board has. *)
Theorem gameProgress_bounds st b :
  let p := gameProgress st b in
  0 <= found p <= total p /\ remaining p = total p - found p /\
  total p <= Z.of_nat (length (concat b)).
Proof.
  intros p. subst p.
  destruct (decide (st = IDLE)) as [->|Hst]; [unfold gameProgress; simpl; lia|].
  destruct (decide (b = [])) as [->|Hb]; [unfold gameProgress; simpl; case_bool_decide; simpl; lia|].
  rewrite gameProgress_counts by done. simpl.
  pose proof (found_le_winning b).
  pose proof (length_filter (fun cell => isWinning cell = true) (concat b)). lia.
Qed.

(** ** Witnesses *)

Lemma sample_round_reachable s :
  run sample_round initialSys = Some s -> reachable (BP := gameApi_provider) s.
Proof.
  apply run_reachable; [apply reach_init|]. repeat constructor. apply sample_game_provided.
Qed.

Lemma sample_game_wf : game_wf sample_game.
Proof.
  split; [split; [reflexivity | repeat constructor] |].
  vm_compute. repeat split; discriminate.
Qed.

Lemma footer_tiers_never_lit_witness :
  match run sample_round initialSys with
  | Some s => tierAchievements (currentCoins (gameState (hook s))) = [false; false; false]
  | None => False
  end.
Proof.
  destruct (run sample_round initialSys) as [s|] eqn:Hrun; [|vm_compute in Hrun; discriminate].
  apply footer_tiers_never_lit. exact (sample_round_reachable _ Hrun).
Defined.

Lemma footer_next_prize_playing_witness :
  match run sample_round initialSys with
  | Some s =>
      nextPrizeInfo PLAYING (gameProgress PLAYING (board (gameState (hook s))))
        (currentCoins (gameState (hook s))) (amountPerWin (gameState (hook s))) =
      NextTier 75 (js_number 7)
  | None => False
  end.
Proof.
  destruct (run sample_round initialSys) as [s|] eqn:Hrun; [|vm_compute in Hrun; discriminate].
  pose proof Hrun as Hs. vm_compute in Hs. injection Hs as <-.
  apply (footer_next_prize_playing _ (sample_round_reachable _ Hrun)); vm_compute; reflexivity.
Defined.

Lemma gameProgress_fresh_round_witness :
  gameProgress PLAYING (createGameBoard (game_board sample_game)) =
    mkProgress 0 (9 - count_mines (game_board sample_game)) (9 - count_mines (game_board sample_game)).
Proof. apply gameProgress_fresh_round. exact sample_game_wf. Defined.

End GameFooter.
