(* ===== verification/Format.v ===== *)
(** * Format: how JavaScript prints the numbers the components show.

  The components print numbers three ways: [Number.prototype.toFixed]
  ([CashOutModal]'s and [GameFooter]'s dollar amounts, [AnimatedNumber]
  with [decimals > 0]), [Math.round(x).toString()] ([AnimatedNumber] with
  [decimals = 0]) and template interpolation ([GameFooter]'s counts and
  wins needed, [GameCell]'s animation delay), which is [Number::toString].
  This file writes down the algorithms of ECMA-262 for them on binary64
  values ([GameFooter.double]), exactly: a finite double is [m * 2^e], and
  every step is computed on that exact rational with integers.
  [toFixed(f)] picks the integer nearest to [x * 10^f] (the larger on a
  tie) and falls back to [ToString(x)] from [10^21] on.
  [number_toString] finds the decimal exponent [n] ([exp10]) and, for
  [k = 1 .. 17], the [k]-digit integers [s] around [x * 10^(k-n)] whose
  decimal [s * 10^(n-k)] reads back as [x] ([reads_back]: within the
  rounding interval of [x], ties to even), keeps the first [k] that has
  one and the closest such [s], and writes it plainly, with a decimal
  point, with leading zeros or in exponent notation.

  Lemmas: the search for the shortest digits always succeeds within 17
  digits ([shortest_total]), so the unreachable branch of
  [number_toString] is never taken on a valid double; [toFixed(2)] of
  [coins / 100] prints the coins as dollars and cents, digit for digit,
  and [n.toString()] and [Math.round(n).toString()] the digits of [n],
  for every [coins] and
  [n] from 0 to 999 (the reachable balances are at most 135 coins), both
  checked entry by entry by evaluation ([vm_compute]) of a table; and the
  outputs of JavaScript on sample values, exponent notation included. *)

From Stdlib Require Import ZArith Lia SpecFloat Ascii.
From stdpp Require Import base list list_numbers decidable strings pretty.
From S2P Require Import Prelude Footer.

Open Scope Z_scope.

Module JsFormat.
Import GameFooter.

(** ** Exact values *)

(** The value of a finite double, as the fraction [num / den] with
    [den] a power of 2. *)
Definition df_num (s : bool) (m : positive) (e : Z) : Z :=
  (if s then -1 else 1) * Z.pos m * (if 0 <=? e then 2 ^ e else 1).

Definition df_den (e : Z) : Z := if 0 <=? e then 1 else 2 ^ (- e).

(** The decimal digits of a non-negative integer. *)
Definition digits (n : Z) : string := pretty (Z.to_N n).

Fixpoint zeros (k : nat) : string :=
  match k with O => "" | S k' => String "0"%char (zeros k') end.

(** A string given by its UTF-8 bytes, for the text outside ASCII that
    the sources hold. *)
Definition utf8 (bytes : list N) : string :=
  foldr (fun n s => String (Ascii.ascii_of_N n) s) "" bytes.

(** ** [Number::toString] *)

(** The number of decimal digits of a positive integer, with the bits of
    [v] as fuel (each step divides by 10). *)
Fixpoint dig10_go (fuel : nat) (v : Z) : Z :=
  match fuel with
  | O => 1
  | S f => if v <? 10 then 1 else 1 + dig10_go f (v / 10)
  end.

Definition dig10 (v : Z) : Z := dig10_go (Pos.to_nat (Pos.size (Z.to_pos v))) v.

(** [num / den >= 10^t], on integers. *)
Definition ge10 (num den t : Z) : bool :=
  if 0 <=? t then den * 10 ^ t <=? num else den <=? num * 10 ^ (- t).

(** The [n] of step 5: [10^(n-1) <= num / den < 10^n]. *)
Definition exp10 (num den : Z) : Z :=
  let t := dig10 num - dig10 den in
  if ge10 num den t then t + 1 else t.

(** [x * 10^(k-n)] for [x = m * 2^e], as the fraction [sc_num / sc_den]. *)
Definition sc_num (m : positive) (e k n : Z) : Z := df_num false m e * 10 ^ Z.max (k - n) 0.

Definition sc_den (e k n : Z) : Z := df_den e * 10 ^ Z.max (n - k) 0.

(** Whether the decimal [c * 10^(n-k)] is read back as the double
    [x = m * 2^e] (round to nearest, ties to even), [P / Q] being
    [x * 10^(k-n)].  The doubles around [x] are [2^e] away, [2^(e-1)] below
    a power of 2 that is not the least normal exponent; the distance
    [2^(e-1) = x / (2m)] (or [x / (4m)]) scales to [P / (2m)] (or
    [P / (4m)]), and the bound itself belongs to [x] when [m] is even. *)
Definition reads_back (m : positive) (e P Q c : Z) : bool :=
  let d := c * Q - P in
  let up := 2 * Z.pos m in
  let low := if (Z.pos m =? 2 ^ 52) && (-1074 <? e) then 4 * Z.pos m else 2 * Z.pos m in
  let within r := if Z.even (Z.pos m) then r <=? P else r <? P in
  if 0 <=? d then within (up * d) else within (low * - d).

(** Step 5 for a given [k]: of the two integers around [x * 10^(k-n)], the
    ones that read back as [x], the closest to it (the even one on a tie);
    [10^k] is written [10^(k-1)] with [n + 1]. *)
Definition digits_at (m : positive) (e n k : Z) : option (Z * Z) :=
  let P := sc_num m e k n in
  let Q := sc_den e k n in
  let lo := P / Q in
  let hi := lo + 1 in
  let vlo := reads_back m e P Q lo in
  let vhi := negb (P mod Q =? 0) && reads_back m e P Q hi in
  let pick c := if c =? 10 ^ k then (10 ^ (k - 1), n + 1) else (c, n) in
  let r := 2 * (P - lo * Q) in
  match vlo, vhi with
  | true, true => Some (pick (if r <? Q then lo else if Q <? r then hi else if Z.even lo then lo else hi))
  | true, false => Some (pick lo)
  | false, true => Some (pick hi)
  | false, false => None
  end.

(** The least [k] in [ks] with digits, and [s], [k], [n]. *)
Fixpoint first_digits (m : positive) (e n : Z) (ks : list Z) : option (Z * Z * Z) :=
  match ks with
  | [] => None
  | k :: ks' =>
      match digits_at m e n k with
      | Some (s, n') => Some (s, k, n')
      | None => first_digits m e n ks'
      end
  end.

(** Step 5: the shortest [s], [k] from 1 to 17 digits. *)
Definition shortest (m : positive) (e : Z) : option (Z * Z * Z) :=
  first_digits m e (exp10 (df_num false m e) (df_den e)) (seqZ 1 17).

(** Steps 6 to 10: plain digits, a decimal point, leading zeros, or the
    exponent notation. *)
Definition format_decimal (s k n : Z) : string :=
  let ds := digits s in
  if (k <=? n) && (n <=? 21) then ds +:+ zeros (Z.to_nat (n - k))
  else if (0 <? n) && (n <=? 21) then
    String.substring 0 (Z.to_nat n) ds +:+ "." +:+ String.substring (Z.to_nat n) (Z.to_nat (k - n)) ds
  else if (-6 <? n) && (n <=? 0) then "0." +:+ zeros (Z.to_nat (- n)) +:+ ds
  else
    let es := (if 0 <=? n - 1 then "+" else "-") +:+ digits (Z.abs (n - 1)) in
    if k =? 1 then ds +:+ "e" +:+ es
    else String.substring 0 1 ds +:+ "." +:+ String.substring 1 (Z.to_nat (k - 1)) ds +:+ "e" +:+ es.

(** [Number::toString(x)] (ECMA-262, radix 10).  The empty string is
    unreachable for a valid double ([shortest_total]). *)
Definition number_toString (x : double) : string :=
  match x with
  | S754_nan => "NaN"
  | S754_zero _ => "0"
  | S754_infinity s => if s then "-Infinity" else "Infinity"
  | S754_finite s m e =>
      (if s then "-" else "") +:+
      match shortest m e with Some (d, k, n) => format_decimal d k n | None => "" end
  end.

(** ** [Math.round] *)

(** [Math.round(x)]: the integer nearest to [x], ties toward [+Infinity];
    [-0] for [-0.5 <= x < 0], and [x] itself when it is already integral,
    infinite, NaN or a zero. *)
Definition js_round (x : double) : double :=
  match x with
  | S754_finite s m e =>
      if 0 <=? e then x
      else
        let num := df_num s m e in
        let den := df_den e in
        let n := (2 * num + den) / (2 * den) in
        if n =? 0 then S754_zero s else js_number n
  | _ => x
  end.

(** ** [Number.prototype.toFixed] *)

(** Step 10 of [toFixed] once [n] is known: its digits, padded with zeros
    to at least [f + 1] digits, and a point before the last [f]. *)
Definition fixed_digits (n : Z) (f : nat) : string :=
  let m := if n =? 0 then "0" else digits n in
  if (f =? 0)%nat then m
  else
    let k := String.length m in
    let m' := if (k <=? f)%nat then zeros (S f - k) +:+ m else m in
    let k' := String.length m' in
    String.substring 0 (k' - f) m' +:+ "." +:+ String.substring (k' - f) f m'.

(** [x.toFixed(f)]: from [10^21] on, [ToString(x)]. *)
Definition js_toFixed (f : nat) (x : double) : string :=
  match x with
  | S754_nan => "NaN"
  | S754_infinity s => if s then "-Infinity" else "Infinity"
  | S754_zero _ => fixed_digits 0 f
  | S754_finite s m e =>
      let num := df_num false m e in
      let den := df_den e in
      (if s then "-" else "") +:+
      (if 10 ^ 21 * den <=? num then number_toString (S754_finite false m e)
       else fixed_digits ((2 * num * 10 ^ Z.of_nat f + den) / (2 * den)) f)
  end.

(** ** Dollars and cents *)

(** The amount of [coins] cents written as dollars: the dollars, a point
    and two digits of cents. *)
Definition cents_string (coins : Z) : string :=
  digits (coins / 100) +:+ "." +:+ digits (coins mod 100 / 10) +:+ digits (coins mod 10).

(** One entry of the table: [(coins / 100).toFixed(2)] prints as
    [cents_string coins]. *)
Definition cents_ok (coins : Z) : bool :=
  bool_decide (js_toFixed 2 (js_div (js_number coins) (js_number 100)) = cents_string coins).

(** One entry of the table: [Math.round(n).toString()] is [n]'s digits. *)
Definition round_ok (n : Z) : bool :=
  bool_decide (number_toString (js_round (js_number n)) = digits n).

(** One entry of the table: [n.toString()] of an integer is [n]'s digits. *)
Definition int_ok (n : Z) : bool :=
  bool_decide (number_toString (js_number n) = digits n).

(** ** Theorems *)

Lemma cents_table : forallb cents_ok (seqZ 0 1000) = true.
Proof. vm_compute. reflexivity. Qed.

Lemma round_table : forallb round_ok (seqZ 0 1000) = true.
Proof. vm_compute. reflexivity. Qed.

(** [(coins / 100).toFixed(2)], computed in binary64 and printed by the
    [toFixed] algorithm, is exactly the dollars, a point and the two digits
    of cents of [coins] for every amount from 0 to 999 coins: the division
    by 100 never shows a rounding error at two decimals. *)
Lemma toFixed2_cents (coins : Z) :
  0 <= coins < 1000 ->
  js_toFixed 2 (js_div (js_number coins) (js_number 100)) = cents_string coins.
Proof.
  intros Hc. pose proof (forallb_seqZ _ 0 1000 coins cents_table ltac:(lia)) as H.
  unfold cents_ok in H. exact (bool_decide_eq_true_1 _ H).
Qed.

(** [Math.round(n).toString()] prints [n]'s decimal digits for every
    integer from 0 to 999. *)
Lemma round_toString_digits (n : Z) :
  0 <= n < 1000 -> number_toString (js_round (js_number n)) = digits n.
Proof.
  intros Hn. pose proof (forallb_seqZ _ 0 1000 n round_table ltac:(lia)) as H.
  unfold round_ok in H. exact (bool_decide_eq_true_1 _ H).
Qed.

Lemma int_table : forallb int_ok (seqZ 0 1000) = true.
Proof. vm_compute. reflexivity. Qed.

(** [n.toString()] (and [`${n}`]) prints [n]'s decimal digits for every
    integer from 0 to 999. *)
Lemma number_toString_int (n : Z) :
  0 <= n < 1000 -> number_toString (js_number n) = digits n.
Proof.
  intros Hn. pose proof (forallb_seqZ _ 0 1000 n int_table ltac:(lia)) as H.
  unfold int_ok in H. exact (bool_decide_eq_true_1 _ H).
Qed.

(** ** The search for the shortest digits always succeeds *)

Lemma pow10_exponent_pos d v : 1 <= v -> v < 10 ^ d -> 1 <= d.
Proof.
  intros Hv Hd. destruct (Z.leb_spec 1 d); [done|].
  destruct (Z.eq_dec d 0) as [->|]; [simpl in Hd; lia | rewrite Z.pow_neg_r in Hd by lia; lia].
Qed.

Lemma dig10_go_spec fuel v :
  0 < v < 10 ^ Z.of_nat fuel -> 10 ^ (dig10_go fuel v - 1) <= v < 10 ^ dig10_go fuel v.
Proof.
  revert v. induction fuel as [|f IH]; intros v Hv; [simpl in Hv; lia|].
  simpl. destruct (Z.ltb_spec v 10); [simpl; lia|].
  rewrite Nat2Z.inj_succ, Z.pow_succ_r in Hv by lia.
  destruct (IH (v / 10)) as [Hlo Hhi]; [split; [apply Z.div_str_pos; lia | apply Z.div_lt_upper_bound; lia]|].
  assert (1 <= v / 10) by (apply Z.div_le_lower_bound; lia).
  pose proof (pow10_exponent_pos _ (v / 10) ltac:(lia) Hhi).
  set (d := dig10_go f (v / 10)) in *.
  assert (10 ^ d = 10 * 10 ^ (d - 1)) by (rewrite <- Z.pow_succ_r by lia; f_equal; lia).
  assert (10 ^ (1 + d) = 100 * 10 ^ (d - 1)) by (rewrite Z.pow_add_r by lia; lia).
  replace (1 + d - 1) with d by lia.
  pose proof (Z.mod_pos_bound v 10). pose proof (Z.div_mod v 10). lia.
Qed.

(** [dig10 v] is the number of digits of [v]. *)
Lemma dig10_spec v : 0 < v -> 1 <= dig10 v /\ 10 ^ (dig10 v - 1) <= v < 10 ^ dig10 v.
Proof.
  intros Hv. unfold dig10. destruct v as [|p|p]; try lia. simpl.
  assert (Z.pos p < 2 ^ Z.pos (Pos.size p)) as Hs by (rewrite <- Pos2Z.inj_pow; exact (Pos.size_gt p)).
  assert (2 ^ Z.pos (Pos.size p) <= 10 ^ Z.of_nat (Pos.to_nat (Pos.size p))).
  { rewrite positive_nat_Z. apply Z.pow_le_mono_l. lia. }
  destruct (dig10_go_spec (Pos.to_nat (Pos.size p)) (Z.pos p)) as [Hlo Hhi]; [lia|].
  split; [exact (pow10_exponent_pos _ (Z.pos p) ltac:(lia) Hhi) | done].
Qed.

(** The [n] found satisfies [10^(n-1) <= x]. *)
Lemma exp10_lower num den : 0 < num -> 0 < den -> ge10 num den (exp10 num den - 1) = true.
Proof.
  intros Hn Hd. unfold exp10.
  destruct (dig10_spec num Hn) as (H1 & Hn1 & _), (dig10_spec den Hd) as (H2 & _ & Hd2).
  set (d1 := dig10 num) in *. set (d2 := dig10 den) in *.
  destruct (ge10 num den (d1 - d2)) eqn:Hge; [by replace (d1 - d2 + 1 - 1) with (d1 - d2) by lia|].
  unfold ge10. destruct (Z.leb_spec 0 (d1 - d2 - 1)); apply Z.leb_le.
  - assert (10 ^ (d1 - 1) = 10 ^ d2 * 10 ^ (d1 - d2 - 1)) by (rewrite <- Z.pow_add_r by lia; f_equal; lia).
    pose proof (Z.pow_pos_nonneg 10 (d1 - d2 - 1)). nia.
  - assert (10 ^ d2 = 10 ^ (d1 - 1) * 10 ^ (- (d1 - d2 - 1))) by (rewrite <- Z.pow_add_r by lia; f_equal; lia).
    pose proof (Z.pow_pos_nonneg 10 (- (d1 - d2 - 1))). nia.
Qed.

(** From [10^(n-1) <= num / den]: [x * 10^(k-n) >= 10^(k-1)]. *)
Lemma ge10_scaled num den n k :
  1 <= k -> 0 <= num -> ge10 num den (n - 1) = true ->
  10 ^ (k - 1) * (den * 10 ^ Z.max (n - k) 0) <= num * 10 ^ Z.max (k - n) 0.
Proof.
  intros Hk Hn. unfold ge10. destruct (Z.leb_spec 0 (n - 1)); rewrite Z.leb_le; intros Hge.
  - destruct (Z.leb_spec n k).
    + rewrite (Z.max_r (n - k)), (Z.max_l (k - n)) by lia.
      replace (k - 1) with ((n - 1) + (k - n)) by lia. rewrite Z.pow_add_r, Z.pow_0_r by lia.
      pose proof (Z.pow_pos_nonneg 10 (k - n)). nia.
    + rewrite (Z.max_l (n - k)), (Z.max_r (k - n)) by lia. rewrite Z.pow_0_r.
      assert (10 ^ (k - 1) * 10 ^ (n - k) = 10 ^ (n - 1)) by (rewrite <- Z.pow_add_r by lia; f_equal; lia).
      nia.
  - rewrite (Z.max_r (n - k)), (Z.max_l (k - n)) by lia. rewrite Z.pow_0_r.
    replace (k - n) with (- (n - 1) + (k - 1)) by lia. rewrite Z.pow_add_r by lia.
    pose proof (Z.pow_pos_nonneg 10 (k - 1)). nia.
Qed.

(** The [n] found satisfies [x < 10^n]. *)
Lemma exp10_upper num den : 0 < num -> 0 < den -> ge10 num den (exp10 num den) = false.
Proof.
  intros Hn Hd. unfold exp10.
  destruct (dig10_spec num Hn) as (H1 & _ & Hn2), (dig10_spec den Hd) as (H2 & Hd1 & _).
  set (d1 := dig10 num) in *. set (d2 := dig10 den) in *.
  destruct (ge10 num den (d1 - d2)) eqn:Hge; [|done].
  unfold ge10. destruct (Z.leb_spec 0 (d1 - d2 + 1)); apply Z.leb_gt.
  - assert (10 ^ d1 = 10 ^ (d2 - 1) * 10 ^ (d1 - d2 + 1)) by (rewrite <- Z.pow_add_r by lia; f_equal; lia).
    pose proof (Z.pow_pos_nonneg 10 (d1 - d2 + 1)). nia.
  - assert (10 ^ (d2 - 1) = 10 ^ d1 * 10 ^ (- (d1 - d2 + 1))) by (rewrite <- Z.pow_add_r by lia; f_equal; lia).
    pose proof (Z.pow_pos_nonneg 10 (- (d1 - d2 + 1))). nia.
Qed.

(** From [num / den < 10^n]: [x * 10^(k-n) < 10^k]. *)
Lemma lt10_scaled num den n k :
  1 <= k -> 0 <= num -> 0 <= den -> ge10 num den n = false ->
  num * 10 ^ Z.max (k - n) 0 < 10 ^ k * (den * 10 ^ Z.max (n - k) 0).
Proof.
  intros Hk Hn Hd. unfold ge10. destruct (Z.leb_spec 0 n); rewrite Z.leb_gt; intros Hlt.
  - destruct (Z.leb_spec n k).
    + rewrite (Z.max_r (n - k)), (Z.max_l (k - n)) by lia. rewrite Z.pow_0_r.
      replace k with (n + (k - n)) at 2 by lia. rewrite Z.pow_add_r by lia.
      pose proof (Z.pow_pos_nonneg 10 (k - n)). nia.
    + rewrite (Z.max_l (n - k)), (Z.max_r (k - n)) by lia. rewrite Z.pow_0_r.
      assert (10 ^ k * 10 ^ (n - k) = 10 ^ n) by (rewrite <- Z.pow_add_r by lia; f_equal; lia).
      nia.
  - rewrite (Z.max_r (n - k)), (Z.max_l (k - n)) by lia. rewrite Z.pow_0_r.
    replace (k - n) with (- n + k) by lia. rewrite Z.pow_add_r by lia.
    pose proof (Z.pow_pos_nonneg 10 k). nia.
Qed.

Lemma digits2_pos_size p : digits2_pos p = Pos.size p.
Proof. induction p; simpl; congruence. Qed.

(** A valid double's mantissa has at most 53 bits. *)
Lemma bounded_mantissa m e : bounded 53 1024 m e = true -> Z.pos m < 2 ^ 53.
Proof.
  unfold bounded, canonical_mantissa, fexp, emin. intros [Hc _]%andb_prop.
  apply Z.eqb_eq in Hc. rewrite digits2_pos_size in Hc.
  assert (Z.pos m < 2 ^ Z.pos (Pos.size m)) as Hs by (rewrite <- Pos2Z.inj_pow; exact (Pos.size_gt m)).
  assert (Z.pos (Pos.size m) <= 53) by lia.
  pose proof (Z.pow_le_mono_r 2 (Z.pos (Pos.size m)) 53 ltac:(lia) ltac:(lia)). lia.
Qed.

Lemma gap_lt mul a P Q :
  0 <= mul <= 2 ^ 54 -> 0 <= a -> 2 * a <= Q -> 0 < Q -> 10 ^ 16 * Q <= P -> mul * a < P.
Proof.
  intros Hmul Ha HaQ HQ HP. assert (mul * a <= 2 ^ 54 * a) by (apply Z.mul_le_mono_nonneg_r; lia).
  lia.
Qed.

Section Shortest.
Context (m : positive) (e : Z).
Hypothesis Hm : Z.pos m < 2 ^ 53.

(** A candidate within half a unit of [x * 10^(k-n)] reads back as [x]
    once [x * 10^(k-n) >= 10^16]: the unit [10^(n-k)] is below [x / 2^53]
    and the doubles around [x] are [x / 2^54] away at least. *)
Lemma reads_back_close P Q c :
  0 < Q -> 10 ^ 16 * Q <= P -> 2 * Z.abs (c * Q - P) <= Q -> reads_back m e P Q c = true.
Proof.
  intros HQ HP Hc. unfold reads_back. cbv zeta.
  assert (0 <= (if (Z.pos m =? 2 ^ 52) && (-1074 <? e) then 4 * Z.pos m else 2 * Z.pos m) <= 2 ^ 54)
    as Hlow by (destruct (Z.eqb_spec (Z.pos m) (2 ^ 52)); simpl; [destruct (-1074 <? e)|]; lia).
  revert Hlow. generalize (if (Z.pos m =? 2 ^ 52) && (-1074 <? e) then 4 * Z.pos m else 2 * Z.pos m).
  intros low Hlow. destruct (Z.abs_spec (c * Q - P)) as [[? Habs]|[? Habs]]; rewrite Habs in Hc;
    destruct (Z.even (Z.pos m)), (Z.leb_spec 0 (c * Q - P)); try lia;
    rewrite ?Z.leb_le, ?Z.ltb_lt; try apply Z.lt_le_incl; apply (gap_lt _ _ _ Q); lia.
Qed.

(** With [x * 10^(k-n) >= 10^16], one of the two integers around it reads
    back, so step 5 has digits at that [k]. *)
Lemma digits_at_close n k :
  10 ^ 16 * sc_den e k n <= sc_num m e k n -> is_Some (digits_at m e n k).
Proof.
  intros HP. unfold digits_at.
  assert (0 < sc_den e k n).
  { unfold sc_den, df_den. apply Z.mul_pos_pos; [case_match; [lia|] |]; apply Z.pow_pos_nonneg; lia. }
  set (P := sc_num m e k n) in *. set (Q := sc_den e k n) in *.
  pose proof (Z.div_mod P Q ltac:(lia)). pose proof (Z.mod_pos_bound P Q ltac:(lia)).
  destruct (Z.leb_spec (2 * (P mod Q)) Q).
  - rewrite (reads_back_close P Q (P / Q)) by (done || lia).
    destruct (_ && _); by eexists.
  - rewrite (reads_back_close P Q (P / Q + 1)) by (done || lia).
    replace (P mod Q =? 0) with false by lia. simpl. destruct (reads_back _ _ _ _ _); by eexists.
Qed.

Lemma first_digits_some n k ks :
  k ∈ ks -> is_Some (digits_at m e n k) -> is_Some (first_digits m e n ks).
Proof.
  induction ks as [|k' ks IH]; [by intros ?%elem_of_nil|].
  intros [->|Hk]%elem_of_cons Hs; simpl.
  - destruct Hs as [[s n'] ->]. by eexists.
  - destruct (digits_at m e n k') as [[]|]; [by eexists | auto].
Qed.

(** The digits found at [k] have [k] digits when [x * 10^(k-n)] lies in
    [[10^(k-1), 10^k)]. *)
Lemma digits_at_range n k d n' :
  1 <= k -> 0 < sc_den e k n ->
  10 ^ (k - 1) * sc_den e k n <= sc_num m e k n < 10 ^ k * sc_den e k n ->
  digits_at m e n k = Some (d, n') -> 10 ^ (k - 1) <= d < 10 ^ k.
Proof.
  intros Hk HQ [Hlo Hhi]. unfold digits_at. cbv zeta.
  set (P := sc_num m e k n) in *. set (Q := sc_den e k n) in *.
  assert (10 ^ (k - 1) <= P / Q) by (apply Z.div_le_lower_bound; lia).
  assert (P / Q < 10 ^ k) by (apply Z.div_lt_upper_bound; lia).
  assert (10 ^ (k - 1) < 10 ^ k) by (apply Z.pow_lt_mono_r; lia).
  intros Hres. repeat (case_match; simplify_eq/=); lia.
Qed.

Lemma first_digits_in (Pr : Z -> Z -> Prop) n ks d k n' :
  (forall k d n', k ∈ ks -> digits_at m e n k = Some (d, n') -> Pr k d) ->
  first_digits m e n ks = Some (d, k, n') -> k ∈ ks /\ Pr k d.
Proof.
  induction ks as [|k0 ks IH]; [done|]. intros HPr. simpl.
  destruct (digits_at m e n k0) as [[d0 n0]|] eqn:Hd.
  - intros [= <- <- <-]. split; [left | eapply HPr; [left | done]].
  - intros Hf. destruct IH as [Hk HP]; [intros; eapply HPr; [right|]; done | done |].
    split; [by right | done].
Qed.

End Shortest.

Lemma shortest_some m e : bounded 53 1024 m e = true -> is_Some (shortest m e).
Proof.
  intros Hb. pose proof (bounded_mantissa m e Hb) as Hm. unfold shortest.
  assert (0 < df_num false m e) by (unfold df_num; case_match; [pose proof (Z.pow_pos_nonneg 2 e)|]; lia).
  assert (0 < df_den e) by (unfold df_den; case_match; [|apply Z.pow_pos_nonneg]; lia).
  apply (first_digits_some m e _ 17); [apply elem_of_seqZ; lia|].
  apply digits_at_close; [done|]. unfold sc_num, sc_den.
  apply (ge10_scaled (df_num false m e) (df_den e) _ 17); [lia | lia | by apply exp10_lower].
Qed.

(** Step 5 of [Number::toString] always finds its digits: for every
    valid finite double the search over [k = 1 .. 17] returns a [k]-digit
    integer [s] ([10^(k-1) <= s < 10^k]) whose decimal reads back as the
    double, so [number_toString] never takes its unreachable branch and
    writes exactly [k] significant digits. *)
Theorem shortest_total m e :
  bounded 53 1024 m e = true ->
  exists d k n, shortest m e = Some (d, k, n) /\ 1 <= k <= 17 /\ 10 ^ (k - 1) <= d < 10 ^ k.
Proof.
  intros Hb. destruct (shortest_some m e Hb) as [[[d k] n] Hs]. exists d, k, n. split; [done|].
  assert (0 < df_num false m e) by (unfold df_num; case_match; [pose proof (Z.pow_pos_nonneg 2 e)|]; lia).
  assert (0 < df_den e) by (unfold df_den; case_match; [|apply Z.pow_pos_nonneg]; lia).
  unfold shortest in Hs. set (n0 := exp10 _ _) in Hs.
  apply (first_digits_in m e (fun k d => 1 <= k <= 17 /\ 10 ^ (k - 1) <= d < 10 ^ k)) in Hs as [_ HPr]; [done|].
  intros k' d' n' Hk'%elem_of_seqZ Hd'. split; [lia|].
  assert (0 < sc_den e k' n0) by (unfold sc_den; apply Z.mul_pos_pos; [|apply Z.pow_pos_nonneg]; lia).
  apply (digits_at_range m e n0 k' d' n'); [lia | done | | done]. unfold sc_num, sc_den. split.
  - apply (ge10_scaled (df_num false m e) (df_den e)); [lia | lia | by apply exp10_lower].
  - apply (lt10_scaled (df_num false m e) (df_den e)); [lia | lia | lia | by apply exp10_upper].
Qed.

(** The double nearest to [0.1], [7205759403792794 * 2^-56]. *)
Lemma shortest_total_witness :
  bounded 53 1024 7205759403792794 (-56) = true /\
  exists d k n, shortest 7205759403792794 (-56) = Some (d, k, n) /\ 1 <= k <= 17 /\
    10 ^ (k - 1) <= d < 10 ^ k.
Proof. split; [reflexivity | apply shortest_total; reflexivity]. Defined.

(** What the browser prints for these numbers: the shortest digits that
    read back, plain up to [10^21], exponent notation beyond and below
    [10^-6]; [toFixed] from [10^21] on prints [ToString(x)]. *)
Example number_toString_samples :
  number_toString (js_div (js_number 1) (js_number 10)) = "0.1" /\
  number_toString (js_div (js_number 1) (js_number 3)) = "0.3333333333333333" /\
  number_toString (js_number (2 ^ 60)) = "1152921504606847000" /\
  number_toString (js_number (10 ^ 21)) = "1e+21" /\
  number_toString (js_div (js_number 15) (js_number 100000000)) = "1.5e-7" /\
  number_toString (js_div (js_number 1) (js_number 1000000)) = "0.000001" /\
  number_toString (S754_finite false 1 (-1074)) = "5e-324" /\
  number_toString (S754_finite false (2 ^ 53 - 1) 971) = "1.7976931348623157e+308" /\
  js_toFixed 2 (js_number (10 ^ 21)) = "1e+21" /\
  js_toFixed 0 (js_div (js_number (-5)) (js_number 2)) = "-3".
Proof. repeat match goal with |- _ /\ _ => split end; vm_compute; reflexivity. Qed.

End JsFormat.
