(* ===== verification/View.v ===== *)
(** * View: what [GameBoard], [GameCell], [GameControls] and [GameHeader]
    render.

  These components read the hook state through [App]'s props and draw it;
  they keep no state of their own ([memo], [useMemo] and [useCallback] only
  avoid recomputation).  Each is modelled as a function from its props to
  the data it renders: [gameCell] to a [CellView] (its CSS classes, the
  content of the back face, whether the button is disabled, its
  [aria-label] and its animation delay, the style string of a binary64
  product), [gameBoard] to the empty-board message or the
  flattened grid of cells with the React [key] and the [position] each cell
  receives, [gameControls] and [gameHeader] to the buttons they show,
  [gameFooter_view] to the coin tier boxes and the next-prize box, and
  [app_view] to the four of them, each applied to its props object
  ([GameHeaderProps], ...) built by [App] from the object [useGame]
  returns ([UseGame.useGame_result]).  The CSS module names are constructors; the
  back face is [clover] or [bomb], printed by [backText] as the bytes the
  source holds, and the footer's texts ([footer_text]) are the strings
  [toFixed] and the templates build.

  Theorems: the grid and the board are in bijection, every cell reading
  back, through the [position] it hands to [flipCell], the very cell it
  draws; in every state the App reaches the React keys of the grid are the
  ids [cell-r-c] of the positions and pairwise distinct; no tier box is
  ever lit; the header's BALANCE shows the round's coins, not the session
  balance; in every state the App reaches, the next-prize box of a round
  in play prints 'NEXT: $75' and the digits of the winning cells left
  ([footer_prints_next_tier]); the back face never shows the emoji the end-to-end tests look
  for, the source holding them double-encoded. *)

From Stdlib Require Import ZArith Lia SpecFloat.
From stdpp Require Import base list decidable strings pretty.
From S2P Require Import Prelude Config Provider GameApi Board UseGame Session App Footer Format.

Open Scope Z_scope.
Import GAME_CONFIG.

Module GameView.
Import Board UseGame Session App GameFooter JsFormat.

(** ** [GameCell] *)

(** [styles.cell], [styles.cellRevealed], [styles.cellWin], [styles.cellMine]. *)
Inductive CellClass := cell | cellRevealed | cellWin | cellMine.

(** [styles.cellInner], [styles.flipped]. *)
Inductive InnerClass := cellInner | flipped.

(** The back face: [''], the clover or the bomb. *)
Inductive BackContent := blank | clover | bomb.

#[export] Instance CellClass_eq_dec : EqDecision CellClass.
Proof. solve_decision. Defined.
#[export] Instance InnerClass_eq_dec : EqDecision InnerClass.
Proof. solve_decision. Defined.
#[export] Instance BackContent_eq_dec : EqDecision BackContent.
Proof. solve_decision. Defined.

(** [cellClasses]: the pushes onto [[styles.cell]]. *)
Definition cellClasses (c : Cell) : list CellClass :=
  [cell] ++ (if isRevealed c then cellRevealed :: (if isWinning c then [cellWin] else [cellMine])
             else []).

(** [cellInnerClasses]. *)
Definition cellInnerClasses (c : Cell) : list InnerClass :=
  [cellInner] ++ (if isRevealed c then [flipped] else []).

(** [backContent]. *)
Definition backContent (c : Cell) : BackContent :=
  if negb (isRevealed c) then blank else if isWinning c then clover else bomb.

(** The text of the back face: the characters the source holds, as their
    UTF-8 bytes.  The file stores the emoji double-encoded (their UTF-8
    bytes read as Windows-1252): U+00F0 U+0178 U+20AC for the clover
    (F0 9F 8D 80, whose byte 0x8D has no Windows-1252 character and is
    lost) and U+00F0 U+0178 U+2019 U+00A3 for the bomb (F0 9F 92 A3). *)
Definition backText (b : BackContent) : string :=
  match b with
  | blank => ""
  | clover => utf8 [195; 176; 197; 184; 226; 130; 172]
  | bomb => utf8 [195; 176; 197; 184; 226; 128; 153; 194; 163]
  end%N.

(** [0.1], the double nearest to 1/10, and [*] on doubles. *)
Definition js_point_one : double := js_div (js_number 1) (js_number 10).
Definition js_mul (x y : double) : double := SFmul 53 1024 x y.

(** [animationDelay]: the template [`${(position.row * 3 + position.col) * 0.1}s`],
    the product in binary64 printed by [Number::toString]. *)
Definition animationDelay (position : CellPosition) : string :=
  number_toString (js_mul (js_number (row position * 3 + col position)) js_point_one) +:+ "s".

(** [disabled={cell.isRevealed || !isGameActive}]. *)
Definition cell_disabled (c : Cell) (isGameActive : bool) : bool :=
  isRevealed c || negb isGameActive.

(** [aria-label={`Cell at row ${position.row + 1}, column ${position.col + 1}`}]. *)
Definition ariaLabel (position : CellPosition) : string :=
  "Cell at row " +:+ pretty (row position + 1) +:+ ", column " +:+ pretty (col position + 1).

(** One rendered cell, with the [key] [GameBoard] gives it. *)
Record CellView := mkCellView {
  cv_key : string;
  cv_position : CellPosition;
  cv_className : list CellClass;
  cv_innerClassName : list InnerClass;
  cv_back : BackContent;
  cv_disabled : bool;
  cv_ariaLabel : string;
  cv_animationDelay : string
}.

Definition gameCell (key : string) (c : Cell) (position : CellPosition) (isGameActive : bool)
    : CellView :=
  mkCellView key position (cellClasses c) (cellInnerClasses c) (backContent c)
    (cell_disabled c isGameActive) (ariaLabel position) (animationDelay position).

(** ** [GameBoard] *)

(** The empty-board message, or the cells of [board.map(row.map(...))]
    (React renders the nested arrays flat). *)
Inductive BoardView := emptyBoard | board_grid (cells : list CellView).

Definition gameBoard (board : list (list Cell)) (isGameActive : bool) : BoardView :=
  if bool_decide (length board = 0%nat) then emptyBoard
  else board_grid (concat (imap (fun rowIndex r =>
         imap (fun colIndex c =>
           gameCell (id c) c (mkPos (Z.of_nat rowIndex) (Z.of_nat colIndex)) isGameActive) r)
         board)).

Definition grid_cells (v : BoardView) : list CellView :=
  match v with emptyBoard => [] | board_grid cells => cells end.

(** ** [GameControls] and [GameHeader] *)

(** [startButtonText]. *)
Definition startButtonText (isLoading : bool) : string :=
  if isLoading then "Loading..." else "START GAME".

(** A button on screen: its text (for START GAME) and its [disabled]. *)
Record ControlsView := mkControls {
  startButton : option (string * bool);
  restartButton : option bool
}.

Definition gameControls (gameStatus : GameStatus) (isLoading : bool) : ControlsView :=
  mkControls
    (if showStartButton gameStatus then Some (startButtonText isLoading, isLoading) else None)
    (if showResetButton gameStatus then Some isLoading else None).

(** The props [GameHeader] passes to an [AnimatedNumber]: [value] and
    [decimals] ([None] when the prop is not given; [duration] keeps its
    default and [className] is CSS). *)
Record AnimatedNumberProps := mkAnimatedNumberProps {
  an_value : double;
  an_decimals : option Z
}.

(** The BALANCE pill, two [AnimatedNumber]s ([value={dollarValue}
    decimals={2}], with [dollarValue = currentCoins / 100], and
    [value={currentCoins}]), and the Cash Out button with its [disabled];
    the MAX PRIZE pill is constant text. *)
Record HeaderView := mkHeader {
  balance_dollars : AnimatedNumberProps;
  balance_coins : AnimatedNumberProps;
  cashOutButton : option bool
}.

Definition gameHeader (currentCoins : Z) (gameStatus : GameStatus) (isLoading : bool)
    : HeaderView :=
  mkHeader (mkAnimatedNumberProps (js_div (js_number currentCoins) (js_number 100)) (Some 2))
    (mkAnimatedNumberProps (js_number currentCoins) None)
    (if header_canCashOut gameStatus currentCoins then Some isLoading else None).

(** ** [GameFooter]'s render *)

(** One coin tier box: its [key={index}], whether it is [achieved], the
    amount ([tier.amount.toFixed(2)]) and
    the coins label. *)
Record TierView := mkTierView {
  tier_key : nat;
  tier_achieved : bool;
  tier_amount_shown : string;
  tier_coins_shown : string
}.

(** [COIN_TIERS.map((tier, index) => ...)], reading
    [tierAchievements[index]] ([undefined], falsy, off the array). *)
Definition coinTiers_view (tierAchievements : list bool) : list TierView :=
  imap (fun index tier =>
    mkTierView index (default false (tierAchievements !! index))
      (js_toFixed 2 (js_number (tier_amount tier))) (tier_coins tier))
    COIN_TIERS.

(** The tier boxes and the next-prize box ([label] and [value] of
    [nextPrizeInfo]). *)
Record FooterView := mkFooterView {
  fv_tiers : list TierView;
  fv_nextPrize : PrizeInfo
}.

Definition gameFooter_view (currentCoins : Z) (board : list (list Cell)) (gameStatus : GameStatus)
    (amountPerWin : Z) : FooterView :=
  mkFooterView (coinTiers_view (tierAchievements currentCoins))
    (nextPrizeInfo gameStatus (gameProgress gameStatus board) currentCoins amountPerWin).

(** The [label] and [value] strings of each [nextPrizeInfo] object, with
    the numbers printed by [toFixed(0)] and template interpolation, and the
    emoji as the (double-encoded) characters the source holds. *)
Definition prizeInfo_text (p : PrizeInfo) : string * string :=
  match p with
  | NextPrize amount => ("NEXT PRIZE", "$" +:+ js_toFixed 0 (js_number amount))
  | GameOver => ("GAME OVER", utf8 [195; 176; 197; 184; 226; 128; 153; 194; 165]%N)
  | CashedOut => ("CASHED OUT", utf8 [195; 176; 197; 184; 226; 128; 153; 194; 176]%N)
  | AllFound => ("ALL FOUND!", utf8 [195; 176; 197; 184; 197; 189; 226; 128; 176]%N)
  | NextTier amount winsNeeded =>
      ("NEXT: $" +:+ js_toFixed 0 (js_number amount),
       number_toString winsNeeded +:+ utf8 [195; 176; 197; 184; 226; 130; 172]%N)
  | Progress found total =>
      ("PROGRESS", number_toString (js_number found) +:+ "/" +:+ number_toString (js_number total))
  | Fallback => ("NEXT PRIZE", "--")
  end.

(** The texts of the footer: each tier box's amount, and the next-prize
    box's label and value. *)
Definition footer_text (v : FooterView) : list string * (string * string) :=
  (tier_amount_shown <$> fv_tiers v, prizeInfo_text (fv_nextPrize v)).

(** ** [App]'s render: the components on the object [useGame] returns *)

(** The data of [GameHeaderProps], [GameBoardProps], [GameFooterProps]
    and [GameControlsProps]; their callbacks are the clicks of
    [App.UiEvent] ([App.wiring]). *)
Record GameHeaderProps := mkGameHeaderProps {
  gh_currentCoins : Z;
  gh_gameStatus : GameStatus;
  gh_isLoading : bool
}.

Record GameBoardProps := mkGameBoardProps {
  gb_board : list (list Cell);
  gb_isGameActive : bool
}.

Record GameFooterProps := mkGameFooterProps {
  gf_currentCoins : Z;
  gf_board : list (list Cell);
  gf_gameStatus : GameStatus;
  gf_amountPerWin : Z
}.

Record GameControlsProps := mkGameControlsProps {
  gc_gameStatus : GameStatus;
  gc_isLoading : bool
}.

(** [App]'s [gameHeaderProps], [gameBoardProps], [gameFooterProps] and
    [gameControlsProps] on the object [useGame] returns. *)
Definition gameHeaderProps (r : UseGameResult) : GameHeaderProps :=
  let g := r_gameState r in mkGameHeaderProps (currentCoins g) (gameStatus g) (isLoading g).

Definition gameBoardProps (r : UseGameResult) : GameBoardProps :=
  let g := r_gameState r in mkGameBoardProps (board g) (isGameActive g).

Definition gameFooterProps (r : UseGameResult) : GameFooterProps :=
  let g := r_gameState r in mkGameFooterProps (currentCoins g) (board g) (gameStatus g) (amountPerWin g).

Definition gameControlsProps (r : UseGameResult) : GameControlsProps :=
  let g := r_gameState r in mkGameControlsProps (gameStatus g) (isLoading g).

(** Each component on its props object ([FC<...Props> = ({ ... }) =>]). *)
Definition GameHeaderComponent (p : GameHeaderProps) : HeaderView :=
  gameHeader (gh_currentCoins p) (gh_gameStatus p) (gh_isLoading p).

Definition GameBoardComponent (p : GameBoardProps) : BoardView :=
  gameBoard (gb_board p) (gb_isGameActive p).

Definition GameFooterComponent (p : GameFooterProps) : FooterView :=
  gameFooter_view (gf_currentCoins p) (gf_board p) (gf_gameStatus p) (gf_amountPerWin p).

Definition GameControlsComponent (p : GameControlsProps) : ControlsView :=
  gameControls (gc_gameStatus p) (gc_isLoading p).

Record AppView := mkAppView {
  header_view : HeaderView;
  board_view : BoardView;
  footer_view : FooterView;
  controls_view : ControlsView
}.

(** [<GameHeader {...gameHeaderProps} />] and the three others. *)
Definition app_view (r : UseGameResult) : AppView :=
  mkAppView (GameHeaderComponent (gameHeaderProps r)) (GameBoardComponent (gameBoardProps r))
    (GameFooterComponent (gameFooterProps r)) (GameControlsComponent (gameControlsProps r)).

(** ** Lemmas *)

(** [board[r][c]] at the indices [GameBoard] passes. *)
Lemma board_get_nat b (r c : nat) :
  board_get b (mkPos (Z.of_nat r) (Z.of_nat c)) = b !! r ≫= (fun cells => cells !! c).
Proof.
  unfold board_get, js_index. simpl. rewrite !Nat2Z.id.
  destruct (Z.leb_spec 0 (Z.of_nat r)); [|lia]. destruct (b !! r); simpl; [|done].
  destruct (Z.leb_spec 0 (Z.of_nat c)); [done | lia].
Qed.

(** The cells of the grid are those of the board, at their indices. *)
Lemma grid_cells_elem b a v :
  v ∈ grid_cells (gameBoard b a) <->
  exists (r c : nat) cells cl, b !! r = Some cells /\ cells !! c = Some cl /\
    v = gameCell (id cl) cl (mkPos (Z.of_nat r) (Z.of_nat c)) a.
Proof.
  unfold gameBoard. case_bool_decide as Hb.
  - apply nil_length_inv in Hb as ->. simpl. rewrite elem_of_nil.
    split; [done|]. intros (r & ? & ? & ? & Hr & _). by rewrite lookup_nil in Hr.
  - simpl. rewrite list_elem_of_In, in_concat. split.
    + intros (vs & Hvs%list_elem_of_In & Hv%list_elem_of_In).
      apply elem_of_lookup_imap in Hvs as (r & cells & -> & Hr).
      apply elem_of_lookup_imap in Hv as (c & cl & -> & Hc). eauto 10.
    + intros (r & c & cells & cl & Hr & Hc & ->). eexists. split; apply list_elem_of_In;
        [exact (elem_of_lookup_imap_2 _ _ _ _ Hr) | exact (elem_of_lookup_imap_2 _ _ _ _ Hc)].
Qed.

(** The keys of the grid, in order. *)
Lemma grid_keys b a :
  cv_key <$> grid_cells (gameBoard b a) =
  concat (imap (fun r cells => imap (fun c cl => id cl) cells) b).
Proof.
  unfold gameBoard. case_bool_decide as Hb; [by apply nil_length_inv in Hb as ->|].
  apply (fmap_concat_imap cv_key (fun r c cl => gameCell (id cl) cl (mkPos (Z.of_nat r) (Z.of_nat c)) a)).
Qed.

(** With the ids of [createGameBoard], the keys are [cell_id r c]. *)
Lemma grid_keys_ids b a :
  ids_ok b ->
  cv_key <$> grid_cells (gameBoard b a) =
  concat (imap (fun r cells => imap (fun c _ => cell_id r c) cells) b).
Proof.
  intros Hb. rewrite grid_keys. f_equal. apply imap_ext. intros r cells Hr.
  apply imap_ext. intros c cl Hc. exact (Hb r c cells cl Hr Hc).
Qed.

Lemma ids_ok_flipCell p h h' :
  ids_ok (board (gameState h)) -> flipCell p h = inr h' -> ids_ok (board (gameState h')).
Proof.
  intros Hb. unfold flipCell. destruct (negb _); [by intros [= <-]|].
  destruct (board_get _ p) as [cl|]; [|discriminate].
  destruct (isRevealed cl), (isWinning cl); intros [= <-]; simpl;
    auto using ids_ok_reveal_at, ids_ok_revealAllCells.
Qed.

(** Every hook transition keeps the ids of the positions. *)
Lemma ids_ok_step e s s' :
  sys_step e s = Some s' -> ids_ok (board (gameState (hook s))) -> ids_ok (board (gameState (hook s'))).
Proof.
  intros Hs Hb. destruct e; simpl in Hs; repeat case_match; simplify_eq; simpl;
    unfold initializeGame_start, initializeGame_settle, initializeGame_success,
      initializeGame_failure, initiateCashOut, setBetAmount, on_game in *;
    repeat case_match; simpl; eauto using ids_ok_flipCell, ids_ok_createGameBoard,
      ids_ok_revealAllCells, ids_ok_nil.
Qed.

Lemma ids_ok_reachable `{BP : BoardProvider} s : reachable s -> ids_ok (board (gameState (hook s))).
Proof. induction 1; [apply ids_ok_nil | eauto using ids_ok_step]. Qed.

(** A rendered button is enabled exactly when its [handleClick] calls
    [onCellClick]. *)
Lemma cell_disabled_clickable cl a : cell_disabled cl a = negb (cell_clickable cl a).
Proof. unfold cell_disabled, cell_clickable. by destruct (isRevealed cl), a. Qed.

(** Every drawn cell is the cell the board holds at its [position]. *)
Lemma grid_cells_board_get b a v :
  v ∈ grid_cells (gameBoard b a) ->
  exists p cl, board_get b p = Some cl /\ v = gameCell (id cl) cl p a.
Proof.
  intros (r & c & cells & cl & Hr & Hc & ->)%grid_cells_elem.
  exists (mkPos (Z.of_nat r) (Z.of_nat c)), cl. by rewrite board_get_nat, Hr.
Qed.

(** Every cell the board holds at a position is drawn, with that
    position. *)
Lemma board_get_grid_cells b a p cl :
  board_get b p = Some cl -> gameCell (id cl) cl p a ∈ grid_cells (gameBoard b a).
Proof.
  destruct p as [pr pc]. intros Hget. apply grid_cells_elem.
  unfold board_get, js_index in Hget. simpl in Hget.
  destruct (Z.leb_spec 0 pr); [|done]. destruct (b !! Z.to_nat pr) as [cells|] eqn:Hr; [|done].
  simpl in Hget. destruct (Z.leb_spec 0 pc); [|done].
  exists (Z.to_nat pr), (Z.to_nat pc), cells, cl. by rewrite !Z2Nat.id.
Qed.

(** No coin tier box is ever lit in the App (the footer compares the
    round's coins with the tiers). *)
Corollary app_view_tiers_dark `{BP : BoardProvider} blocks u :
  ui_reachable blocks u ->
  Forall (fun t => tier_achieved t = false)
    (fv_tiers (footer_view (app_view (useGame_result (hook (ui_sys u)))))).
Proof.
  intros Hr. destruct (reachable_coins _ (ui_reachable_sys _ _ Hr)) as (_ & Hc & _).
  unfold app_view, GameFooterComponent, gameFooterProps, gameFooter_view, coinTiers_view.
  cbn [footer_view fv_tiers gf_currentCoins].
  unfold tierAchievements, COIN_TIERS. cbn [imap fmap list_fmap].
  unfold useGame_result. cbn [r_gameState tier_amount].
  rewrite !bool_decide_eq_false_2 by lia. repeat constructor.
Qed.

(** ** What the view guarantees *)

(** C38: In every state the App reaches, the React keys of the grid are
    well formed and pairwise distinct: the cell drawn at row [r], column
    [c] has the key [cell-r-c], and no two cells share a key, so React
    never confuses two cells between renders. *)
Theorem app_cell_keys `{BP : BoardProvider} blocks u :
  ui_reachable blocks u ->
  let g := gameState (hook (ui_sys u)) in
  let vs := grid_cells (gameBoard (board g) (isGameActive g)) in
  NoDup (cv_key <$> vs) /\
  Forall (fun v => cv_key v = cell_id (Z.to_nat (row (cv_position v)))
                                      (Z.to_nat (col (cv_position v)))) vs.
Proof.
  intros Hr. pose proof (ids_ok_reachable _ (ui_reachable_sys _ _ Hr)) as Hids. simpl. split.
  - rewrite grid_keys_ids by done. apply NoDup_grid_keys, cell_id_inj.
  - apply list.Forall_forall. intros v (r & c & cells & cl & Hrow & Hc & ->)%grid_cells_elem.
    simpl. rewrite !Nat2Z.id. exact (Hids r c cells cl Hrow Hc).
Qed.

(** C39: Rendering the board is a round trip: the cells [GameBoard] draws
    are exactly the cells [board[p.row][p.col]] of the board, each drawn
    with the [position] [p] it hands to [onCellClick], so a click on a
    drawn cell makes [flipCell] read back the very cell that was drawn. *)
Theorem gameBoard_roundtrip b a v :
  v ∈ grid_cells (gameBoard b a) <->
  exists p cl, board_get b p = Some cl /\ v = gameCell (id cl) cl p a.
Proof.
  split; [apply grid_cells_board_get|]. intros (p & cl & Hget & ->). by apply board_get_grid_cells.
Qed.

(** A click on a drawn, enabled cell is taken by the App (unless the open
    modal's overlay intercepts it): [flipCell] finds the cell and does not
    throw. *)
Corollary click_drawn_cell blocks u v :
  let g := gameState (hook (ui_sys u)) in
  v ∈ grid_cells (gameBoard (board g) (isGameActive g)) -> cv_disabled v = false ->
  background_ok blocks (hook (ui_sys u)) = true ->
  is_Some (ui_step blocks (ClickCell (cv_position v)) u).
Proof.
  simpl. intros (p & cl & Hget & ->)%grid_cells_board_get Hd Hbg. simpl in Hd |- *.
  unfold cell_disabled in Hd. apply orb_false_elim in Hd as [Hrev Hact%negb_false_iff].
  unfold ui_step, ui_apply, sys_step, cell_clickable. simpl. rewrite Hget, Hbg, Hrev, Hact. simpl.
  unfold flipCell. unfold isGameActive in Hact. rewrite Hact, Hget, Hrev. simpl.
  by destruct (isWinning cl).
Qed.

(** The BALANCE pill shows the round's coins: once a round has started on
    the sample board it reads 0 coins while the session balance is 75. *)
Example header_balance_is_round_coins :
  option_map (fun u => let g := gameState (hook (ui_sys u)) in
                       (an_value (balance_coins (header_view (app_view (useGame_result (hook (ui_sys u)))))),
                        sessionBalance g))
    (ui_run true (take 2 cash_out_then_restart) initialUi) = Some (js_number 0, 75).
Proof. vm_compute. reflexivity. Qed.

(** The delay of the first cell of the second row is [3 * 0.1], which is
    not the double [0.3]: the style reads [0.30000000000000004s], and the
    cell at row 2, column 1 gets [0.7000000000000001s]. *)
Example animationDelay_row1 :
  animationDelay (mkPos 1 0) = "0.30000000000000004s" /\ animationDelay (mkPos 2 1) = "0.7000000000000001s".
Proof. split; vm_compute; reflexivity. Qed.

(** The back face of a revealed cell is not the emoji the end-to-end
    tests look for ([cellContent === '🍀'], [=== '💣']): the page shows the
    double-encoded characters. *)
Example backText_not_emoji :
  backText clover <> utf8 [240; 159; 141; 128]%N /\ backText bomb <> utf8 [240; 159; 146; 163]%N.
Proof. split; vm_compute; discriminate. Qed.

(** The footer before the first round: the three tiers and [$75] as the
    next prize. *)
Example footer_text_initial :
  footer_text (footer_view (app_view (useGame_result (hook (ui_sys initialUi))))) =
    (["75.00"; "100.00"; "250.00"], ("NEXT PRIZE", "$75")).
Proof. vm_compute. reflexivity. Qed.

(** C20: In every state the App reaches, while a round is [PLAYING] with
    winning cells left, the footer's next-prize box prints the label
    'NEXT: $75' ([`NEXT: $${nextTier.amount.toFixed(0)}`]) and the value
    [`${winsNeeded}`] followed by the source's clover characters, where
    [winsNeeded] prints as the exact count of winning cells remaining. *)
Theorem footer_prints_next_tier `{BP : BoardProvider} blocks u :
  ui_reachable blocks u ->
  let g := gameState (hook (ui_sys u)) in
  let p := gameProgress (gameStatus g) (board g) in
  gameStatus g = PLAYING -> 0 < remaining p ->
  prizeInfo_text (fv_nextPrize (footer_view (app_view (useGame_result (hook (ui_sys u)))))) =
    ("NEXT: $75", digits (remaining p) +:+ utf8 [195; 176; 197; 184; 226; 130; 172]%N).
Proof.
  intros Hr g p Hst Hrem.
  destruct (next_prize_playing_at _ (ui_reachable_sys _ _ Hr) Hst Hrem) as [Hle Hn].
  cbn [app_view footer_view fv_nextPrize GameFooterComponent gameFooterProps gameFooter_view
    gf_currentCoins gf_board gf_gameStatus gf_amountPerWin useGame_result r_gameState].
  subst p g. rewrite Hn. unfold prizeInfo_text.
  rewrite number_toString_int by lia.
  f_equal; vm_compute; reflexivity.
Qed.

(** ** Witnesses *)

Lemma app_cell_keys_witness :
  match ui_run true (take 2 cash_out_then_restart) initialUi with
  | Some u => let g := gameState (hook (ui_sys u)) in
              NoDup (cv_key <$> grid_cells (gameBoard (board g) (isGameActive g)))
  | None => False
  end.
Proof.
  sample_state 2%nat u Hrun. exact (proj1 (app_cell_keys true u (sample_run_reachable _ _ Hrun))).
Defined.

(** After START GAME, the board and one safe click: the next-prize box
    prints the winning cells still hidden. *)
Lemma footer_prints_next_tier_witness :
  match ui_run true (take 3 cash_out_then_restart) initialUi with
  | Some u => let g := gameState (hook (ui_sys u)) in
      (gameStatus g = PLAYING /\ 0 < remaining (gameProgress (gameStatus g) (board g))) /\
      prizeInfo_text (fv_nextPrize (footer_view (app_view (useGame_result (hook (ui_sys u)))))) =
        ("NEXT: $75", digits (remaining (gameProgress (gameStatus g) (board g))) +:+
           utf8 [195; 176; 197; 184; 226; 130; 172]%N)
  | None => False
  end.
Proof.
  sample_state 3%nat u Hrun.
  assert (Hp : let g := gameState (hook (ui_sys u)) in
      gameStatus g = PLAYING /\ 0 < remaining (gameProgress (gameStatus g) (board g)))
    by (vm_compute in Hrun; injection Hrun as <-; split; vm_compute; reflexivity).
  exact (conj Hp (footer_prints_next_tier true u (sample_run_reachable _ _ Hrun)
    (proj1 Hp) (proj2 Hp))).
Defined.

End GameView.
