(* ===== verification/Screen.v ===== *)
(** * Screen: [components/CashOutModal/CashOutModal.tsx] and the whole page.

  [CashOutModal] renders nothing while [isOpen] is false and otherwise one
  of three stages, chosen by its own [stage] state ([App.Modal]): the
  confirmation with the dollar amount [(currentCoins / 100).toFixed(2)],
  the coins and the Keep Playing and Cash Out buttons; the celebration with
  the amount; the completion with the amount, the coins and the Play Again
  button.  [cashOutModal] is that render, [app_screen] puts it beside the
  other components' renders ([View.GameView.app_view]) on the state of
  [App.Ui].

  [screen_clicks] reads off a screen the clicks it offers: the enabled
  buttons of the header, the board and the controls (unless the open
  modal's overlay intercepts them, the flag [blocks] of [App]) and the
  buttons of the modal's stage.

  Theorems: the clicks the screen offers are exactly the clicks [ui_step]
  takes, so the guards of [App]'s step are what the user sees; and in every
  state the App reaches the modal prints the round's coins as dollars and
  cents, digit for digit. *)

From Stdlib Require Import ZArith Lia SpecFloat.
From stdpp Require Import base list decidable sets strings.
From S2P Require Import Prelude Config Provider Board UseGame Session App Footer Format View.

Open Scope Z_scope.

Module Screen.
Import Board UseGame Session App GameFooter JsFormat GameView.

(** ** [CashOutModal] *)

(** The props that carry data; the three callbacks are the clicks of
    [App.UiEvent] they are wired to. *)
Record CashOutModalProps := mkCashOutModalProps {
  isOpen : bool;
  props_currentCoins : Z
}.

(** [dollarAmount = (currentCoins / 100).toFixed(2)]. *)
Definition dollarAmount (currentCoins : Z) : string :=
  js_toFixed 2 (js_div (js_number currentCoins) (js_number 100)).

(** The three stages as they are drawn: the amount and, where the stage
    shows them, the coins. *)
Inductive ModalView :=
| confirmStage (amount : string) (coins : Z)
| celebratingStage (amount : string)
| completeStage (amount : string) (coins : Z).

Definition modal_amount (v : ModalView) : string :=
  match v with
  | confirmStage a _ | celebratingStage a | completeStage a _ => a
  end.

(** The buttons of each stage, with their text and the click they handle:
    [onCancel], [handleConfirm] and [onContinuePlaying]. *)
Definition stage_buttons (v : ModalView) : list (string * UiEvent) :=
  match v with
  | confirmStage _ _ => [("Keep Playing", ClickKeepPlaying); ("Cash Out", ClickConfirm)]
  | celebratingStage _ => []
  | completeStage _ _ => [("Play Again", ClickPlayAgain)]
  end.

(** [if (!isOpen) return null], then the section of the current stage. *)
Definition cashOutModal (props : CashOutModalProps) (stage : Stage) : option ModalView :=
  if negb (isOpen props) then None
  else
    let c := props_currentCoins props in
    Some (match stage with
          | confirm => confirmStage (dollarAmount c) c
          | celebrating => celebratingStage (dollarAmount c)
          | complete => completeStage (dollarAmount c) c
          end).

(** [App]'s [cashOutModalProps]. *)
Definition app_cashOutModalProps (r : UseGameResult) : CashOutModalProps :=
  mkCashOutModalProps (r_showCashOutModal r) (currentCoins (r_gameState r)).

(** ** The page *)

Record Screen := mkScreen {
  sc_view : AppView;
  sc_modal : option ModalView
}.

(** [App]'s render on the state of the hook and of the modal. *)
Definition app_screen (u : Ui) : Screen :=
  let r := useGame_result (hook (ui_sys u)) in
  mkScreen (app_view r) (cashOutModal (app_cashOutModalProps r) (stage (ui_modal u))).

(** The enabled buttons of each component. *)
Definition controls_clicks (v : ControlsView) : list UiEvent :=
  match startButton v with Some (_, false) => [ClickStart] | _ => [] end ++
  match restartButton v with Some false => [ClickRestart] | _ => [] end.

Definition header_clicks (v : HeaderView) : list UiEvent :=
  match cashOutButton v with Some false => [ClickCashOut] | _ => [] end.

Definition board_clicks (v : BoardView) : list UiEvent :=
  (fun c => ClickCell (cv_position c)) <$> filter (fun c => cv_disabled c = false) (grid_cells v).

Definition modal_clicks (m : option ModalView) : list UiEvent :=
  from_option (fun v => snd <$> stage_buttons v) [] m.

(** What the user can click: the page's buttons unless the open modal
    intercepts them, and the modal's. *)
Definition screen_clicks (blocks : bool) (sc : Screen) : list UiEvent :=
  (if blocks && bool_decide (is_Some (sc_modal sc)) then []
   else header_clicks (header_view (sc_view sc)) ++ board_clicks (board_view (sc_view sc)) ++
        controls_clicks (controls_view (sc_view sc))) ++
  modal_clicks (sc_modal sc).

(** The events that are clicks, not timers or the network. *)
Definition is_click (e : UiEvent) : bool :=
  match e with
  | ConfirmTimerFires | BoardArrives _ | RoundTimerFires => false
  | _ => true
  end.


(** ** Lemmas *)

Lemma controls_clicks_spec e st l :
  e ∈ controls_clicks (gameControls st l) <->
  (e = ClickStart /\ showStartButton st && negb l = true) \/
  (e = ClickRestart /\ showResetButton st && negb l = true).
Proof.
  unfold controls_clicks, gameControls. simpl.
  destruct (showStartButton st), (showResetButton st), l; simpl; set_solver.
Qed.

Lemma header_clicks_spec e c st l :
  e ∈ header_clicks (gameHeader c st l) <->
  e = ClickCashOut /\ header_canCashOut st c && negb l = true.
Proof. unfold header_clicks, gameHeader. simpl. destruct (header_canCashOut st c), l; set_solver. Qed.

Lemma board_clicks_spec e b a :
  e ∈ board_clicks (gameBoard b a) <->
  exists p cl, e = ClickCell p /\ board_get b p = Some cl /\ cell_clickable cl a = true.
Proof.
  unfold board_clicks. rewrite list_elem_of_fmap. split.
  - intros (v & -> & Hv). apply list_elem_of_filter in Hv as [Hd Hv].
    apply grid_cells_board_get in Hv as (p & cl & Hget & ->). simpl in Hd.
    rewrite cell_disabled_clickable, negb_false_iff in Hd. eauto.
  - intros (p & cl & -> & Hget & Hc). exists (gameCell (id cl) cl p a). split; [done|].
    apply list_elem_of_filter. split; [simpl; by rewrite cell_disabled_clickable, Hc|].
    by apply board_get_grid_cells.
Qed.

Lemma modal_clicks_spec e o c st :
  e ∈ modal_clicks (cashOutModal (mkCashOutModalProps o c) st) <->
  o = true /\ ((e = ClickKeepPlaying \/ e = ClickConfirm) /\ st = confirm \/
               e = ClickPlayAgain /\ st = complete).
Proof. unfold cashOutModal. destruct o, st; simpl; set_solver. Qed.

(** The modal is drawn exactly when the hook's [showCashOutModal] is
    set. *)
Lemma app_screen_modal_open u :
  bool_decide (is_Some (sc_modal (app_screen u))) = showCashOutModal (hook (ui_sys u)).
Proof.
  unfold app_screen, cashOutModal. simpl. by destruct (showCashOutModal _).
Qed.

Lemma screen_clicks_spec blocks e u :
  let h := hook (ui_sys u) in
  let g := gameState h in
  e ∈ screen_clicks blocks (app_screen u) <->
  (background_ok blocks h = true /\
   (e = ClickCashOut /\ header_canCashOut (gameStatus g) (currentCoins g) && negb (isLoading g) = true \/
    (exists p cl, e = ClickCell p /\ board_get (board g) p = Some cl /\
                  cell_clickable cl (isGameActive g) = true) \/
    (e = ClickStart /\ showStartButton (gameStatus g) && negb (isLoading g) = true) \/
    (e = ClickRestart /\ showResetButton (gameStatus g) && negb (isLoading g) = true))) \/
  (showCashOutModal h = true /\
   ((e = ClickKeepPlaying \/ e = ClickConfirm) /\ stage (ui_modal u) = confirm \/
    e = ClickPlayAgain /\ stage (ui_modal u) = complete)).
Proof.
  simpl. unfold screen_clicks. rewrite app_screen_modal_open. cbn [app_screen sc_view sc_modal app_view app_cashOutModalProps useGame_result
    r_gameState r_showCashOutModal header_view board_view controls_view].
  unfold app_cashOutModalProps, useGame_result, GameHeaderComponent, GameBoardComponent,
    GameControlsComponent, gameHeaderProps, gameBoardProps, gameControlsProps.
  cbn [r_gameState r_showCashOutModal gh_currentCoins gh_gameStatus gh_isLoading gb_board
    gb_isGameActive gc_gameStatus gc_isLoading].
  unfold background_ok. destruct (blocks && _); simpl;
    rewrite ?elem_of_app, ?elem_of_nil, modal_clicks_spec, ?header_clicks_spec,
      ?board_clicks_spec, ?controls_clicks_spec; naive_solver.
Qed.

(** ** What the screen offers *)

(** The clicks the screen offers are exactly the clicks the App
    takes: a click (not a timer or the network) makes [ui_step] move if
    and only if the screen [App] renders shows its button, enabled, and not
    covered by the open modal's overlay.  So every guard of the App's step
    is visible on the screen, and every button drawn enabled works. *)
Theorem screen_clicks_enabled blocks e u :
  is_click e = true ->
  is_Some (ui_step blocks e u) <-> e ∈ screen_clicks blocks (app_screen u).
Proof.
  intros Hc. rewrite screen_clicks_spec. destruct e as [| | |p| | | | | |]; try discriminate;
    unfold ui_step, ui_apply; simpl.
  4: { destruct (board_get _ p) as [cl|] eqn:Hg.
       - destruct (flipCell_found _ _ _ Hg) as [h' ->]. rewrite is_Some_if, !andb_true_iff.
         split; [naive_solver|]. intros [(? & [[? _] | [(p' & cl' & ? & Hg' & ?) | [[? _] | [? _]]]])
           | (_ & [[[? | ?] _] | [? _]])]; simplify_eq; naive_solver.
       - split; [by intros []|]. intros [(? & [[? _] | [(p' & cl' & ? & Hg' & ?) | [[? _] | [? _]]]])
           | (_ & [[[? | ?] _] | [? _]])]; simplify_eq; congruence. }
  all: rewrite is_Some_if, ?andb_true_iff, ?bool_decide_eq_true; naive_solver.
Qed.

(** ** What the modal prints *)

(** C21: In every state the App reaches, the open modal, at every stage,
    prints the round's coins as dollars and cents, digit for digit: the
    binary64 division [currentCoins / 100] and [toFixed(2)] never show a
    rounding error on the balances the game reaches (at most 135 coins). *)
Theorem modal_shows_dollars `{BP : BoardProvider} blocks u v :
  ui_reachable blocks u -> sc_modal (app_screen u) = Some v ->
  modal_amount v = cents_string (currentCoins (gameState (hook (ui_sys u)))).
Proof.
  intros Hr Hm. destruct (reachable_coins _ (ui_reachable_sys _ _ Hr)) as (_ & Hc & _).
  unfold app_screen, cashOutModal in Hm. simpl in Hm.
  destruct (showCashOutModal _); [|discriminate]. injection Hm as <-.
  destruct (stage _); apply toFixed2_cents; lia.
Qed.

Lemma modal_shows_dollars_witness :
  match ui_run true (take 4 cash_out_then_restart) initialUi with
  | Some u => match sc_modal (app_screen u) with
              | Some v => modal_amount v = cents_string (currentCoins (gameState (hook (ui_sys u))))
              | None => False
              end
  | None => False
  end.
Proof.
  sample_state 4%nat u Hrun. destruct (sc_modal (app_screen u)) as [v|] eqn:Hm.
  - exact (modal_shows_dollars true u v (sample_run_reachable _ _ Hrun) Hm).
  - vm_compute in Hrun. injection Hrun as <-. vm_compute in Hm. discriminate.
Defined.

(** The modal of that run: the confirmation of $0.13, 13 coins. *)
Example sample_modal :
  match ui_run true (take 4 cash_out_then_restart) initialUi with
  | Some u => sc_modal (app_screen u) = Some (confirmStage "0.13" 13)
  | None => False
  end.
Proof. vm_compute. reflexivity. Qed.

End Screen.
