(* ===== verification/Animated.v ===== *)
(** * Animated: [components/AnimatedNumber/AnimatedNumber.tsx].

  [AnimatedNumber] keeps one piece of state, [displayValue], and one effect
  that depends on [value], [duration] and [displayValue].  When the two
  differ, the effect captures [startValue], [difference] and
  [startTime = Date.now()] and requests an animation frame running
  [animate]; [animate] sets [displayValue] to the eased value and requests
  the next frame until the progress reaches 1, where it sets [value].  The
  effect's cleanup cancels the frame id it requested.

  The model is a step relation over [AnimState]: the state, the prop, the
  queue of requested frame callbacks (each with its id and its closure
  [Anim]), the next id, the id the current effect's cleanup cancels, and
  the clock ([Date.now()], in ms).  Two events drive it: the parent passes a
  new [value] ([SetValue]) and the browser runs a frame ([Frame]): every
  callback requested before it runs, in order; the state updates they make
  are batched, the last one wins, and React commits only a value that
  differs ([Object.is]) from the current one, after which the effect runs
  again because [displayValue] is one of its dependencies.  This is React
  18's automatic batching, with passive effects flushed before the next
  frame.  Numbers are binary64 ([SpecFloat], as in [Footer]); [Math.pow]
  is implementation-approximated in JavaScript, so it is a parameter
  [math_pow] of every definition and theorem.  The string the component
  prints, [formattedValue], uses [Format]'s [toFixed] and
  [Math.round(...).toString()].

  Theorems: the effect's cleanup cancels only the first frame of its loop,
  so every frame that moves the display leaves one more loop running
  ([frame_leaks_loop]), as a concrete run with three frames shows; and a
  frame that comes when every loop has run its [duration] ends the
  animation at exactly the target value with no frame left; and the
  header's two numbers, once shown at their value, print the round's coins
  as dollars and cents and as an integer, digit for digit. *)

From Stdlib Require Import ZArith Lia SpecFloat.
From stdpp Require Import base list decidable strings.
From S2P Require Import Prelude Config Provider UseGame Session App Footer Format View.

Open Scope Z_scope.

Module AnimatedNumber.
Import UseGame Session App GameFooter JsFormat GameView.

(** ** JavaScript numbers *)

Definition js_add (x y : double) : double := SFadd 53 1024 x y.

Definition js_one : double := js_number 1.

(** [===] on numbers: false on NaN, true on [+0 === -0]. *)
Definition js_strict_eq (x y : double) : bool := SFeqb x y.

(** [Object.is], React's comparison of states and dependencies: [NaN] is
    itself and the two zeros differ, which is equality of [spec_float]s. *)
Definition object_is (x y : double) : bool := bool_decide (x = y).

(** ** The component *)

(** [easeOutQuart]: [1 - Math.pow(1 - progress, 4)]. *)
Definition easeOutQuart (math_pow : double -> double -> double) (progress : double) : double :=
  js_sub js_one (math_pow (js_sub js_one progress) (js_number 4)).

(** The closure of one effect run: [startValue], [difference],
    [startTime], and the [value] and [duration] it read. *)
Record Anim := mkAnim {
  a_startValue : double;
  a_difference : double;
  a_startTime : Z;
  a_value : double;
  a_duration : double
}.

(** [Math.min((Date.now() - startTime) / duration, 1)]. *)
Definition an_progress (a : Anim) (now : Z) : double :=
  js_min (js_div (js_sub (js_number now) (js_number (a_startTime a))) (a_duration a)) js_one.

(** [animate] at time [now]: the values it passes to [setDisplayValue], in
    order, and whether it requests the next frame. *)
Definition animate (math_pow : double -> double -> double) (a : Anim) (now : Z)
    : list double * bool :=
  let progress := an_progress a now in
  let easedProgress := easeOutQuart math_pow progress in
  let currentValue := js_add (a_startValue a) (js_mul (a_difference a) easedProgress) in
  if SFltb progress js_one then ([currentValue], true) else ([currentValue; a_value a], false).

Record AnimState := mkAnimState {
  displayValue : double;
  value : double;
  duration : double;
  rafQueue : list (nat * Anim);
  nextId : nat;
  cleanupId : option nat;
  clock : Z
}.

(** [cancelAnimationFrame(id)]. *)
Definition cancelAnimationFrame (id : nat) (q : list (nat * Anim)) : list (nat * Anim) :=
  filter (fun e => fst e <> id) q.

(** The effect, after the cleanup of its previous run: nothing when
    [displayValue === value], else a new loop whose first frame id the new
    cleanup will cancel. *)
Definition run_effect (s : AnimState) : AnimState :=
  let q := match cleanupId s with
           | Some id => cancelAnimationFrame id (rafQueue s)
           | None => rafQueue s
           end in
  if js_strict_eq (displayValue s) (value s) then
    mkAnimState (displayValue s) (value s) (duration s) q (nextId s) None (clock s)
  else
    let startValue := displayValue s in
    let difference := js_sub (value s) startValue in
    let a := mkAnim startValue difference (clock s) (value s) (duration s) in
    mkAnimState (displayValue s) (value s) (duration s) (q ++ [(nextId s, a)]) (S (nextId s))
      (Some (nextId s)) (clock s).

(** A render that commits [displayValue = d], when [d] differs from the
    current state, and the effect it triggers. *)
Definition commit_display (d : double) (s : AnimState) : AnimState :=
  if object_is d (displayValue s) then s
  else run_effect (mkAnimState d (value s) (duration s) (rafQueue s) (nextId s) (cleanupId s) (clock s)).

(** The callbacks of one frame, in order: the last value set so far, the
    frames they request (with fresh ids from [nid]). *)
Fixpoint run_frame (math_pow : double -> double -> double) (now : Z) (q : list (nat * Anim))
    (pending : option double) (requested : list (nat * Anim)) (nid : nat)
    : option double * list (nat * Anim) * nat :=
  match q with
  | [] => (pending, requested, nid)
  | (_, a) :: q' =>
      let '(sets, again) := animate math_pow a now in
      let pending' := fold_left (fun _ d => Some d) sets pending in
      if again then run_frame math_pow now q' pending' (requested ++ [(nid, a)]) (S nid)
      else run_frame math_pow now q' pending' requested nid
  end.

Inductive AnimEvent :=
| SetValue (v : double) (now : Z)
| Frame (now : Z).

Definition an_step (math_pow : double -> double -> double) (e : AnimEvent) (s : AnimState)
    : option AnimState :=
  match e with
  | SetValue v now =>
      if now <? clock s then None
      else
        let s1 := mkAnimState (displayValue s) (value s) (duration s) (rafQueue s) (nextId s)
                    (cleanupId s) now in
        if object_is v (value s) then Some s1
        else Some (run_effect (mkAnimState (displayValue s) v (duration s) (rafQueue s)
                                (nextId s) (cleanupId s) now))
  | Frame now =>
      if now <? clock s then None
      else
        let '(pending, q, nid) := run_frame math_pow now (rafQueue s) None [] (nextId s) in
        let s1 := mkAnimState (displayValue s) (value s) (duration s) q nid (cleanupId s) now in
        match pending with
        | None => Some s1
        | Some d => Some (commit_display d s1)
        end
  end.

Fixpoint an_run (math_pow : double -> double -> double) (es : list AnimEvent) (s : AnimState)
    : option AnimState :=
  match es with
  | [] => Some s
  | e :: es' => match an_step math_pow e s with Some s' => an_run math_pow es' s' | None => None end
  end.

(** Mounting with [value] [v] ([useState(value)]) and the default
    [duration = 1200], then the first run of the effect. *)
Definition an_mount (v : double) (now : Z) : AnimState :=
  run_effect (mkAnimState v v (js_number 1200) [] 0 None now).

(** [formattedValue]: [decimals > 0 ? displayValue.toFixed(decimals)
    : Math.round(displayValue).toString()]. *)
Definition formattedValue (decimals : Z) (displayValue : double) : string :=
  if 0 <? decimals then js_toFixed (Z.to_nat decimals) displayValue
  else number_toString (js_round displayValue).

(** The text of the rendered [<span>], with the props' [decimals]
    defaulting to 0 ([decimals = 0] in the destructuring). *)
Definition an_render (props : AnimatedNumberProps) (s : AnimState) : string :=
  formattedValue (default 0 (an_decimals props)) (displayValue s).

Section Reach.
Variable math_pow : double -> double -> double.

Inductive an_reachable : AnimState -> Prop :=
| an_reach_mount v now : an_reachable (an_mount v now)
| an_reach_step e s s' : an_reachable s -> an_step math_pow e s = Some s' -> an_reachable s'.
End Reach.

(** The id the cleanup cancels was handed out already. *)
Definition ids_fresh (s : AnimState) : Prop :=
  forall id, cleanupId s = Some id -> (id < nextId s)%nat.

(** [Math.pow(x, 4)] as [x * x * x * x], for concrete runs. *)
Definition pow_by_mult (x y : double) : double := js_mul (js_mul x x) (js_mul x x).

(** The header's coins going from 0 to 100, then three frames 16 ms
    apart. *)
Definition coins_anim : list AnimEvent :=
  [SetValue (js_number 100) 0; Frame 16; Frame 32; Frame 48].

(** ** Lemmas *)

Lemma run_effect_fresh s : ids_fresh s -> ids_fresh (run_effect s).
Proof.
  intros Hf id. unfold run_effect. case_match; simpl; [done|]. intros [= <-]. lia.
Qed.

(** The effect changes neither the state nor the prop. *)
Lemma run_effect_fields s :
  displayValue (run_effect s) = displayValue s /\ value (run_effect s) = value s.
Proof. unfold run_effect. by case_match. Qed.

(** A frame hands out ids upwards from [nid]. *)
Lemma run_frame_ids math_pow now q pending req nid p r n :
  run_frame math_pow now q pending req nid = (p, r, n) ->
  (nid <= n)%nat /\ (forall e, e ∈ r -> e ∈ req \/ (nid <= fst e)%nat).
Proof.
  revert pending req nid. induction q as [|[i a] q IH]; simpl; intros pending req nid Hrf.
  - injection Hrf as -> -> ->. split; [lia | by left].
  - destruct (animate math_pow a now) as [sets again]. destruct again.
    + destruct (IH _ _ _ Hrf) as [Hn Hr]. split; [lia|].
      intros e He. destruct (Hr e He) as [Hin|Hge]; [|right; lia].
      apply elem_of_app in Hin as [Hin|Hin%list_elem_of_singleton]; [by left | subst e; right; simpl; lia].
    + exact (IH _ _ _ Hrf).
Qed.

Lemma ids_fresh_step math_pow e s s' :
  ids_fresh s -> an_step math_pow e s = Some s' -> ids_fresh s'.
Proof.
  intros Hf Hs. destruct e as [v now|now]; simpl in Hs; destruct (now <? clock s); [done| |done|].
  - case_match; inv_some; [exact Hf|]. by apply run_effect_fresh.
  - destruct (run_frame _ _ _ _ _ _) as [[p r] n] eqn:Hrf.
    destruct (run_frame_ids _ _ _ _ _ _ _ _ _ Hrf) as [Hn _].
    assert (ids_fresh (mkAnimState (displayValue s) (value s) (duration s) r n (cleanupId s) now))
      as Hf1 by (intros id Hid; specialize (Hf id Hid); simpl; lia).
    destruct p as [d|]; inv_some; [|exact Hf1].
    unfold commit_display. case_match; [exact Hf1|]. by apply run_effect_fresh.
Qed.

Lemma an_reachable_fresh math_pow s : an_reachable math_pow s -> ids_fresh s.
Proof.
  induction 1 as [v now|e s s' Hr IH Hs]; [apply run_effect_fresh; discriminate|].
  by eapply ids_fresh_step.
Qed.

Lemma an_run_reachable math_pow es s s' :
  an_reachable math_pow s -> an_run math_pow es s = Some s' -> an_reachable math_pow s'.
Proof.
  revert s. induction es as [|e es IH]; simpl; intros s Hr Hrun; [by inv_some|].
  destruct (an_step math_pow e s) as [s1|] eqn:Hs; [|discriminate].
  eapply IH; [|exact Hrun]. by eapply an_reach_step.
Qed.

(** A frame in which every loop is within its [duration] runs each of them
    and requests a frame for each. *)
Lemma run_frame_running math_pow now q pending req nid p r n :
  Forall (fun e => SFltb (an_progress (snd e) now) js_one = true) q ->
  run_frame math_pow now q pending req nid = (p, r, n) -> length r = (length req + length q)%nat.
Proof.
  intros Hq. revert pending req nid. induction Hq as [|[i a] q Ha Hq IH]; simpl;
    intros pending req nid Hrf.
  - injection Hrf as _ <- _. lia.
  - unfold animate in Hrf at 1. simpl in Ha. rewrite Ha in Hrf.
    rewrite (IH _ _ _ Hrf), length_app. simpl. lia.
Qed.

(** A frame in which every loop has run its [duration] and targets [v]
    ends them all, the last value set being [v]. *)
Lemma run_frame_done math_pow now q pending req nid v :
  q <> [] ->
  Forall (fun e => SFltb (an_progress (snd e) now) js_one = false /\ a_value (snd e) = v) q ->
  run_frame math_pow now q pending req nid = (Some v, req, nid).
Proof.
  intros Hne Hq. revert pending Hne. induction Hq as [|[i a] q [Ha Hv] Hq IH]; intros pending Hne;
    [done|]. simpl in *. unfold animate at 1. rewrite Ha. simpl. rewrite Hv.
  destruct q as [|e q]; [done|]. by apply IH.
Qed.

(** ** What the component does *)

(** C19: The effect's cleanup cancels only the first frame its run
    requested; the frames [animate] requests for itself are never
    cancelled.  So in a frame where every running loop is still within its
    [duration] and the display moves (to a value other than the target),
    every loop goes on and the effect, run again for the new [displayValue],
    starts one more: the component ends the frame with one more loop than
    it began it with, whatever [Math.pow] returns. *)
Theorem frame_leaks_loop math_pow s now s' :
  an_reachable math_pow s -> an_step math_pow (Frame now) s = Some s' ->
  Forall (fun e => SFltb (an_progress (snd e) now) js_one = true) (rafQueue s) ->
  displayValue s' <> displayValue s -> js_strict_eq (displayValue s') (value s') = false ->
  length (rafQueue s') = S (length (rafQueue s)).
Proof.
  intros Hr Hs Hrun Hmoved Hne. pose proof (an_reachable_fresh _ _ Hr) as Hf.
  simpl in Hs. destruct (now <? clock s); [done|].
  destruct (run_frame _ _ _ _ _ _) as [[p r] n] eqn:Hrf.
  pose proof (run_frame_running _ _ _ _ _ _ _ _ _ Hrun Hrf) as Hlen.
  destruct (run_frame_ids _ _ _ _ _ _ _ _ _ Hrf) as [_ Hids].
  destruct p as [d|]; inv_some; [|done].
  unfold commit_display, object_is in *. simpl in *.
  destruct (bool_decide (d = displayValue s)); [done|].
  destruct (run_effect_fields (mkAnimState d (value s) (duration s) r n (cleanupId s) now))
    as [Hd Hv]. rewrite Hd, Hv in Hne. simpl in Hne.
  unfold run_effect. simpl. rewrite Hne.
  assert (match cleanupId s with Some id => cancelAnimationFrame id r | None => r end = r) as ->.
  { destruct (cleanupId s) as [id|] eqn:Hc; [|done]. apply filter_Forall_id.
    apply list.Forall_forall. intros e He. destruct (Hids e He) as [?%elem_of_nil|Hge]; [done|].
    specialize (Hf id Hc). lia. }
  simpl. rewrite length_app. simpl. lia.
Qed.

(** C23: A frame that comes when every loop has run its [duration], all of
    them targeting the current [value] (a number, not NaN), ends the
    animation: the display is exactly [value] (set by [animate]'s last
    [setDisplayValue(value)], not the eased float [startValue + difference
    * 1]) and no frame is left requested. *)
Theorem frame_settles math_pow s now s' :
  an_step math_pow (Frame now) s = Some s' -> rafQueue s <> [] ->
  Forall (fun e => SFltb (an_progress (snd e) now) js_one = false /\ a_value (snd e) = value s)
    (rafQueue s) ->
  js_strict_eq (value s) (value s) = true ->
  displayValue s' = value s /\ rafQueue s' = [].
Proof.
  intros Hs Hne Hdone Hv. simpl in Hs. destruct (now <? clock s); [done|].
  rewrite (run_frame_done _ _ _ _ _ _ _ Hne Hdone) in Hs. inv_some.
  unfold commit_display, object_is. simpl. case_bool_decide as Heq; [by split|].
  unfold run_effect. simpl. rewrite Hv. simpl. split; [done|]. by destruct (cleanupId s).
Qed.

(** The header's coins animated from 0 to 100: after three frames 16 ms
    apart, four loops are running. *)
Example coins_anim_loops :
  option_map (fun s => length (rafQueue s)) (an_run pow_by_mult coins_anim (an_mount (js_number 0) 0))
  = Some 4%nat.
Proof. vm_compute. reflexivity. Qed.

(** C22: In every state the App reaches, once the two [AnimatedNumber]s
    of the header's BALANCE pill show their values ([displayValue = value],
    as after mounting or [frame_settles]), they print, with the [decimals]
    [GameHeader] passes them, the round's coins as dollars and cents and as
    the integer of coins, digit for digit. *)
Theorem header_prints_balance `{BP : BoardProvider} blocks u a1 a2 :
  ui_reachable blocks u ->
  let g := gameState (hook (ui_sys u)) in
  let hv := header_view (app_view (useGame_result (hook (ui_sys u)))) in
  displayValue a1 = an_value (balance_dollars hv) -> displayValue a2 = an_value (balance_coins hv) ->
  an_render (balance_dollars hv) a1 = cents_string (currentCoins g) /\
  an_render (balance_coins hv) a2 = digits (currentCoins g).
Proof.
  intros Hr. destruct (reachable_coins _ (ui_reachable_sys _ _ Hr)) as (_ & Hc & _).
  simpl. intros H1 H2. unfold an_render, formattedValue. rewrite H1, H2. simpl.
  split; [apply toFixed2_cents | apply round_toString_digits]; lia.
Qed.

(** ** Witnesses *)

Lemma header_prints_balance_witness :
  match ui_run true (take 3 cash_out_then_restart) initialUi with
  | Some u =>
      let g := gameState (hook (ui_sys u)) in
      let hv := header_view (app_view (useGame_result (hook (ui_sys u)))) in
      an_render (balance_dollars hv) (an_mount (an_value (balance_dollars hv)) 0) =
        cents_string (currentCoins g) /\
      an_render (balance_coins hv) (an_mount (an_value (balance_coins hv)) 0) = digits (currentCoins g)
  | None => False
  end.
Proof.
  sample_state 3%nat u Hrun.
  apply (header_prints_balance true u); [exact (sample_run_reachable _ _ Hrun) | apply run_effect_fields..].
Defined.

Lemma frame_leaks_loop_witness :
  match an_run pow_by_mult (take 3 coins_anim) (an_mount (js_number 0) 0) with
  | Some s =>
      match an_step pow_by_mult (Frame 48) s with
      | Some s' => length (rafQueue s') = S (length (rafQueue s))
      | None => False
      end
  | None => False
  end.
Proof.
  destruct (an_run pow_by_mult (take 3 coins_anim) (an_mount (js_number 0) 0)) as [s|] eqn:Hrun;
    [|vm_compute in Hrun; discriminate].
  assert (an_reachable pow_by_mult s) as Hr
    by (eapply an_run_reachable; [apply an_reach_mount | exact Hrun]).
  vm_compute in Hrun. injection Hrun as <-.
  destruct (an_step pow_by_mult (Frame 48) _) as [s'|] eqn:Hs; [|vm_compute in Hs; discriminate].
  apply (frame_leaks_loop pow_by_mult _ 48 s' Hr Hs).
  - repeat constructor.
  - vm_compute in Hs. injection Hs as <-. vm_compute. discriminate.
  - vm_compute in Hs. injection Hs as <-. vm_compute. reflexivity.
Defined.

Lemma frame_settles_witness :
  match an_run pow_by_mult coins_anim (an_mount (js_number 0) 0) with
  | Some s =>
      match an_step pow_by_mult (Frame 5000) s with
      | Some s' => displayValue s' = value s /\ rafQueue s' = []
      | None => False
      end
  | None => False
  end.
Proof.
  destruct (an_run pow_by_mult coins_anim (an_mount (js_number 0) 0)) as [s|] eqn:Hrun;
    [|vm_compute in Hrun; discriminate].
  vm_compute in Hrun. injection Hrun as <-.
  destruct (an_step pow_by_mult (Frame 5000) _) as [s'|] eqn:Hs; [|vm_compute in Hs; discriminate].
  apply (frame_settles pow_by_mult _ 5000 s' Hs).
  - discriminate.
  - repeat constructor.
  - reflexivity.
Defined.

End AnimatedNumber.
