(* ===== verification/Spec.v ===== *)
(** * Spec: the session state machine of the specification.

  [spec.md] §3 and §4.2 describe the session engine abstractly: a
  [SessionState] with [bankroll], [currentBet], [grid], [roundWinnings],
  [rewardPerCell] and a status among Idle, Loading, Playing, Lost and
  CashedOut, and a table of transitions with their guards and side effects.
  This file writes that table down as [spec_step], a deterministic
  function that answers [None] when the spec rejects an event in a state
  (a second [startRound] while Loading, a provider answer outside Loading,
  a reset or a cash-out from the wrong status).  Events the spec calls
  silent no-ops (a reveal outside Playing, off the grid or of a revealed
  cell) leave the state unchanged.  It is modelled from the spec, not from
  [src/]: the refinement theorem of [Refinement] relates it to the code.

  The ledger of §8 ("bankroll conservation") is stated over runs of this
  machine: every transition moves the bankroll by its [ledger_entry]
  (minus the bet when a round starts, plus bet and winnings on a cash-out),
  except the two the spec itself exempts, the stake-out recovery and the
  reset. *)

From Stdlib Require Import ZArith Lia.
From stdpp Require Import base list decidable.
From S2P Require Import Prelude Config.

Open Scope Z_scope.
Import GAME_CONFIG.

Module SessionSpec.

(** [status: {Idle, Loading, Playing, Lost, CashedOut}]. *)
Inductive SStatus := Idle | Loading | Playing | Lost | CashedOut.

#[export] Instance SStatus_eq_dec : EqDecision SStatus.
Proof. solve_decision. Defined.

(** A cell of the grid: winning or a mine, and revealed or not (its [id] is
    only for UI keying). *)
Record SCell := mkSCell {
  s_winning : bool;
  s_revealed : bool
}.

#[export] Instance SCell_eq_dec : EqDecision SCell.
Proof. solve_decision. Defined.

(** [SessionState]. *)
Record SState := mkS {
  s_bankroll : Z;
  s_bet : Z;
  s_grid : list (list SCell);
  s_winnings : Z;
  s_reward : Z;
  s_status : SStatus
}.

(** The session created once per process, and after [resetSession]. *)
Definition s_initial : SState :=
  mkS STARTING_BALANCE DEFAULT_BET [] 0 BASE_AMOUNT_PER_WIN Idle.

(** The operations and the Board Provider's two answers. *)
Inductive SEvent :=
| StartRound
| ProviderSuccess (grid : list (list bool)) (reward : Z)
| ProviderFailure
| RevealCell (row col : Z)
| ConfirmCashOut
| ResetSession
| SetBet (amount : Z)
| StartNewRound.

(** A fresh grid from the provider's layout: nothing revealed. *)
Definition fresh_grid (layout : list (list bool)) : list (list SCell) :=
  (fun ws : list bool => (fun w => mkSCell w false) <$> ws) <$> layout.

Definition s_cell_at (grid : list (list SCell)) (row col : Z) : option SCell :=
  if (0 <=? row) && (0 <=? col)
  then grid !! Z.to_nat row ≫= (fun cells => cells !! Z.to_nat col) else None.

Definition s_reveal_cell (c : SCell) : SCell := mkSCell (s_winning c) true.

Definition s_reveal (grid : list (list SCell)) (row col : Z) : list (list SCell) :=
  alter (fun cells => alter s_reveal_cell (Z.to_nat col) cells) (Z.to_nat row) grid.

Definition s_reveal_all (grid : list (list SCell)) : list (list SCell) :=
  (fun cells : list SCell => s_reveal_cell <$> cells) <$> grid.

(** [startRound] from Idle (and [startNewRound] from CashedOut, "identical
    to startRound"): to Loading if the bankroll covers the bet, else the
    stake-out recovery. *)
Definition s_start (s : SState) : SState :=
  if s_bet s <=? s_bankroll s then
    mkS (s_bankroll s) (s_bet s) (s_grid s) (s_winnings s) (s_reward s) Loading
  else
    mkS STARTING_BALANCE DEFAULT_BET (s_grid s) (s_winnings s) (s_reward s) Idle.

(** The transition table of §4.2. *)
Definition spec_step (e : SEvent) (s : SState) : option SState :=
  match e, s_status s with
  | StartRound, Idle => Some (s_start s)
  | StartNewRound, CashedOut => Some (s_start s)
  | ProviderSuccess layout reward, Loading =>
      Some (mkS (s_bankroll s - s_bet s) (s_bet s) (fresh_grid layout) 0 reward Playing)
  | ProviderFailure, Loading =>
      Some (mkS (s_bankroll s) (s_bet s) (s_grid s) (s_winnings s) (s_reward s) Idle)
  | RevealCell row col, Playing =>
      match s_cell_at (s_grid s) row col with
      | None => Some s
      | Some c =>
          if s_revealed c then Some s
          else if s_winning c then
            Some (mkS (s_bankroll s) (s_bet s) (s_reveal (s_grid s) row col)
                      (s_winnings s + s_reward s) (s_reward s) Playing)
          else
            Some (mkS (s_bankroll s) (s_bet s) (s_reveal_all (s_grid s)) 0 (s_reward s) Lost)
      end
  | RevealCell _ _, _ => Some s
  | ConfirmCashOut, Playing =>
      Some (mkS (s_bankroll s + (s_bet s + s_winnings s)) (s_bet s) (s_reveal_all (s_grid s))
                (s_winnings s) (s_reward s) CashedOut)
  | ResetSession, (Lost | CashedOut) => Some s_initial
  | SetBet amount, _ =>
      Some (mkS (s_bankroll s)
                (Z.max MIN_BET (Z.min MAX_BET (Z.min amount (s_bankroll s))))
                (s_grid s) (s_winnings s) (s_reward s) (s_status s))
  | _, _ => None
  end.

Fixpoint spec_run (es : list SEvent) (s : SState) : option SState :=
  match es with
  | [] => Some s
  | e :: es' => match spec_step e s with Some s' => spec_run es' s' | None => None end
  end.

(** §8's ledger: a started round costs its bet, a cashed-out round pays
    back bet and winnings, a lost round nothing. *)
Definition ledger_entry (e : SEvent) (s : SState) : Z :=
  match e with
  | ProviderSuccess _ _ => - s_bet s
  | ConfirmCashOut => s_bet s + s_winnings s
  | _ => 0
  end.

(** The two transitions the ledger does not cover. *)
Definition exempt (e : SEvent) (s : SState) : bool :=
  match e with
  | ResetSession => true
  | StartRound | StartNewRound => s_bankroll s <? s_bet s
  | _ => false
  end.

(** The states the spec machine reaches from [s_initial]. *)
Inductive spec_reachable : SState -> Prop :=
| spec_reach_init : spec_reachable s_initial
| spec_reach_step e s s' :
    spec_reachable s -> spec_step e s = Some s' -> spec_reachable s'.

(** Every transition the spec accepts and does not exempt moves the
    bankroll by its ledger entry. *)
Lemma spec_step_ledger e s s' :
  spec_step e s = Some s' -> exempt e s = false ->
  s_bankroll s' = s_bankroll s + ledger_entry e s.
Proof.
  destruct s as [bk bt g w rw st]. unfold spec_step, exempt, s_start.
  destruct e, st; simpl; intros Hs Hx; simplify_eq; simpl; try lia;
    repeat (case_match; simplify_eq; simpl); lia.
Qed.

End SessionSpec.
