(* ===== verification/Refinement.v ===== *)
(** * Refinement: the App implements the spec's session machine.

  [abs] reads a hook [GameState] as a spec [SState]: the balance is the
  bankroll, [amountPerWin] the reward per cell, a cell keeps its winning and
  revealed flags (its [id] is dropped), and the status is Loading while
  [isLoading] and otherwise the code's status.  [spec_event] names the spec
  event each App event performs; the modal's own clicks and the opening of
  the confirmation are stutter steps that change no [SState] field.

  Theorems: each hook operation, under the guard the spec puts on it,
  performs its row of the table; with a click-blocking overlay every App
  step is a spec step or a stutter, so every state the App reaches is one
  the spec machine reaches; and the App keeps §8's ledger between two
  RESTARTs. *)

From Stdlib Require Import ZArith Lia.
From stdpp Require Import base list decidable.
From S2P Require Import Prelude Config Provider GameApi Board UseGame Session App Spec.

Open Scope Z_scope.
Import GAME_CONFIG.

Module Refinement.
Import Board UseGame Session App SessionSpec.

Definition abs_status (g : GameState) : SStatus :=
  if isLoading g then Loading
  else match gameStatus g with
       | IDLE => Idle
       | PLAYING => Playing
       | LOST => Lost
       | CASHED_OUT => CashedOut
       | WON => Idle
       end.

Definition abs_cell (c : Cell) : SCell := mkSCell (isWinning c) (isRevealed c).

Definition abs_grid (b : list (list Cell)) : list (list SCell) :=
  (fun cells : list Cell => abs_cell <$> cells) <$> b.

Definition abs (g : GameState) : SState :=
  mkS (sessionBalance g) (currentBet g) (abs_grid (board g)) (roundWinnings g)
      (amountPerWin g) (abs_status g).

Definition abs_ui (u : Ui) : SState := abs (gameState (hook (ui_sys u))).

(** The spec operation each App event performs; [None] for the stutter
    steps (opening, cancelling and confirming in the modal, and Play Again,
    which only closes the modal and schedules [initializeGame]). *)
Definition spec_event (e : UiEvent) : option SEvent :=
  match e with
  | ClickStart => Some StartRound
  | ClickRestart => Some ResetSession
  | ClickCashOut => None
  | ClickCell p => Some (RevealCell (row p) (col p))
  | ClickKeepPlaying => None
  | ClickConfirm => None
  | ConfirmTimerFires => Some ConfirmCashOut
  | ClickPlayAgain => None
  | BoardArrives (Some gd) => Some (ProviderSuccess (game_board gd) (game_amountPerWin gd))
  | BoardArrives None => Some ProviderFailure
  | RoundTimerFires => Some StartRound
  end.

(** The invariant the refinement needs on top of [ui_inv_blocking]: an
    [IDLE] session has no winnings, and [WON] never occurs. *)
Definition refine_inv (u : Ui) : Prop :=
  let g := gameState (hook (ui_sys u)) in
  ui_inv_blocking u /\ (gameStatus g = IDLE -> roundWinnings g = 0) /\ gameStatus g <> WON.

(** The ledger of an App run: what each step's spec operation books. *)
Fixpoint ui_ledger (es : list UiEvent) (u : Ui) : Z :=
  match es with
  | [] => 0
  | e :: es' =>
      match ui_step true e u with
      | Some u' =>
          match spec_event e with
          | Some se => ledger_entry se (abs_ui u)
          | None => 0
          end + ui_ledger es' u'
      | None => 0
      end
  end.

(** ** The grid *)

Lemma abs_grid_createGameBoard a : abs_grid (createGameBoard a) = fresh_grid a.
Proof. unfold abs_grid, createGameBoard, fresh_grid. board_ext; done. Qed.

Lemma abs_grid_revealAllCells b : abs_grid (revealAllCells b) = s_reveal_all (abs_grid b).
Proof. unfold abs_grid, revealAllCells, s_reveal_all. board_ext; done. Qed.

Lemma revealAllCells_reveal_at b p : revealAllCells (reveal_at b p) = revealAllCells b.
Proof. unfold revealAllCells, reveal_at. board_ext; [by case_match | done]. Qed.

Lemma s_cell_at_abs b p : s_cell_at (abs_grid b) (row p) (col p) = abs_cell <$> board_get b p.
Proof.
  unfold s_cell_at, board_get, js_index, abs_grid.
  destruct (Z.leb_spec 0 (row p)); simpl; [|by destruct (0 <=? col p)].
  rewrite list_lookup_fmap. destruct (b !! Z.to_nat (row p)) as [cells|]; simpl;
    [|by destruct (0 <=? col p)].
  destruct (Z.leb_spec 0 (col p)); simpl; [|done]. by rewrite list_lookup_fmap.
Qed.

Lemma abs_grid_reveal_at b p cell :
  board_get b p = Some cell ->
  abs_grid (reveal_at b p) = s_reveal (abs_grid b) (row p) (col p).
Proof.
  intros Hget. rewrite (reveal_at_alter _ _ _ Hget).
  pose proof Hget as Hget'. unfold board_get, js_index in Hget'.
  destruct (Z.leb_spec 0 (row p)); [|done].
  destruct (b !! Z.to_nat (row p)) as [cells|] eqn:Hrow; [|done]. simpl in Hget'.
  destruct (Z.leb_spec 0 (col p)); [|done].
  unfold abs_grid, s_reveal. apply list_eq. intros i.
  rewrite list_lookup_fmap, !list_lookup_alter, list_lookup_fmap.
  destruct (decide (i = Z.to_nat (row p))) as [->|Hi].
  - rewrite Hrow. simpl. repeat case_decide; try congruence. simpl. f_equal.
    apply list_eq. intros j. rewrite list_lookup_fmap, list_lookup_alter, list_lookup_fmap.
    destruct (decide (j = Z.to_nat (col p))) as [->|Hj].
    + rewrite list_lookup_insert_eq by (eapply lookup_lt_Some; eauto). rewrite Hget'.
      simpl. by case_decide.
    + rewrite list_lookup_insert_ne by done. simpl. case_decide; [congruence|].
      by rewrite list_lookup_fmap.
  - repeat case_decide; try congruence. by rewrite ?list_lookup_fmap.
Qed.

Lemma abs_initial : abs initialGameState = s_initial.
Proof. reflexivity. Qed.

(** ** Each hook operation performs its row of the table *)

(** [initializeGame]'s first updater is [startRound] from Idle, the
    stake-out recovery included. *)
Lemma start_refines g :
  gameStatus g = IDLE -> isLoading g = false -> roundWinnings g = 0 ->
  spec_step StartRound (abs g) = Some (abs (initializeGame_start g)).
Proof.
  destruct g as [b c st apw l bal bet w]. simpl. intros -> -> ->.
  unfold abs, abs_status, initializeGame_start, s_start. simpl. z_cases; try reflexivity; lia.
Qed.

(** The settling of [fetchBoard] is the provider's answer to Loading. *)
Lemma settle_refines g r :
  isLoading g = true ->
  spec_step (match r with
             | Some gd => ProviderSuccess (game_board gd) (game_amountPerWin gd)
             | None => ProviderFailure
             end) (abs g) = Some (abs (initializeGame_settle r g)).
Proof.
  destruct g as [b c st apw l bal bet w]. simpl. intros ->.
  destruct r as [gd|]; unfold abs, abs_status; simpl; [|done].
  by rewrite abs_grid_createGameBoard.
Qed.

(** [flipCell] on a [PLAYING] round is [revealCell]. *)
Lemma flip_refines p h h' :
  gameStatus (gameState h) = PLAYING -> isLoading (gameState h) = false ->
  flipCell p h = inr h' ->
  spec_step (RevealCell (row p) (col p)) (abs (gameState h)) = Some (abs (gameState h')).
Proof.
  intros Hst Hl Hflip. rewrite flipCell_playing in Hflip by done.
  unfold abs at 1, abs_status. rewrite Hl, Hst. simpl. rewrite s_cell_at_abs.
  destruct (board_get _ p) as [cell|] eqn:Hget; [|discriminate]. simpl.
  destruct (isRevealed cell).
  { injection Hflip as <-. unfold abs, abs_status. by rewrite Hl, Hst. }
  destruct (isWinning cell); injection Hflip as <-; unfold abs, abs_status; simpl; rewrite Hl.
  - by rewrite (abs_grid_reveal_at _ _ _ Hget).
  - by rewrite revealAllCells_reveal_at, abs_grid_revealAllCells.
Qed.

(** [confirmCashOut] on a [PLAYING] round is the spec's cash-out. *)
Lemma confirm_refines h :
  gameStatus (gameState h) = PLAYING -> isLoading (gameState h) = false ->
  spec_step ConfirmCashOut (abs (gameState h)) = Some (abs (gameState (confirmCashOut h))).
Proof.
  intros Hst Hl. unfold abs, abs_status. simpl. rewrite Hl, Hst.
  by rewrite abs_grid_revealAllCells.
Qed.

(** [resetGame] after a lost or cashed-out round is [resetSession]. *)
Lemma reset_refines h :
  isLoading (gameState h) = false ->
  gameStatus (gameState h) = LOST \/ gameStatus (gameState h) = CASHED_OUT ->
  spec_step ResetSession (abs (gameState h)) = Some (abs (gameState (resetGame h))).
Proof. intros Hl Hst. unfold abs, abs_status. rewrite Hl. by destruct Hst as [-> | ->]. Qed.

(** ** The App refines the spec machine *)

Lemma refine_inv_step `{BP : BoardProvider} e u u' :
  ui_event_ok e -> refine_inv u -> ui_step true e u = Some u' -> refine_inv u'.
Proof.
  intros Hok [Hb Hx] Hs. split; [by eapply ui_inv_blocking_step|].
  destruct u as [[[[bd coins status apw loading bal bet win] o st] n t] [stg k]].
  destruct Hb as ((_ & Ht & Hfl & Hbet & Hbal & Hidle & Hm & Hc) & Hopen & Hload & H100).
  destruct Hx as (Hidle0 & Hwon). simpl in *.
  destruct e; ui_cases Hs; ui_flip_frame; ui_finish.
Qed.

Lemma refine_inv_reachable `{BP : BoardProvider} u : ui_reachable true u -> refine_inv u.
Proof.
  induction 1 as [|e u u' Hr IH Hok Hstep].
  - split; [by apply ui_inv_blocking_reachable, ui_reach_init|]. simpl. split; [done|discriminate].
  - by eapply refine_inv_step.
Qed.

Lemma ui_step_refines `{BP : BoardProvider} e u u' :
  ui_reachable true u -> ui_step true e u = Some u' ->
  match spec_event e with
  | Some se => spec_step se (abs_ui u) = Some (abs_ui u')
  | None => abs_ui u' = abs_ui u
  end.
Proof.
  intros Hr Hs. destruct (refine_inv_reachable _ Hr) as [Hb (Hidle0 & Hwon)].
  destruct u as [[[[bd coins status apw loading bal bet win] o st] n t] [stg k]].
  destruct Hb as ((_ & Ht & Hfl & Hbet & Hbal & Hidle & Hm & Hc) & Hopen & Hload & H100).
  unfold abs_ui. simpl in *. subst t.
  destruct e; ui_cases Hs; cbn [spec_event ui_sys hook].
  - apply start_refines; simpl; auto.
  - apply (reset_refines (mkHook _ _ _)); simpl; [done|]. destruct status; naive_solver.
  - unfold initiateCashOut. by destruct (canCashOut _).
  - destruct loading; [exfalso; specialize (Hload eq_refl); simplify_eq|].
    eapply (flip_refines _ (mkHook _ _ _)); [done | done | eassumption].
  - done.
  - done.
  - destruct Hm as [[? _]|(_ & _ & ->)]; [lia|]. destruct (Hopen eq_refl) as [-> ->].
    destruct Hfl as [[_ ->]|[? _]]; [|lia]. by apply (confirm_refines (mkHook _ _ _)).
  - done.
  - destruct Hfl as [[? _]|[_ [-> _]]]; [lia|]. destruct result as [gd|]; cbn [spec_event];
    [refine (settle_refines _ (Some gd) _) | refine (settle_refines _ None _)]; reflexivity.
Qed.

(** The App never takes a transition the spec exempts from its ledger
    other than RESTART: START GAME finds the bet covered, and no
    [startNewRound] timer is ever pending. *)
Lemma ui_step_not_exempt `{BP : BoardProvider} e u u' se :
  ui_reachable true u -> ui_step true e u = Some u' -> e <> ClickRestart ->
  spec_event e = Some se -> exempt se (abs_ui u) = false.
Proof.
  intros Hr Hs Hne He. destruct (ui_inv_reachable _ _ Hr) as (_ & Ht & _ & _ & _ & Hidle & _).
  destruct u as [[[[bd coins status apw loading bal bet win] o st] n t] [stg k]].
  simpl in *. destruct e; try destruct result; simplify_eq/=; try done.
  - ui_cases Hs. apply Z.ltb_ge. by apply Hidle.
Qed.

(** Every state the App reaches is, read through [abs], a state the spec's
    machine reaches. *)
Corollary app_states_spec_reachable `{BP : BoardProvider} u :
  ui_reachable true u -> spec_reachable (abs_ui u).
Proof.
  induction 1 as [|e u u' Hr IH Hok Hstep]; [unfold abs_ui; constructor|].
  pose proof (ui_step_refines _ _ _ Hr Hstep) as Hsim.
  destruct (spec_event e) as [se|]; [by eapply spec_reach_step | by rewrite Hsim].
Qed.

(** C35: with the overlay blocking clicks, every step the App takes from a
    reachable state is the spec operation [spec_event] names, performed on
    the abstraction of the state, or a stutter step that changes no field of
    the spec's [SessionState]. *)
Theorem app_refines_spec `{BP : BoardProvider} e u u' :
  ui_reachable true u -> ui_step true e u = Some u' ->
  match spec_event e with
  | Some se => spec_step se (abs_ui u) = Some (abs_ui u')
  | None => abs_ui u' = abs_ui u
  end.
Proof. apply ui_step_refines. Qed.

(** C36: With an overlay that intercepts clicks behind the open modal
    ([blocks = true]), §8's bankroll conservation holds in the App between
    two RESTARTs: along any run without RESTART from a reachable state, the
    balance moves by exactly the ledger of the run (minus the bet for each
    board that arrives, plus bet and winnings for each cash-out).  The
    overlay matters: without it the App takes steps the spec rejects, such
    as a cash-out after a lost round or after a RESTART while the modal
    celebrates. *)
Theorem app_bankroll_ledger `{BP : BoardProvider} es u u' :
  ui_reachable true u -> Forall ui_event_ok es -> ClickRestart ∉ es ->
  ui_run true es u = Some u' ->
  sessionBalance (gameState (hook (ui_sys u'))) =
    sessionBalance (gameState (hook (ui_sys u))) + ui_ledger es u.
Proof.
  revert u. induction es as [|e es IH]; simpl; intros u Hr Hok Hnr Hrun; [inv_some; lia|].
  apply list.Forall_cons in Hok as [He Hes]. apply not_elem_of_cons in Hnr as [Hne Hnr].
  destruct (ui_step true e u) as [u1|] eqn:Hs; [|discriminate].
  rewrite (IH u1) by (try eapply ui_reach_step; eauto).
  pose proof (ui_step_refines _ _ _ Hr Hs) as Hsim.
  destruct (spec_event e) as [se|] eqn:He'.
  - pose proof (spec_step_ledger _ _ _ Hsim (ui_step_not_exempt _ _ _ _ Hr Hs (not_eq_sym Hne) He')) as Hl.
    change (sessionBalance (gameState (hook (ui_sys u1)))) with (s_bankroll (abs_ui u1)).
    rewrite Hl. simpl. lia.
  - change (sessionBalance (gameState (hook (ui_sys u1)))) with (s_bankroll (abs_ui u1)).
    rewrite Hsim. simpl. lia.
Qed.

(** ** Witnesses: the theorems above on the states of [cash_out_then_restart] *)

Lemma app_refines_spec_witness :
  match ui_run true (take 5 cash_out_then_restart) initialUi with
  | Some u =>
      match ui_step true ConfirmTimerFires u with
      | Some u' => spec_step ConfirmCashOut (abs_ui u) = Some (abs_ui u')
      | None => False
      end
  | None => False
  end.
Proof.
  sample_state 5%nat u Hrun. sample_next u Hrun ConfirmTimerFires u' Hs.
  exact (app_refines_spec ConfirmTimerFires u u' (sample_run_reachable _ _ Hrun) Hs).
Defined.

Lemma app_bankroll_ledger_witness :
  match ui_run true (take 6 cash_out_then_restart) initialUi with
  | Some u => sessionBalance (gameState (hook (ui_sys u))) =
                STARTING_BALANCE + ui_ledger (take 6 cash_out_then_restart) initialUi
  | None => False
  end.
Proof.
  sample_state 6%nat u Hrun.
  apply (app_bankroll_ledger (take 6 cash_out_then_restart) initialUi u);
    [apply ui_reach_init | apply Forall_take, sample_events_ok | | exact Hrun].
  unfold cash_out_then_restart. simpl.
  intros Hin. repeat (apply elem_of_cons in Hin as [Hin|Hin]; [discriminate|]).
  by apply elem_of_nil in Hin.
Defined.

End Refinement.
