(* ===== verification/Liveness.v ===== *)
(** * Liveness: the App can always get back to a new round.

  With the overlay blocking clicks and a provider that produces some board,
  from every state the App reaches the user can reach, in at most three
  clicks or browser events that can happen ([sent_event]: a board arrives
  only as one the provider produced, since [fetchBoard] never rejects), a
  state where START GAME is accepted: a pending [fetchBoard] settles and the
  round's hidden mine is clicked, a lost or
  cashed-out round is RESTARTed, an open confirmation is cancelled or its
  timer fires, and a round in play always has a hidden mine to click.

  The proof follows the progress-and-measure pattern: [ui_rank] counts the
  steps left (0 when START GAME is enabled), [ui_progress] finds, in every
  reachable state of positive rank, an enabled event that lowers it, and
  well-founded induction on the rank chains them.  The hidden mine comes
  from the invariant [playing_clean]: while a round is [PLAYING] every
  revealed cell is winning (a revealed mine ends the round), and the board
  has [MIN_MINES] mines. *)

From Stdlib Require Import ZArith Lia.
From stdpp Require Import base list decidable.
From S2P Require Import Prelude Config Provider GameApi Board UseGame Session App View Refinement.

Open Scope Z_scope.
Import GAME_CONFIG.

Module Liveness.
Import Board UseGame Session App GameView Refinement.

(** While [PLAYING], every revealed cell is a winning cell. *)
Definition playing_clean (g : GameState) : Prop :=
  gameStatus g = PLAYING ->
  Forall (Forall (fun cl => isRevealed cl = true -> isWinning cl = true)) (board g).

(** The number of events the App still needs before START GAME is
    accepted. *)
Definition ui_rank (u : Ui) : nat :=
  let h := hook (ui_sys u) in
  let g := gameState h in
  match gameStatus g with
  | IDLE => if isLoading g then 3 else 0
  | PLAYING =>
      if showCashOutModal h then
        (match stage (ui_modal u) with celebrating => 2 | _ => 3 end)
      else 2
  | _ => 1
  end.

(** The events the browser can deliver: [gameApi.fetchBoard] never
    rejects, so a board arrives only as one the provider produced. *)
Definition sent_event `{BP : BoardProvider} (e : UiEvent) : Prop :=
  match e with
  | BoardArrives (Some g) => provided g
  | BoardArrives None => False
  | _ => True
  end.

(** ** The hidden mine *)

Lemma clean_reveal_at b p cl :
  Forall (Forall (fun c => isRevealed c = true -> isWinning c = true)) b ->
  board_get b p = Some cl -> isWinning cl = true ->
  Forall (Forall (fun c => isRevealed c = true -> isWinning c = true)) (reveal_at b p).
Proof.
  intros Hb Hget Hw. apply list.Forall_forall. intros cells' (r & cells & -> & Hr)%elem_of_lookup_imap.
  apply list.Forall_forall. intros c' (c & x & -> & Hc)%elem_of_lookup_imap.
  case_match eqn:Hat.
  - apply andb_true_iff in Hat as [Hrow%bool_decide_eq_true Hcol%bool_decide_eq_true].
    destruct p as [pr pc]. simpl in *. subst pr pc.
    rewrite board_get_nat, Hr in Hget. simpl in Hget. rewrite Hc in Hget. by injection Hget as ->.
  - pose proof (list.Forall_lookup_1 _ _ _ _ Hb Hr) as Hcells.
    exact (list.Forall_lookup_1 _ _ _ _ Hcells Hc).
Qed.

Lemma clean_createGameBoard a :
  Forall (Forall (fun c => isRevealed c = true -> isWinning c = true)) (createGameBoard a).
Proof.
  eapply list.Forall_impl; [apply createGameBoard_unrevealed|]. intros cells Hcells.
  eapply list.Forall_impl; [exact Hcells|]. intros c -> ?. discriminate.
Qed.

Lemma playing_clean_flipCell p h h' :
  playing_clean (gameState h) -> flipCell p h = inr h' -> playing_clean (gameState h').
Proof.
  intros Hc Hflip. destruct (decide (gameStatus (gameState h) = PLAYING)) as [Hst|Hst];
    [|unfold flipCell, status_is in Hflip; rewrite bool_decide_eq_false_2 in Hflip by done;
      by injection Hflip as <-].
  rewrite flipCell_playing in Hflip by done.
  destruct (board_get _ p) as [cl|] eqn:Hget; [|discriminate].
  destruct (isRevealed cl); [by injection Hflip as <-|].
  destruct (isWinning cl) eqn:Hw; injection Hflip as <-; intros Hp; simpl in *; [|discriminate].
  exact (clean_reveal_at _ _ _ (Hc Hst) Hget Hw).
Qed.

(** Every hook transition keeps [playing_clean]. *)
Lemma playing_clean_step e s s' :
  sys_step e s = Some s' -> playing_clean (gameState (hook s)) -> playing_clean (gameState (hook s')).
Proof.
  intros Hs Hc. destruct e; simpl in Hs; repeat case_match; simplify_eq; simpl;
    unfold initializeGame_start, initializeGame_settle, initializeGame_success,
      initializeGame_failure, initiateCashOut, setBetAmount, on_game, playing_clean in *;
    repeat case_match; simpl in *; try done; eauto using clean_createGameBoard.
  eapply playing_clean_flipCell; [exact Hc | eassumption].
Qed.

Lemma playing_clean_reachable `{BP : BoardProvider} s :
  reachable s -> playing_clean (gameState (hook s)).
Proof.
  induction 1; [discriminate | eauto using playing_clean_step].
Qed.

(** A board with a mine whose revealed cells are all winning has a hidden
    mine. *)
Lemma hidden_mine b :
  0 < count_mines (layout b) ->
  Forall (Forall (fun c => isRevealed c = true -> isWinning c = true)) b ->
  exists p cl, board_get b p = Some cl /\ isWinning cl = false /\ isRevealed cl = false.
Proof.
  intros Hm Hb. unfold count_mines, count_false in Hm.
  destruct (filter _ _) as [|w ws] eqn:Hf; simpl in Hm; [lia|].
  assert (false ∈ concat (layout b)) as Hin.
  { assert (w ∈ filter (fun w => w = false) (concat (layout b))) as Hw by (rewrite Hf; left).
    apply list_elem_of_filter in Hw as [-> ?]. done. }
  apply list_elem_of_In, in_concat in Hin as (ws' & Hws%list_elem_of_In & Hx%list_elem_of_In).
  unfold layout in Hws. apply list_elem_of_fmap in Hws as (cells & -> & Hcells).
  apply list_elem_of_fmap in Hx as (cl & Hwin & Hcl).
  apply list_elem_of_lookup_1 in Hcells as [r Hr]. apply list_elem_of_lookup_1 in Hcl as [c Hc].
  exists (mkPos (Z.of_nat r) (Z.of_nat c)), cl. rewrite board_get_nat, Hr. simpl. rewrite Hc.
  split; [done|]. split; [done|].
  destruct (isRevealed cl) eqn:Hrev; [|done].
  pose proof (list.Forall_lookup_1 _ _ _ _ Hb Hr) as Hcells.
  rewrite (list.Forall_lookup_1 _ _ _ _ Hcells Hc Hrev) in Hwin. discriminate.
Qed.

(** ** Progress *)

(** Take the step [e]: it is enabled, its event is one the provider may
    send, and it lowers the rank. *)
Ltac take_step e :=
  exists e; eexists; split; [done|]; split; [reflexivity | cbn; lia].

Lemma start_enabled `{BP : BoardProvider} u :
  ui_reachable true u -> ui_rank u = 0%nat -> is_Some (ui_step true ClickStart u).
Proof.
  intros Hr. destruct (ui_inv_blocking_reachable _ Hr) as (_ & Hopen & _).
  destruct u as [[[[bd coins status apw loading bal bet win] o st] n t] [stg k]].
  unfold ui_rank. simpl in *. destruct status, o, loading, stg; try discriminate;
    try (by destruct (Hopen eq_refl)).
  all: intros _; by eexists.
Qed.

Lemma sent_event_ok `{BP : BoardProvider} e : sent_event e -> ui_event_ok e.
Proof. destruct e as [| | | | | | | |[]|]; done. Qed.

Section Progress.
Context `{BP : BoardProvider}.
(** The provider produces at least one board. *)
Hypothesis provider_board : exists g, provided g.

Lemma ui_progress u :
  ui_reachable true u -> ui_rank u <> 0%nat ->
  exists e u', sent_event e /\ ui_step true e u = Some u' /\ (ui_rank u' < ui_rank u)%nat.
Proof.
  intros Hr Hrank. destruct (refine_inv_reachable _ Hr) as [Hb (_ & Hwon)].
  pose proof (playing_clean_reachable _ (ui_reachable_sys _ _ Hr)) as Hclean.
  destruct u as [[[[bd coins status apw loading bal bet win] o st] n t] [stg k]].
  destruct Hb as ((Hg & Ht & Hfl & _ & _ & _ & Hm & Hc) & Hopen & Hload & _).
  unfold ui_rank, playing_clean in *. simpl in *.
  destruct status; try congruence.
  (* LOST and CASHED_OUT: RESTART *)
  3,4: destruct o; [by destruct (Hopen eq_refl)|];
    destruct loading; [by specialize (Hload eq_refl)|]; take_step ClickRestart.
  - (* IDLE: the pending fetchBoard settles with a board of the provider *)
    destruct loading; [|done]. destruct Hfl as [[_ ?]|[-> _]]; [done|].
    destruct o; [by destruct (Hopen eq_refl)|].
    destruct provider_board as [g Hg']. take_step (BoardArrives (Some g)).
  - (* PLAYING *)
    destruct loading; [specialize (Hload eq_refl); discriminate|].
    destruct o.
    + destruct Hm as [[-> Hstg]|(-> & -> & _)].
      * destruct stg; [|done | by destruct (Hc eq_refl)]. take_step ClickKeepPlaying.
      * take_step ConfirmTimerFires.
    + (* a hidden mine: the round is lost *)
      destruct Hg as (_ & _ & _ & _ & Hok & Hplay).
      destruct Hok as [Hnil|(_ & Hmines & _)]; [by destruct (Hplay eq_refl)|].
      assert (0 < count_mines (layout bd)) as Hpos.
      { simpl in Hmines. unfold MIN_MINES in *. lia. }
      destruct (hidden_mine bd Hpos (Hclean eq_refl))
        as (p & cl & Hget & Hw & Hrev).
      exists (ClickCell p). eexists. split; [done|]. split.
      { unfold ui_step, ui_apply, sys_step, flipCell, cell_clickable. simpl.
        rewrite Hget, Hrev, Hw. reflexivity. }
      cbn. lia.
Qed.

Lemma ui_rank_le u : (ui_rank u <= 3)%nat.
Proof. unfold ui_rank. repeat case_match; lia. Qed.

(** Chaining [ui_progress]: START GAME within [ui_rank u] events. *)
Lemma start_within_rank u :
  ui_reachable true u ->
  exists es u', Forall sent_event es /\ (length es <= ui_rank u)%nat /\
    ui_run true es u = Some u' /\ is_Some (ui_step true ClickStart u').
Proof.
  remember (ui_rank u) as m eqn:Hm. revert u Hm.
  induction m as [m IH] using lt_wf_ind. intros u -> Hr.
  destruct (decide (ui_rank u = 0%nat)) as [H0|H0].
  - exists [], u. rewrite H0. split; [constructor|]. split; [done|]. split; [done|].
    by apply start_enabled.
  - destruct (ui_progress u Hr H0) as (e & u1 & Hok & Hs & Hlt).
    destruct (IH (ui_rank u1) Hlt u1 eq_refl (ui_reach_step _ _ _ _ Hr (sent_event_ok _ Hok) Hs))
      as (es & u' & Hoks & Hlen & Hrun & Hstart).
    exists (e :: es), u'. simpl. rewrite Hs. split; [by constructor|]. split; [lia|]. done.
Qed.
End Progress.

(** ** The liveness theorem *)

(** C40: The App never gets stuck: for a provider that produces some board
    (as [gameApi] does), with the overlay blocking clicks, from every state
    the App reaches, at most three clicks or browser events that can really
    happen (a board from the provider arriving, never a rejection, which
    [fetchBoard] never sends; RESTART; Keep Playing; the confirmation timer;
    a click on a hidden mine) lead to a state where START GAME is accepted. *)
Theorem app_can_always_start `{BP : BoardProvider} u :
  (exists g, provided g) -> ui_reachable true u ->
  exists es u', Forall sent_event es /\ (length es <= 3)%nat /\
    ui_run true es u = Some u' /\ is_Some (ui_step true ClickStart u').
Proof.
  intros Hp Hr. destruct (start_within_rank Hp u Hr) as (es & u' & Hok & Hlen & Hrun & Hs).
  pose proof (ui_rank_le u). exists es, u'. repeat split; auto. lia.
Qed.

(** ** The board of a round in play *)

(** C29: In every state the App reaches, with or without the blocking
    overlay, the board is [playing_clean]: while a round is [PLAYING] every
    revealed cell of the board is a winning cell: [initializeGame] starts
    from an unrevealed board, a safe click reveals a winning cell, and a
    click on a mine ends the round ([LOST]) in the same update that
    reveals it. *)
Theorem app_revealed_cells_win `{BP : BoardProvider} blocks u :
  ui_reachable blocks u -> playing_clean (gameState (hook (ui_sys u))).
Proof.
  intros Hr. exact (playing_clean_reachable _ (ui_reachable_sys _ _ Hr)).
Qed.

(** ** Witness: the state after a safe cell was revealed *)

Lemma app_can_always_start_witness :
  match ui_run true (take 3 cash_out_then_restart) initialUi with
  | Some u => exists es u', Forall (sent_event (BP := gameApi_provider)) es /\
                (length es <= 3)%nat /\ ui_run true es u = Some u' /\
                is_Some (ui_step true ClickStart u')
  | None => False
  end.
Proof.
  sample_state 3%nat u Hrun.
  exact (app_can_always_start u (ex_intro _ _ sample_game_provided) (sample_run_reachable _ _ Hrun)).
Defined.

(** After START GAME, the board and one safe click
    the round is in play and its one revealed cell is winning. *)
Lemma app_revealed_cells_win_witness :
  match ui_run true (take 3 cash_out_then_restart) initialUi with
  | Some u => gameStatus (gameState (hook (ui_sys u))) = PLAYING /\
      playing_clean (gameState (hook (ui_sys u)))
  | None => False
  end.
Proof.
  sample_state 3%nat u Hrun.
  assert (Hp : gameStatus (gameState (hook (ui_sys u))) = PLAYING)
    by (vm_compute in Hrun; injection Hrun as <-; reflexivity).
  exact (conj Hp (app_revealed_cells_win true u (sample_run_reachable _ _ Hrun))).
Defined.

End Liveness.
